(** * tfbvis: benchmark-log parsing and run aggregation

    A shallow embedding of [main.py]: the unit normaliser [no_units], the
    section splitter and grammar parser [get_rps_and_latency], the windowed
    statistics [get_memory_usage] / [get_cpu_usage] and the aggregator
    [get_test_results], and the header names of [get_stats], followed by
    the properties the specification states about them and by further
    properties of the code.

    Modelling conventions.
    - A Python [float] is an IEEE-754 binary64 number: Rocq's primitive
      [float], whose operations are specified by [SpecFloat].
    - A Python [int] is a [Z]; a Python [str] is a [string] whose characters
      are the code points below 256.
    - A raised exception is the [Raise] branch of [result]; the exception
      classes the program distinguishes are the constructors of [exn].
    - pyparsing and pandas are libraries the program calls; the parts of
      them it uses are modelled from their documented behaviour, next to the
      place where the program uses them. *)

From Stdlib Require Import ZArith NArith List String Ascii Bool Lia Floats.
From Stdlib Require Import DecimalString DecimalPos DecimalN.
Import ListNotations.

#[local] Set Warnings "-inexact-float,-register-all".
#[local] Open Scope string_scope.
#[local] Open Scope Z_scope.

(** ** Exceptions and results *)

Inductive exn : Type :=
| ValueError (msg : string)
| TypeError (msg : string)
| KeyError (key : Z)
| IndexError
| ParseException
| FileNotFoundError (filename : string)
| Exception (msg : string).

Inductive result (A : Type) : Type :=
| Ok (a : A)
| Raise (e : exn).
Arguments Ok {A} a.
Arguments Raise {A} e.

Definition bind {A B} (m : result A) (k : A -> result B) : result B :=
  match m with
  | Ok a => k a
  | Raise e => Raise e
  end.

Declare Scope py_scope.
Delimit Scope py_scope with py.
Notation "x <- m ;; k" := (bind m (fun x => k))
  (at level 61, m at next level, right associativity) : py_scope.
Notation "' pat <- m ;; k" := (bind m (fun x => match x with pat => k end))
  (at level 61, pat pattern, m at next level, right associativity) : py_scope.
#[local] Open Scope py_scope.

(** [[f(x) for x in xs]]: the first exception raised ends the comprehension. *)
Fixpoint mapM {A B} (f : A -> result B) (xs : list A) : result (list B) :=
  match xs with
  | [] => Ok []
  | x :: xs' => y <- f x ;; ys <- mapM f xs' ;; Ok (y :: ys)
  end.

(** ** Characters and strings *)

Definition code (c : ascii) : Z := Z.of_N (N_of_ascii c).

Definition is_digit (c : ascii) : bool := (48 <=? code c) && (code c <=? 57).
Definition is_alpha (c : ascii) : bool :=
  ((65 <=? code c) && (code c <=? 90)) || ((97 <=? code c) && (code c <=? 122)).

(** [str.isspace] on the code points below 256. *)
Definition py_isspace (c : ascii) : bool :=
  ((9 <=? code c) && (code c <=? 13)) || ((28 <=? code c) && (code c <=? 32))
  || (code c =? 133) || (code c =? 160).

Fixpoint lstrip (s : string) : string :=
  match s with
  | String c s' => if py_isspace c then lstrip s' else s
  | EmptyString => EmptyString
  end.

Fixpoint rstrip (s : string) : string :=
  match s with
  | String c s' =>
      match rstrip s' with
      | EmptyString => if py_isspace c then EmptyString else String c EmptyString
      | t => String c t
      end
  | EmptyString => EmptyString
  end.

(** [s.strip()] *)
Definition strip (s : string) : string := rstrip (lstrip s).

(** [s.startswith(p)] *)
Definition startswith (s p : string) : bool := String.prefix p s.

(** [s.endswith(p)] *)
Fixpoint endswith (s p : string) : bool :=
  String.eqb s p ||
  match s with
  | String _ s' => endswith s' p
  | EmptyString => false
  end.

(** [p in s] *)
Fixpoint contains (s p : string) : bool :=
  String.prefix p s ||
  match s with
  | String _ s' => contains s' p
  | EmptyString => false
  end.

Definition lower (c : ascii) : ascii :=
  if (65 <=? code c) && (code c <=? 90) then ascii_of_N (N_of_ascii c + 32) else c.

Fixpoint lowercase (s : string) : string :=
  match s with
  | String c s' => String (lower c) (lowercase s')
  | EmptyString => EmptyString
  end.

(** ** Python's [int()] and [float()] on strings *)

Definition digit_val (c : ascii) : Z := code c - 48.

(** The digits of a [digitpart ::= digit (["_"] digit)*] at the head of [s],
    with the underscores removed, and what follows it. *)
Fixpoint digitpart (after_digit : bool) (s : string) : string * string :=
  match s with
  | String c s' =>
      if is_digit c then
        let (d, r) := digitpart true s' in (String c d, r)
      else if after_digit && Ascii.eqb c "_" then
        match s' with
        | String c' _ =>
            if is_digit c' then digitpart false s' else (EmptyString, s)
        | EmptyString => (EmptyString, s)
        end
      else (EmptyString, s)
  | EmptyString => (EmptyString, EmptyString)
  end.

Fixpoint digits_val (acc : Z) (s : string) : Z :=
  match s with
  | String c s' => digits_val (10 * acc + digit_val c) s'
  | EmptyString => acc
  end.

(** An optional sign at the head of [s]: whether it is a minus, and the rest. *)
Definition sign_of (s : string) : bool * string :=
  match s with
  | String "-" s' => (true, s')
  | String "+" s' => (false, s')
  | _ => (false, s)
  end.

(** [int(s)] in base ten. *)
Definition py_int (s : string) : result Z :=
  let (neg, body) := sign_of (strip s) in
  match digitpart false body with
  | (String c d, EmptyString) =>
      let n := digits_val 0 (String c d) in Ok (if neg then - n else n)
  | _ => Raise (ValueError ("invalid literal for int() with base 10: '" ++ s ++ "'"))
  end.

(** The binary64 number nearest to [(-1)^neg * m * 10^e] (ties to even): the
    correctly rounded quotient of two integers. *)
Definition float_of_decimal (neg : bool) (m : Z) (e : Z) : float :=
  match m with
  | Zpos p =>
      SF2Prim (SFdiv prec emax
                 (S754_finite neg (p * Z.to_pos (10 ^ Z.max e 0)) 0)
                 (S754_finite false (Z.to_pos (10 ^ Z.max (- e) 0)) 0))
  | _ => if neg then neg_zero else zero
  end.

(** [float(n)] for an integer [n]. *)
Definition float_of_Z (n : Z) : float :=
  float_of_decimal (n <? 0) (Z.abs n) 0.

(** [float(s)]: blanks around, a sign, then [inf], [infinity], [nan] or a
    decimal number with an optional fraction and exponent. *)
Definition py_float (s : string) : result float :=
  let bad := Raise (ValueError ("could not convert string to float: '" ++ s ++ "'")) in
  let (neg, body) := sign_of (strip s) in
  let word := lowercase body in
  if String.eqb word "inf" || String.eqb word "infinity" then
    Ok (if neg then neg_infinity else infinity)
  else if String.eqb word "nan" then Ok nan
  else
    let (ip, r1) := digitpart false body in
    let '(fp, r2) :=
      match r1 with
      | String "." r => digitpart false r
      | _ => (EmptyString, r1)
      end in
    if (String.length ip + String.length fp =? 0)%nat then bad
    else
      let mant := digits_val 0 (ip ++ fp) in
      let frac := Z.of_nat (String.length fp) in
      match r2 with
      | EmptyString => Ok (float_of_decimal neg mant (- frac))
      | String c r =>
          if Ascii.eqb (lower c) "e" then
            let (eneg, ebody) := sign_of r in
            match digitpart false ebody with
            | (String d ds, EmptyString) =>
                let ex := digits_val 0 (String d ds) in
                Ok (float_of_decimal neg mant ((if eneg then - ex else ex) - frac))
            | _ => bad
            end
          else bad
      end.

(** ** UnitNormalizer: [no_units] *)

(** [xs[i]] for [0 <= i]. *)
Definition getitem {A} (xs : list A) (i : nat) : result A :=
  match nth_error xs i with
  | Some x => Ok x
  | None => Raise IndexError
  end.

Definition no_units (nums : list string) : result float :=
  if (List.length nums =? 0)%nat then
    Raise (ValueError "nums must be non-empty list of str")
  else if (2 <? List.length nums)%nat then
    Raise (ValueError "nums must have length less than 3")
  else if (List.length nums =? 1)%nat then
    s <- getitem nums 0 ;; py_float s
  else
    s <- getitem nums 0 ;;
    num <- py_float s ;;
    unit <- getitem nums 1 ;;
    if String.eqb unit "%" then Ok num
    else if String.eqb unit "k" then Ok (num * 1e3)%float
    else if String.eqb unit "GB" then Ok (num * 1e3)%float
    else if String.eqb unit "MB" then Ok num
    else if String.eqb unit "KB" then Ok (num * 1e-3)%float
    else if String.eqb unit "B" then Ok (num * 1e-6)%float
    else if String.eqb unit "s" then Ok (num * 1e3)%float
    else if String.eqb unit "ms" then Ok num
    else if String.eqb unit "us" then Ok (num * 1e-3)%float
    else Raise (ValueError ("Unknown unit: " ++ unit)).

(** The two failures of the normaliser, as the specification names them. *)
Definition UnrecognizedUnit (unit : string) : exn :=
  ValueError ("Unknown unit: " ++ unit).

Definition InvalidArity (e : exn) : Prop :=
  e = ValueError "nums must be non-empty list of str" \/
  e = ValueError "nums must have length less than 3".

(** ** pyparsing, as far as the grammar uses it

    A parser element is run on the text that remains to be read (pyparsing's
    [instring[loc:]]) and returns the tokens it matched with the text left
    over, or raises [ParseException].  Every element first skips pyparsing's
    default blanks unless it stands inside a [Combine], which makes the
    elements it contains adjacent. *)

Inductive tok : Type :=
| Str (s : string)
| Grp (ts : list tok).

Inductive ParserElement : Type :=
| Literal (s : string)
| Word (chars : ascii -> bool)
| And (a b : ParserElement)
| Optional (e : ParserElement)
| Group (e : ParserElement)
| Combine (e : ParserElement).

Declare Scope pe_scope.
Delimit Scope pe_scope with pe.
Bind Scope pe_scope with ParserElement.
Infix "+" := And : pe_scope.

(** [e * n] for [1 <= n]: [And([e] * n)], whose tokens are those of [n]
    matches of [e] in a row. *)
Fixpoint times (e : ParserElement) (n : nat) : ParserElement :=
  match n with
  | O | S O => e
  | S n' => And (times e n') e
  end.
Infix "*" := times : pe_scope.

Definition nums : ascii -> bool := is_digit.
Definition alphas : ascii -> bool := is_alpha.

Definition is_white (c : ascii) : bool :=
  Ascii.eqb c " " || (code c =? 10) || (code c =? 9) || (code c =? 13).

Fixpoint skip_white (s : string) : string :=
  match s with
  | String c s' => if is_white c then skip_white s' else s
  | EmptyString => EmptyString
  end.

Definition preParse (ws : bool) (s : string) : string :=
  if ws then skip_white s else s.

(** [s[len(p):]] when [s] starts with [p]. *)
Fixpoint drop_prefix (p s : string) : option string :=
  match p, s with
  | EmptyString, _ => Some s
  | String a p', String b s' => if Ascii.eqb a b then drop_prefix p' s' else None
  | String _ _, EmptyString => None
  end.

(** The longest run of characters of [chars] at the head of [s]. *)
Fixpoint span (chars : ascii -> bool) (s : string) : string * string :=
  match s with
  | String c s' =>
      if chars c then let (w, r) := span chars s' in (String c w, r)
      else (EmptyString, s)
  | EmptyString => (EmptyString, EmptyString)
  end.

(** The strings of a token list, nested groups included, joined. *)
Fixpoint joined_tok (t : tok) : string :=
  match t with
  | Str s => s
  | Grp ts => String.concat EmptyString (map joined_tok ts)
  end.

Definition joined (ts : list tok) : string :=
  String.concat EmptyString (map joined_tok ts).

Fixpoint parse (ws : bool) (e : ParserElement) (s : string)
  : result (list tok * string) :=
  match e with
  | Literal lit =>
      match drop_prefix lit (preParse ws s) with
      | Some r => Ok ([Str lit], r)
      | None => Raise ParseException
      end
  | Word chars =>
      match span chars (preParse ws s) with
      | (String c w, r) => Ok ([Str (String c w)], r)
      | (EmptyString, _) => Raise ParseException
      end
  | And a b =>
      '(ta, r1) <- parse ws a s ;;
      '(tb, r2) <- parse ws b r1 ;;
      Ok ((ta ++ tb)%list, r2)
  | Optional a =>
      match parse ws a (preParse ws s) with
      | Ok r => Ok r
      | Raise _ => Ok ([], preParse ws s)
      end
  | Group a =>
      '(ta, r) <- parse ws a s ;;
      Ok ([Grp ta], r)
  | Combine a =>
      '(ta, r) <- parse false a (preParse ws s) ;;
      Ok ([Str (joined ta)], r)
  end.

(** [s.expandtabs()]: tab stops every eight columns, the column counted from
    the last line break. *)
Fixpoint expandtabs_from (col : nat) (s : string) : string :=
  match s with
  | String c s' =>
      if code c =? 9 then
        let incr := (8 - col mod 8)%nat in
        string_of_list_ascii (repeat " "%char incr) ++ expandtabs_from (col + incr) s'
      else if (code c =? 10) || (code c =? 13) then String c (expandtabs_from 0 s')
      else String c (expandtabs_from (S col) s')
  | EmptyString => EmptyString
  end.

Definition expandtabs (s : string) : string := expandtabs_from 0 s.

(** [e.parseString(s)]: the tokens; text after the match is ignored. *)
Definition parseString (e : ParserElement) (s : string) : result (list tok) :=
  '(ts, _) <- parse true e (expandtabs s) ;; Ok ts.

(** Indexing a token list: [ts[i]], negative [i] counted from the end. *)
Definition item (ts : list tok) (i : Z) : result tok :=
  let n := Z.of_nat (List.length ts) in
  let j := if i <? 0 then i + n else i in
  if (j <? 0) || (n <=? j) then Raise IndexError
  else getitem ts (Z.to_nat j).

Fixpoint chars_of (s : string) : list tok :=
  match s with
  | String c s' => Str (String c EmptyString) :: chars_of s'
  | EmptyString => []
  end.

(** The elements of a token seen as a sequence: those of a group, the
    characters of a string. *)
Definition elements (t : tok) : list tok :=
  match t with
  | Grp ts => ts
  | Str s => chars_of s
  end.

(** [t[i]] *)
Definition sub (t : tok) (i : Z) : result tok := item (elements t) i.

(** [t[a:b]] for [0 <= a <= b]. *)
Definition slice (ts : list tok) (a b : nat) : list tok :=
  firstn (b - a) (skipn a ts).

(** A token handed to [int()] or [float()] must be a string. *)
Definition int_tok (t : tok) : result Z :=
  match t with
  | Str s => py_int s
  | Grp _ => Raise (TypeError "int() argument must be a string")
  end.

Definition float_tok (t : tok) : result float :=
  match t with
  | Str s => py_float s
  | Grp _ => Raise (TypeError "float() argument must be a string")
  end.

Definition str_tok (t : tok) : result string :=
  match t with
  | Str s => Ok s
  | Grp _ => Raise (TypeError "expected a string")
  end.

(** [no_units(e)] on a token: its elements are the list of strings. *)
Definition no_units_tok (e : tok) : result float :=
  nums <- mapM str_tok (elements e) ;; no_units nums.

(** [t == s] for a string [s]. *)
Definition tok_eqb (t : tok) (s : string) : bool :=
  match t with
  | Str s' => String.eqb s' s
  | Grp _ => false
  end.

(** ** RunGrammarParser: the grammar *)

Definition Integer : ParserElement := Word nums.
Definition Floating : ParserElement :=
  Combine (Word nums + Optional (Combine (Literal "." + Word nums))).
Definition FloatUnit : ParserElement := Group (Floating + Optional (Word alphas)).
Definition Percent : ParserElement := Group (Floating + Literal "%").

Definition get_rps_and_latency_parser : ParserElement :=
  let count_conn :=
    Group (Integer + Literal "threads and" + Integer + Literal "connections;") in
  let lat_stats :=
    Group (Literal "Latency" + FloatUnit + FloatUnit + FloatUnit + Percent + Literal ";") in
  let rps_stats :=
    Group (Literal "Req/Sec" + FloatUnit + FloatUnit + FloatUnit + Percent + Literal ";") in
  let lat_dist := Group (Percent + FloatUnit + Literal ";") in
  let lat_dists := (lat_dist * 4)%pe in
  let req_count :=
    Group (Integer + Literal "requests in" + FloatUnit + Literal "," + FloatUnit
           + Literal "read;") in
  let non_2xx := Optional (Group (Literal "Non-2xx or 3xx responses:" + Integer + Literal ";")) in
  let rps_summary := Group (Literal "Requests/sec:" + Floating + Literal ";") in
  let tps_summary := Group (Literal "Transfer/sec:" + FloatUnit + Literal ";") in
  let start_end :=
    Group (Literal "STARTTIME" + Integer + Literal ";" + Literal "ENDTIME" + Integer
           + Literal ";") in
  let parser :=
   (count_conn
    + Literal "Thread Stats   Avg      Stdev     Max   +/- Stdev;"
    + lat_stats
    + rps_stats
    + Literal "Latency Distribution;"
    + lat_dists
    + req_count
    + non_2xx
    + rps_summary
    + tps_summary
    + start_end)%pe in
  parser.

(** ** The records of the data model *)

Record RpsSummary : Type := {
  requests_per_sec : float;
  transfer_megabytes_per_sec : float;
  request_count : Z;
  megabytes_read : float;
  over_seconds : float;
  non_2xx_count : Z;
  thread_rps_mean : float;
  thread_rps_max : float;
  thread_rps_stdev : float;
  thread_rps_stdev_range : float
}.

Record LatencySummary : Type := {
  lat50 : float;
  lat75 : float;
  lat90 : float;
  lat99 : float;
  thread_mean : float;
  thread_max : float;
  thread_stdev : float;
  thread_stdev_range : float
}.

Record RawSummary : Type := {
  threads : Z;
  connections : Z;
  rps : RpsSummary;
  latency : LatencySummary;
  starttime : float;
  endtime : float
}.

(** ** RunGrammarParser: from the tokens of one section to a [RawSummary] *)

(** [a, b, c, d = xs] *)
Definition unpack4 {A} (xs : list A) : result (A * A * A * A) :=
  match xs with
  | [a; b; c; d] => Ok (a, b, c, d)
  | _ => Raise (ValueError "wrong number of values to unpack")
  end.

(** [t[i][j]] *)
Definition item2 (t : list tok) (i j : Z) : result tok :=
  g <- item t i ;; sub g j.

(** The body of the [try] block: one section's text to its summary. *)
Definition parse_section (rps_parser : ParserElement) (section : string)
  : result RawSummary :=
  t <- parseString rps_parser section ;;
  threads <- (x <- item2 t 0 0 ;; int_tok x) ;;
  connections <- (x <- item2 t 0 2 ;; int_tok x) ;;
  '(latavg, latstdev, latmax, latstdevrange) <-
    (g <- item t 2 ;; xs <- mapM no_units_tok (slice (elements g) 1 5) ;; unpack4 xs) ;;
  '(rpsavg, rpsstdev, rpsmax, rpsstdevrange) <-
    (g <- item t 3 ;; xs <- mapM no_units_tok (slice (elements g) 1 5) ;; unpack4 xs) ;;
  '(lat50, lat75, lat90, lat99) <-
    (xs <- mapM (fun e => x <- sub e 1 ;; no_units_tok x) (slice t 5 9) ;; unpack4 xs) ;;
  req_count <- (x <- item2 t 9 0 ;; int_tok x) ;;
  over_sec <- (x <- item2 t 9 2 ;; ms <- no_units_tok x ;; Ok (1e-3 * ms)%float) ;;
  mb_read <- (x <- item2 t 9 4 ;; no_units_tok x) ;;
  label <- item2 t 10 0 ;;
  non2xx <- (if tok_eqb label "Non-2xx or 3xx responses:"
             then x <- item2 t 10 1 ;; int_tok x
             else Ok 0) ;;
  requests_per_sec <- (x <- item2 t (-3) 1 ;; float_tok x) ;;
  megabytes_per_sec <- (x <- item2 t (-2) 1 ;; no_units_tok x) ;;
  starttime <- (x <- item2 t (-1) 1 ;; float_tok x) ;;
  endtime <- (x <- item2 t (-1) 4 ;; float_tok x) ;;
  let rps := {|
    requests_per_sec := requests_per_sec;
    transfer_megabytes_per_sec := megabytes_per_sec;
    request_count := req_count;
    megabytes_read := mb_read;
    over_seconds := over_sec;
    non_2xx_count := non2xx;
    thread_rps_mean := rpsavg;
    thread_rps_max := rpsmax;
    thread_rps_stdev := rpsstdev;
    thread_rps_stdev_range := rpsstdevrange |} in
  let latencies := {|
    lat50 := lat50;
    lat75 := lat75;
    lat90 := lat90;
    lat99 := lat99;
    thread_mean := latavg;
    thread_max := latmax;
    thread_stdev := latstdev;
    thread_stdev_range := latstdevrange |} in
  Ok {|
    threads := threads;
    connections := connections;
    rps := rps;
    latency := latencies;
    starttime := starttime;
    endtime := endtime |}.

(** The three [except] clauses: the exception is raised again under its own
    class when that is [ValueError] or [TypeError], as a plain [Exception]
    otherwise, with the file name for message. *)
Definition problem_parsing (filename : string) (e : exn) : exn :=
  match e with
  | ValueError _ => ValueError ("Problem parsing " ++ filename)
  | TypeError _ => TypeError ("Problem parsing " ++ filename)
  | _ => Exception ("Problem parsing " ++ filename)
  end.

(** ** SectionSplitter: the first loop of [get_rps_and_latency] *)

(** The lines a text file yields when iterated: every line break ([\n], [\r]
    or [\r\n]) is read as [\n] and closes a line; the line keeps it. *)
Fixpoint readlines (s : string) : list string :=
  match s with
  | EmptyString => []
  | String c s' =>
      if code c =? 10 then String c EmptyString :: readlines s'
      else if code c =? 13 then
        match s' with
        | String c' s'' =>
            if code c' =? 10 then String c' EmptyString :: readlines s''
            else String "010" EmptyString :: readlines s'
        | EmptyString => [String "010" EmptyString]
        end
      else
        match readlines s' with
        | [] => [String c EmptyString]
        | l :: ls => String c l :: ls
        end
  end.

(** [text_sections], a dict: its items in insertion order. *)
Definition dict : Type := list (Z * string).

(** [d[k]] *)
Fixpoint dict_get (d : dict) (k : Z) : result string :=
  match d with
  | [] => Raise (KeyError k)
  | (k', v) :: d' => if k' =? k then Ok v else dict_get d' k
  end.

(** [d[k] = v]: in place when [k] is a key of [d], at the end otherwise. *)
Fixpoint dict_set (d : dict) (k : Z) (v : string) : dict :=
  match d with
  | [] => [(k, v)]
  | (k', v') :: d' => if k' =? k then (k', v) :: d' else (k', v') :: dict_set d' k v
  end.

Record splitter : Type := {
  section : Z;
  inheader : bool;
  text_sections : dict
}.

Definition abort_marker (line : string) : bool :=
  startswith line "unable to connect to"
  || startswith line "0 requests"
  || startswith line "Socket errors"
  || endswith line "nan%".

(** One turn of the loop over the lines: [Ok (Some st)] goes on to the next
    line in state [st], [Ok None] is [return None]. *)
Definition split_line (st : splitter) (line : string) : result (option splitter) :=
  let line := strip line in
  if startswith line "----" then
    if inheader st then
      Ok (Some {| section := section st; inheader := false;
                  text_sections := text_sections st |})
    else
      Ok (Some {| section := section st + 1; inheader := true;
                  text_sections := dict_set (text_sections st) (section st + 1) "" |})
  else if inheader st || startswith line "Running" then Ok (Some st)
  else if abort_marker line then Ok None
  else
    old <- dict_get (text_sections st) (section st) ;;
    Ok (Some {| section := section st; inheader := inheader st;
                text_sections :=
                  dict_set (text_sections st) (section st)
                    (old ++ " " ++ line ++ ";" ++ String "010" EmptyString) |}).

Fixpoint split_lines (st : splitter) (lines : list string) : result (option dict) :=
  match lines with
  | [] => Ok (Some (text_sections st))
  | line :: rest =>
      r <- split_line st line ;;
      match r with
      | Some st' => split_lines st' rest
      | None => Ok None
      end
  end.

Definition splitter0 : splitter :=
  {| section := 0; inheader := false; text_sections := [] |}.

(** SectionSplitter on the text of a log: the sections, or [None] for an
    invalid file. *)
Definition split_sections (text : string) : result (option dict) :=
  split_lines splitter0 (readlines text).

(** ** The second loop of [get_rps_and_latency] *)

Fixpoint parse_sections (filename : string) (rps_parser : ParserElement)
    (items : dict) : result (list RawSummary) :=
  match items with
  | [] => Ok []
  | (index, section) :: rest =>
      (* Warmup and primer don't have start/end time, so filter them out *)
      if negb (contains section "STARTTIME") then
        parse_sections filename rps_parser rest
      else
        match parse_section rps_parser section with
        | Ok summary =>
            section_results <- parse_sections filename rps_parser rest ;;
            Ok (summary :: section_results)
        | Raise e => Raise (problem_parsing filename e)
        end
  end.

(** [get_rps_and_latency(filename)], [text] being what the file holds. *)
Definition get_rps_and_latency (filename text : string)
  : result (option (list RawSummary)) :=
  sections <- split_sections text ;;
  match sections with
  | None => Ok None
  | Some text_sections =>
      section_results <-
        parse_sections filename get_rps_and_latency_parser text_sections ;;
      Ok (Some section_results)
  end.

(** [open(filename, "r")] among the files [files]: the text of the file, or
    [FileNotFoundError] for a path that names none. *)
Definition open_file (files : string -> option string) (filename : string)
  : result string :=
  match files filename with
  | Some text => Ok text
  | None => Raise (FileNotFoundError filename)
  end.

(** [get_rps_and_latency(filename)] from its first statement, the opening of
    the file. *)
Definition get_rps_and_latency_in (files : string -> option string)
    (filename : string) : result (option (list RawSummary)) :=
  text <- open_file files filename ;;
  get_rps_and_latency filename text.

(** ** RunSelector: [max(rpslats, key=...)] *)

(** The loop of [max]: the best element so far is replaced by a later one
    only when the key of that one is greater. *)
Fixpoint max_from {A} (key : A -> float) (best : A) (xs : list A) : A :=
  match xs with
  | [] => best
  | x :: xs' => max_from key (if (key best <? key x)%float then x else best) xs'
  end.

(** [max(xs, key=key)] *)
Definition py_max {A} (key : A -> float) (xs : list A) : result A :=
  match xs with
  | [] => Raise (ValueError "max() arg is an empty sequence")
  | x :: xs' => Ok (max_from key x xs')
  end.

(** ** ResourceStatsCorrelator

    pandas, as far as the program uses it.  The frame [get_stats] returns is
    its rows in file order: the epoch of the index and the two columns the
    program selects.  A series is the list of its values, a missing value
    being NaN. *)

Record Sample : Type := {
  epoch : float;
  memory_used : float;   (* stats["memory usage", "used"] *)
  cpu_usr : float        (* stats["total cpu usage", "usr"] *)
}.

Definition DataFrame : Type := list Sample.

(** [Index.is_monotonic_increasing]: no NaN, every label at most the next. *)
Fixpoint is_monotonic_increasing (idx : list float) : bool :=
  match idx with
  | [] => true
  | a :: rest =>
      match rest with
      | [] => (a =? a)%float
      | b :: _ => (a <=? b)%float && is_monotonic_increasing rest
      end
  end.

(** The length of the longest prefix of [xs] whose elements satisfy [p]: on
    a sorted index, [searchsorted] for the labels [p] puts to the left. *)
Fixpoint prefix_length {A} (p : A -> bool) (xs : list A) : nat :=
  match xs with
  | [] => O
  | x :: xs' => if p x then S (prefix_length p xs') else O
  end.

(** [frame.loc[start:end]] on a frame whose index is monotonic increasing:
    the rows from the first label not below [start] up to the last label
    not above [end], both bounds found by [searchsorted].  On another index
    pandas slices by the positions of the labels, or raises [KeyError] for a
    label the index does not hold: the properties that rest on [loc] take
    an index that [is_monotonic_increasing]. *)
Definition loc (frame : DataFrame) (start end_ : float) : DataFrame :=
  let i := prefix_length (fun row => (epoch row <? start)%float) frame in
  let j := prefix_length (fun row => (epoch row <=? end_)%float) frame in
  firstn (j - i) (skipn i frame).

Definition notna (x : float) : bool := (x =? x)%float.

(** The values of a series that are not missing. *)
Definition dropna (s : list float) : list float := filter notna s.

(** [s.count()] *)
Definition count (s : list float) : Z := Z.of_nat (List.length (dropna s)).

(** The values of a series with the missing ones put to 0. *)
Definition fill_zero (s : list float) : list float :=
  map (fun x => if notna x then x else 0%float) s.

(** *** The sum of an array of doubles

    pandas takes its sums with numpy's [ndarray.sum] (the optional
    bottleneck library left aside), that is [add.reduce] over a contiguous
    array: the result starts at 0 and the values are added to it by
    pairwise summation. *)

(** The plain loop, [res += a[i]] from the left. *)
Definition sum_from (res : float) (a : list float) : float :=
  fold_left (fun acc x => (acc + x)%float) a res.

(** [r[j] += a[i + j]] for the accumulators [r] and one block of values. *)
Fixpoint add_each (r block : list float) : list float :=
  match r, block with
  | x :: r', y :: block' => (x + y)%float :: add_each r' block'
  | _, _ => r
  end.

(** The loop over [k] blocks of eight values: the accumulators after it and
    the values it leaves. *)
Fixpoint accumulate (k : nat) (r a : list float) : list float * list float :=
  match k with
  | O => (r, a)
  | S k' => accumulate k' (add_each r (firstn 8 a)) (skipn 8 a)
  end.

(** From 8 to 128 values: eight accumulators take the first eight values
    and then every eighth value each; they are added up in pairs, and the
    values after the last whole block of eight are added one by one. *)
Definition sum_unrolled (a : list float) : float :=
  let n := List.length a in
  let (r, rest) := accumulate (n / 8 - 1) (firstn 8 a) (skipn 8 a) in
  match r with
  | [r0; r1; r2; r3; r4; r5; r6; r7] =>
      sum_from (((r0 + r1) + (r2 + r3)) + ((r4 + r5) + (r6 + r7)))%float rest
  | _ => sum_from 0%float a
  end.

(** [pairwise_sum]: fewer than 8 values are added from the left, starting
    at 0; more than 128 are split in two parts, the first a multiple of 8
    long, and the sums of the parts added.  [fuel] bounds the depth of the
    recursion: the length of the array is enough. *)
Fixpoint pairwise_sum (fuel : nat) (a : list float) : float :=
  let n := List.length a in
  if (n <? 8)%nat then sum_from 0%float a
  else if (n <=? 128)%nat then sum_unrolled a
  else
    match fuel with
    | O => nan
    | S fuel' =>
        let n2 := (n / 2 - (n / 2) mod 8)%nat in
        (pairwise_sum fuel' (firstn n2 a) + pairwise_sum fuel' (skipn n2 a))%float
    end.

(** [a.sum()] *)
Definition fsum (xs : list float) : float :=
  (0 + pairwise_sum (List.length xs) xs)%float.

(** [np.mean] of an array. *)
Definition np_mean (a : list float) : float :=
  (fsum a / float_of_Z (Z.of_nat (List.length a)))%float.

(** [s.mean()]: the sum of the values, the missing ones counted as 0,
    divided by the number of values that are not missing; NaN for a series
    without values. *)
Definition mean (s : list float) : float :=
  if count s =? 0 then nan
  else (fsum (fill_zero s) / float_of_Z (count s))%float.

(** [s.std()], with pandas' default of one delta degree of freedom: NaN for
    fewer than two values; the square of a missing value counts as 0. *)
Definition std (s : list float) : float :=
  let n := count s in
  if n <=? 1 then nan
  else
    let avg := (fsum (fill_zero s) / float_of_Z n)%float in
    let d := (float_of_Z n - 1)%float in
    let sqr := map (fun x => if notna x
                             then ((avg - x) * (avg - x))%float
                             else 0%float) s in
    sqrt (fsum sqr / d).

Fixpoint insert_sorted (x : float) (xs : list float) : list float :=
  match xs with
  | [] => [x]
  | y :: ys => if (x <=? y)%float then x :: xs else y :: insert_sorted x ys
  end.

Definition sorted_values (s : list float) : list float :=
  fold_right insert_sorted [] (dropna s).

(** [s.median()]: numpy's mean of the middle value, or of the two middle
    values, of the sorted values that are not missing. *)
Definition median (s : list float) : float :=
  let v := sorted_values s in
  let n := List.length v in
  if (n =? 0)%nat then nan
  else if Nat.odd n then np_mean [nth (n / 2) v nan]
  else np_mean [nth (n / 2 - 1) v nan; nth (n / 2) v nan].

(** [s.max()] *)
Definition smax (s : list float) : float :=
  match dropna s with
  | [] => nan
  | x :: xs => fold_left (fun m y => if (m <? y)%float then y else m) xs x
  end.

(** [s.between(left, right)]: the mask of [left <= s <= right]. *)
Definition between (left right x : float) : bool :=
  (left <=? x)%float && (x <=? right)%float.

(** [a / b] for two numpy integers: the quotient of their float values. *)
Definition int_true_divide (a b : Z) : float :=
  (float_of_Z a / float_of_Z b)%float.

Record MemorySummary : Type := {
  mem_mean : float;
  mem_median : float;
  mem_max : float;
  mem_stdev : float;
  mem_stdev_range : float
}.

Record CpuSummary : Type := {
  cpu_mean : float;
  cpu_median : float;
  cpu_max : float;
  cpu_stdev : float;
  cpu_stdev_range : float
}.

Definition get_memory_usage (stats : DataFrame) : MemorySummary :=
  let memory := map memory_used stats in
  let mean := mean memory in
  let stdev := std memory in
  {| mem_mean := mean;
     mem_median := median memory;
     mem_max := smax memory;
     mem_stdev := stdev;
     mem_stdev_range :=
       int_true_divide
         (100 * count (filter (between (mean - stdev) (mean + stdev)) memory))
         (count memory) |}.

Definition get_cpu_usage (stats : DataFrame) : CpuSummary :=
  let cpu := map cpu_usr stats in
  let mean := mean cpu in
  let stdev := std cpu in
  {| cpu_mean := mean;
     cpu_median := median cpu;
     cpu_max := smax cpu;
     cpu_stdev := stdev;
     cpu_stdev_range :=
       int_true_divide
         (100 * count (filter (between (mean - stdev) (mean + stdev)) cpu))
         (count cpu) |}.

(** ** ResultAggregator: [get_test_results] *)

Record FrameworkSummary : Type := {
  name : string;
  fw_threads : Z;
  fw_connections : Z;
  fw_rps : RpsSummary;
  fw_latency : LatencySummary;
  memory : MemorySummary;
  cpu : CpuSummary
}.

Record TestFiles : Type := {
  verification : string;  (* verification.txt *)
  stats : string;         (* stats.txt *)
  raw : string            (* raw.txt *)
}.

(** What the program reads, for a results directory in which every file
    the aggregator opens exists: the text of a file, and the frame
    [get_stats] builds from a stats file (or the exception it raises).  The
    [FileNotFoundError] of a missing file is that of [open_file]. *)
Record Disk : Type := {
  read : string -> string;
  get_stats : string -> result DataFrame
}.

Definition get_verification (disk : Disk) (filename : string) : bool :=
  existsb (fun line => startswith line "   PASS for") (readlines (read disk filename)).

(** The body of the loop over the frameworks of a test type: [None] when
    the framework is skipped ([continue]), its summary otherwise. *)
Definition framework_summary (disk : Disk) (framework : string) (paths : TestFiles)
  : result (option FrameworkSummary) :=
  if negb (get_verification disk (verification paths)) then Ok None
  else
    rpslats <- get_rps_and_latency (raw paths) (read disk (raw paths)) ;;
    match rpslats with
    | None => Ok None
    | Some rpslats =>
        (* Get the best RPS result *)
        rpslat <- py_max (fun r => requests_per_sec (rps r)) rpslats ;;
        (* Add one second to starttime to allow framework to ramp up cpu/memory *)
        let (start, end_) := ((starttime rpslat + 1)%float, endtime rpslat) in
        frame <- get_stats disk (stats paths) ;;
        let statframe := loc frame start end_ in
        let memory := get_memory_usage statframe in
        let cpu := get_cpu_usage statframe in
        Ok (Some {| name := framework;
                    fw_threads := threads rpslat;
                    fw_connections := connections rpslat;
                    fw_rps := rps rpslat;
                    fw_latency := latency rpslat;
                    memory := memory;
                    cpu := cpu |})
    end.

(** The loop over the frameworks of one test type. *)
Fixpoint framework_results (disk : Disk) (rows : list (string * TestFiles))
  : result (list FrameworkSummary) :=
  match rows with
  | [] => Ok []
  | (framework, paths) :: rest =>
      s <- framework_summary disk framework paths ;;
      summaries <- framework_results disk rest ;;
      Ok (match s with
          | Some summary => summary :: summaries
          | None => summaries
          end)
  end.

(** [get_test_results(testdic)]: the results per test type, in the order
    of [testdic]. *)
Fixpoint get_test_results (disk : Disk)
    (testdic : list (string * list (string * TestFiles)))
  : result (list (string * list FrameworkSummary)) :=
  match testdic with
  | [] => Ok []
  | (testtype, frameworkframe) :: rest =>
      results <- framework_results disk frameworkframe ;;
      testresults <- get_test_results disk rest ;;
      Ok ((testtype, results) :: testresults)
  end.

(** ** StatsLoader: the column names of [get_stats]

    [get_stats] reads the two header lines of a dstat CSV by hand, names
    the columns with pairs of labels and hands the names to [read_csv].
    The model is the part of the function in front of [read_csv]: from the
    text of the file to the list [names]. *)

Module StatsHeader.

(** The exceptions of this part of the program. *)
Inductive exn : Type :=
| StopIteration                      (* [next(csv)] at the end of the file *)
| UnboundLocalError (name : string)  (* a local variable read before it is set *)
| IndexError.                        (* [names[0]] on an empty list *)

Inductive result (A : Type) : Type :=
| Ok (a : A)
| Raise (e : exn).
Arguments Ok {A} a.
Arguments Raise {A} e.

(** [s.split(sep)] for the comma. *)
Fixpoint split_comma (s : string) : list string :=
  match s with
  | EmptyString => [EmptyString]
  | String c s' =>
      if Ascii.eqb c "," then EmptyString :: split_comma s'
      else
        match split_comma s' with
        | w :: ws => String c w :: ws
        | [] => [String c EmptyString]
        end
  end.

(** [s.strip(chars)] *)
Fixpoint lstrip_chars (chars : ascii -> bool) (s : string) : string :=
  match s with
  | String c s' => if chars c then lstrip_chars chars s' else s
  | EmptyString => EmptyString
  end.

Fixpoint rstrip_chars (chars : ascii -> bool) (s : string) : string :=
  match s with
  | String c s' =>
      match rstrip_chars chars s' with
      | EmptyString => if chars c then EmptyString else String c EmptyString
      | t => String c t
      end
  | EmptyString => EmptyString
  end.

Definition strip_chars (chars : ascii -> bool) (s : string) : string :=
  rstrip_chars chars (lstrip_chars chars s).

(** The double quote. *)
Definition is_quote (c : ascii) : bool := code c =? 34.

(** The cells of a header line: the line stripped and split at its commas,
    each cell stripped of double quotes. *)
Definition header (line : string) : list string :=
  map (strip_chars is_quote) (split_comma (strip line)).

(** A column name: a string, or a pair of labels. *)
Inductive column : Type :=
| Label (s : string)
| Pair (h1 h2 : string).

(** The loop over [zip(header1, header2)]: [lasth1] is [None] as long as
    the variable is not set, [names] is the list so far. *)
Fixpoint name_columns (lasth1 : option string) (names : list column)
    (cells : list (string * string)) : result (list column) :=
  match cells with
  | [] => Ok names
  | (h1, h2) :: rest =>
      match h1 with
      | String _ _ => name_columns (Some h1) (names ++ [Pair h1 h2]) rest
      | EmptyString =>
          match lasth1 with
          | Some l => name_columns lasth1 (names ++ [Pair l h2]) rest
          | None => Raise (UnboundLocalError "lasth1")
          end
      end
  end.

(** [csv.readline()]: the next line, the empty string at the end of the
    file. *)
Definition readline (csv : list string) : string * list string :=
  match csv with
  | [] => (EmptyString, [])
  | line :: rest => (line, rest)
  end.

(** [get_stats] up to the call of [read_csv]: the [names] of the columns,
    [text] being what the file holds. *)
Definition get_stats_names (text : string) : result (list column) :=
  let csv := readlines text in
  if (List.length csv <? 4)%nat then Raise StopIteration
  else
    let csv := skipn 4 csv in
    let (line1, csv) := readline csv in
    let header1 := header line1 in
    let (line2, csv) := readline csv in
    let header2 := header line2 in
    match name_columns None [] (combine header1 header2) with
    | Raise e => Raise e
    | Ok names =>
        match names with
        | [] => Raise IndexError
        | _ :: names' => Ok (Label "epoch" :: names')
        end
    end.

End StatsHeader.

(** * The vocabulary of the properties *)

(** ** Vocabulary for the splitter's properties *)

(** A delimiter line: a line of dashes, once stripped. *)
Definition is_delimiter (line : string) : bool := startswith (strip line) "----".

(** The lines of a log that reach the abort test and the accumulator: those
    outside the headers (a header runs from one delimiter to the next) that,
    stripped, start neither with dashes nor with [Running]; [inheader] says
    whether the first line stands in a header. *)
Fixpoint body_lines (inheader : bool) (lines : list string) : list string :=
  match lines with
  | [] => []
  | l :: rest =>
      if is_delimiter l then body_lines (negb inheader) rest
      else if inheader || startswith (strip l) "Running" then body_lines inheader rest
      else strip l :: body_lines inheader rest
  end.

(** The lines in front of the first delimiter. *)
Fixpoint preamble (lines : list string) : list string :=
  match lines with
  | [] => []
  | l :: rest => if is_delimiter l then [] else l :: preamble rest
  end.

(** [d] has an entry under [k]. *)
Definition has_key (d : dict) (k : Z) : Prop := exists v, dict_get d k = Ok v.

(** ** The inverse of the grammar

    Modelled from the spec: the repository has no renderer; the
    specification's round trip builds "a section string from a known
    RawSummary (inverse of the grammar)".  [render_section] lays the fields
    out in the order of the grammar, between the grammar's literal tokens,
    each line the way the splitter accumulates it (a blank, the line, a
    semicolon, a line break), with the canonical suffix of each quantity
    ([ms], [MB], [%], none for counts per second).  How a number is written
    is left to the printers [show] (magnitudes) and [show_time]
    (timestamps). *)

Definition nonempty (s : string) : bool :=
  match s with
  | EmptyString => false
  | String _ _ => true
  end.

Fixpoint all_chars (p : ascii -> bool) (s : string) : bool :=
  match s with
  | String c s' => p c && all_chars p s'
  | EmptyString => true
  end.

(** A token of [Integer]: digits, at least one. *)
Definition integer_token (s : string) : bool := nonempty s && all_chars is_digit s.

(** A token of [Floating]: digits, then possibly a point and digits. *)
Definition decimal_token (s : string) : bool :=
  let (ip, r) := span is_digit s in
  nonempty ip &&
  match r with
  | EmptyString => true
  | String c fp => Ascii.eqb c "." && integer_token fp
  end.

(** [str(n)] for [0 <= n]. *)
Definition show_int (n : Z) : string :=
  NilEmpty.string_of_uint (N.to_uint (Z.to_N n)).

(** The unit a renderer writes the duration in: the seconds the field holds,
    or the canonical milliseconds. *)
Inductive duration_unit : Type := Seconds | Milliseconds.

Section Render.
Variable show : float -> string.
Variable show_time : float -> string.
Variable unit : duration_unit.

Definition nl : string := String "010" EmptyString.

Definition render_duration (seconds : float) : string :=
  match unit with
  | Seconds => show seconds ++ "s"
  | Milliseconds => show (seconds * 1e3)%float ++ "ms"
  end.

Definition render_section (r : RawSummary) : string :=
  let l := latency r in
  let p := rps r in
  " " ++ show_int (threads r) ++ " threads and "
      ++ show_int (connections r) ++ " connections;" ++ nl ++
  " Thread Stats   Avg      Stdev     Max   +/- Stdev;" ++ nl ++
  " Latency " ++ show (thread_mean l) ++ "ms " ++ show (thread_stdev l) ++ "ms "
      ++ show (thread_max l) ++ "ms " ++ show (thread_stdev_range l) ++ "%;" ++ nl ++
  " Req/Sec " ++ show (thread_rps_mean p) ++ " " ++ show (thread_rps_stdev p) ++ " "
      ++ show (thread_rps_max p) ++ " " ++ show (thread_rps_stdev_range p) ++ "%;" ++ nl ++
  " Latency Distribution;" ++ nl ++
  " 50% " ++ show (lat50 l) ++ "ms;" ++ nl ++
  " 75% " ++ show (lat75 l) ++ "ms;" ++ nl ++
  " 90% " ++ show (lat90 l) ++ "ms;" ++ nl ++
  " 99% " ++ show (lat99 l) ++ "ms;" ++ nl ++
  " " ++ show_int (request_count p) ++ " requests in "
      ++ render_duration (over_seconds p) ++ ", "
      ++ show (megabytes_read p) ++ "MB read;" ++ nl ++
  (if non_2xx_count p =? 0 then EmptyString
   else " Non-2xx or 3xx responses: " ++ show_int (non_2xx_count p) ++ ";" ++ nl) ++
  " Requests/sec: " ++ show (requests_per_sec p) ++ ";" ++ nl ++
  " Transfer/sec: " ++ show (transfer_megabytes_per_sec p) ++ "MB;" ++ nl ++
  " STARTTIME " ++ show_time (starttime r) ++ ";" ++ nl ++
  " ENDTIME " ++ show_time (endtime r) ++ ";" ++ nl.

(** The magnitudes the renderer writes with [show]. *)
Definition magnitudes (r : RawSummary) : list float :=
  let l := latency r in
  let p := rps r in
  [thread_mean l; thread_stdev l; thread_max l; thread_stdev_range l;
   thread_rps_mean p; thread_rps_stdev p; thread_rps_max p; thread_rps_stdev_range p;
   lat50 l; lat75 l; lat90 l; lat99 l;
   match unit with
   | Seconds => over_seconds p
   | Milliseconds => (over_seconds p * 1e3)%float
   end;
   megabytes_read p; requests_per_sec p; transfer_megabytes_per_sec p].

(** [x] is renderable as a decimal token: what [show] writes for it is a
    token of the grammar that reads back as [x]. *)
Definition prints (x : float) : Prop :=
  decimal_token (show x) = true /\ py_float (show x) = Ok x.

(** [x] is a non-negative integer timestamp: [show_time] writes it in
    digits that read back as [x]. *)
Definition prints_time (x : float) : Prop :=
  integer_token (show_time x) = true /\ py_float (show_time x) = Ok x.

(** The value domain of the grammar. *)
Definition in_value_domain (r : RawSummary) : Prop :=
  0 <= threads r /\ 0 <= connections r /\
  0 <= request_count (rps r) /\ 0 <= non_2xx_count (rps r) /\
  Forall prints (magnitudes r) /\
  prints_time (starttime r) /\ prints_time (endtime r).
End Render.

(** A printer: [x] with [d] digits after the point (["%.df"]), the exact
    value of [x] rounded half to even; for a finite [x >= 0]. *)
Definition show_fixed (d : nat) (x : float) : string :=
  match Prim2SF x with
  | S754_zero _ | S754_finite false _ _ =>
      let '(num, den) :=
        match Prim2SF x with
        | S754_finite _ m e =>
            if 0 <=? e then (Zpos m * 2 ^ e * 10 ^ Z.of_nat d, 1)
            else (Zpos m * 10 ^ Z.of_nat d, 2 ^ (- e))
        | _ => (0, 1)
        end in
      let q := num / den in
      let r := num mod den in
      let n := if (den <? 2 * r) || ((den =? 2 * r) && Z.odd q) then q + 1 else q in
      let ip := show_int (n / 10 ^ Z.of_nat d) in
      let fp := show_int (n mod 10 ^ Z.of_nat d) in
      match d with
      | O => ip
      | _ => ip ++ "." ++ string_of_list_ascii (repeat "0"%char (d - String.length fp)) ++ fp
      end
  | S754_infinity false => "inf"
  | S754_nan => "nan"
  | _ => "-"
  end.

(** The head of [s], if any, is not a character of [p]: a run of [p] stops
    in front of [s]. *)
Definition stops (p : ascii -> bool) (s : string) : bool :=
  match s with
  | String c _ => negb (p c)
  | EmptyString => true
  end.

(** The head of [s] can continue neither the digits nor the fraction of a
    decimal token. *)
Definition stops_decimal (s : string) : bool :=
  stops is_digit s && stops (fun c => Ascii.eqb c ".") s.

(** A token of [Word(alphas)]: letters, at least one. *)
Definition alpha_token (s : string) : bool := nonempty s && all_chars is_alpha s.

(** The run of the specification's end-to-end example, and a run whose
    measured duration is the 15.03 s a log reports. *)
Definition example_run (seconds : float) : RawSummary := {|
  threads := 8;
  connections := 64;
  rps := {|
    requests_per_sec := 500;
    transfer_megabytes_per_sec := 1.23;
    request_count := 7500;
    megabytes_read := 18.45;
    over_seconds := seconds;
    non_2xx_count := 0;
    thread_rps_mean := 62.5;
    thread_rps_max := 70;
    thread_rps_stdev := 1.5;
    thread_rps_stdev_range := 70 |};
  latency := {|
    lat50 := 1;
    lat75 := 1.5;
    lat90 := 2;
    lat99 := 10;
    thread_mean := 1.23;
    thread_max := 50;
    thread_stdev := 2.34;
    thread_stdev_range := 90.12 |};
  starttime := 1000;
  endtime := 1010 |}.

(** A section, as the splitter accumulates it, whose run ends before it
    starts. *)
Definition backwards_section : string :=
" 8 threads and 64 connections;
 Thread Stats   Avg      Stdev     Max   +/- Stdev;
 Latency 1.23ms 2.34ms 50.00ms 90.12%;
 Req/Sec 62.50 1.50 70.00 70.00%;
 Latency Distribution;
 50% 1.00ms;
 75% 1.50ms;
 90% 2.00ms;
 99% 10.00ms;
 7500 requests in 15.00s, 18.45MB read;
 Requests/sec: 500.00;
 Transfer/sec: 1.23MB;
 STARTTIME 1010;
 ENDTIME 1000;
".

(** A character other than the tab. *)
Definition no_tab (c : ascii) : bool := negb (code c =? 9).

(** A log of two sections, the second of which reports socket errors. *)
Definition two_sections_then_errors : string :=
"----
 Running Primer
----
 8 threads and 8 connections
----
 Running Warmup
----
 8 threads and 64 connections
 Socket errors: connect 0, read 3, write 0, timeout 0
 12 requests in 15.00s, 1.00MB read
".

(** ** The order of binary64 numbers *)

(** A number that is not NaN, placed on a line of integer triples ordered
    lexicographically: the sign class, then the exponent, then the
    mantissa (both negated below zero). *)
Definition sf_key (x : spec_float) : Z * Z * Z :=
  match x with
  | S754_nan => (0, 0, 0)
  | S754_zero _ => (0, 0, 0)
  | S754_infinity true => (-2, 0, 0)
  | S754_infinity false => (2, 0, 0)
  | S754_finite true m e => (-1, - e, - Zpos m)
  | S754_finite false m e => (1, e, Zpos m)
  end.

Definition key_lt (a b : Z * Z * Z) : Prop :=
  let '(a1, a2, a3) := a in
  let '(b1, b2, b3) := b in
  a1 < b1 \/ (a1 = b1 /\ (a2 < b2 \/ (a2 = b2 /\ a3 < b3))).

Definition sf_nan (x : spec_float) : bool :=
  match x with S754_nan => true | _ => false end.

Definition is_number (x : float) : Prop := (x =? x)%float = true.


(** The key of the selection. *)
Definition rps_of (r : RawSummary) : float := requests_per_sec (rps r).


(** The example run with given start and end times. *)
Definition run_between (start end_ : float) : RawSummary :=
  let r := example_run 15 in
  {| threads := threads r; connections := connections r; rps := rps r;
     latency := latency r; starttime := start; endtime := end_ |}.

(** Samples every second from 1000 to 1011, the memory reading going
    through 40, 45 and 50. *)
Definition example_frame : DataFrame :=
  [ {| epoch := 1000; memory_used := 40; cpu_usr := 3 |};
    {| epoch := 1001; memory_used := 40; cpu_usr := 5 |};
    {| epoch := 1002; memory_used := 45; cpu_usr := 6 |};
    {| epoch := 1003; memory_used := 50; cpu_usr := 7 |};
    {| epoch := 1004; memory_used := 40; cpu_usr := 5 |};
    {| epoch := 1005; memory_used := 45; cpu_usr := 6 |};
    {| epoch := 1006; memory_used := 50; cpu_usr := 7 |};
    {| epoch := 1007; memory_used := 45; cpu_usr := 6 |};
    {| epoch := 1008; memory_used := 40; cpu_usr := 5 |};
    {| epoch := 1009; memory_used := 45; cpu_usr := 6 |};
    {| epoch := 1010; memory_used := 50; cpu_usr := 7 |};
    {| epoch := 1011; memory_used := 90; cpu_usr := 9 |} ].


(** ** Vocabulary for the statistics *)

(** [c] is neither infinite nor NaN. *)
Definition is_finite (c : float) : bool :=
  match Prim2SF c with
  | S754_zero _ | S754_finite _ _ _ => true
  | _ => false
  end.

(** The binary64 number of a positive integer [p] below [2^53]: its bits,
    shifted to a mantissa of 53. *)
Definition exact_sf (p : positive) : spec_float :=
  let d := Zpos (digits2_pos p) in
  S754_finite false (Pos.shiftl_nat p (Z.to_nat (53 - d))) (d - 53).

(** The sum of a list of integers. *)
Fixpoint zsum (zs : list Z) : Z :=
  match zs with
  | [] => 0
  | z :: rest => z + zsum rest
  end.

(** The eight accumulators of the summation, on integers. *)
Fixpoint add_eachZ (r block : list Z) : list Z :=
  match r, block with
  | x :: r', y :: block' => (x + y) :: add_eachZ r' block'
  | _, _ => r
  end.

(** A frame of [n] samples, one a second from [t0], with the same memory
    and cpu reading [c]. *)
Fixpoint constant_frame (c t0 : float) (n : nat) : DataFrame :=
  match n with
  | O => []
  | S n' => {| epoch := t0; memory_used := c; cpu_usr := c |}
            :: constant_frame c (t0 + 1)%float n'
  end.


(** The summaries of an empty window, and the zero-valued summary. *)
Definition nan_memory : MemorySummary :=
  {| mem_mean := nan; mem_median := nan; mem_max := nan;
     mem_stdev := nan; mem_stdev_range := nan |}.

Definition nan_cpu : CpuSummary :=
  {| cpu_mean := nan; cpu_median := nan; cpu_max := nan;
     cpu_stdev := nan; cpu_stdev_range := nan |}.

Definition zero_memory : MemorySummary :=
  {| mem_mean := 0; mem_median := 0; mem_max := 0;
     mem_stdev := 0; mem_stdev_range := 0 |}.


(** ** An example batch *)

(** A batch of one test type with two frameworks: the raw log of the first
    has a timed section the grammar rejects, the second is sound. *)
Definition good_log : string :=
"---------------------------------------------------------
 Running Primer json
 wrk -H 'Host: tfb-server' -d 5 -c 8 --timeout 8 -t 8 http://tfb-server:8080/json
---------------------------------------------------------
Running 5s test @ http://tfb-server:8080/json
  8 threads and 8 connections
  Thread Stats   Avg      Stdev     Max   +/- Stdev
    Latency   131.70us  195.37us   6.78ms   97.21%
    Req/Sec     8.65k     1.22k   10.84k    75.74%
  Latency Distribution
     50%  100.00us
     75%  137.00us
     90%  189.00us
     99%  801.00us
  351175 requests in 5.10s, 41.86MB read
Requests/sec:  68861.60
Transfer/sec:      8.21MB
---------------------------------------------------------
 Concurrency: 64 for json
 wrk -H 'Host: tfb-server' -d 15 -c 64 --timeout 8 -t 8 http://tfb-server:8080/json
---------------------------------------------------------
Running 15s test @ http://tfb-server:8080/json
  8 threads and 64 connections
  Thread Stats   Avg      Stdev     Max   +/- Stdev
    Latency     1.23ms    2.34ms  50.00ms   90.12%
    Req/Sec    62.50      1.50    70.00     70.00%
  Latency Distribution
     50%    1.00ms
     75%    1.50ms
     90%    2.00ms
     99%   10.00ms
  7500 requests in 15.00s, 18.45MB read
Requests/sec:    500.00
Transfer/sec:      1.23MB
STARTTIME 1000
ENDTIME 1010
".

Definition bad_log : string :=
"---------------------------------------------------------
 Concurrency: 64 for json
---------------------------------------------------------
Running 15s test @ http://tfb-server:8080/json
  8 threads and 64 connections
  Thread Stats   Avg      Stdev     Max   +/- Stdev
    Latency     1.23ms    2.34ms  50.00ms
STARTTIME 1000
ENDTIME 1010
".

(** The raw logs of the two frameworks, as files. *)
Definition example_files (path : string) : option string :=
  if String.eqb path "bad/json/raw.txt" then Some bad_log
  else if String.eqb path "good/json/raw.txt" then Some good_log
  else None.

Definition example_disk : Disk := {|
  read := fun path =>
    if String.eqb path "bad/json/raw.txt" then bad_log
    else if String.eqb path "good/json/raw.txt" then good_log
    else "   PASS for http://tfb-server:8080/json
";
  get_stats := fun _ => Ok example_frame
|}.

Definition files_of (framework : string) : string * TestFiles :=
  (framework,
   {| verification := framework ++ "/json/verification.txt";
      stats := framework ++ "/json/stats.txt";
      raw := framework ++ "/json/raw.txt" |}).

(** ** Vocabulary for the sections of a log *)

(** The keys of a dict, in insertion order. *)
Definition keys (d : dict) : list Z := map fst d.

(** What the splitter adds to the accumulator for a stripped line. *)
Definition accumulated (line : string) : string :=
  " " ++ line ++ ";" ++ String "010" EmptyString.

(** The strings of a list, one after the other. *)
Definition join (ls : list string) : string := fold_right append "" ls.

(** The text of all entries, in insertion order. *)
Definition all_text (d : dict) : string := join (map snd d).

(** The sections of [d] that the second loop parses. *)
Definition timed (d : dict) : list (Z * string) :=
  filter (fun kv => contains (snd kv) "STARTTIME") d.

(** The state of the splitter after [n] sections were opened: the dict holds
    the keys 1 to [n], and [n] is the current section. *)
Definition opened (n : nat) (st : splitter) : Prop :=
  section st = Z.of_nat n /\ keys (text_sections st) = map Z.of_nat (seq 1 n).

(** The delimiter lines that open a section: every other one. *)
Fixpoint openings (inheader : bool) (lines : list string) : nat :=
  match lines with
  | [] => 0
  | l :: rest =>
      if is_delimiter l
      then (if inheader then 0 else 1) + openings (negb inheader) rest
      else openings inheader rest
  end.

(** ** Vocabulary for the numbers and tokens of a section *)

(** A binary64 number with the sign bit clear that is not NaN: [+0], a
    positive finite number or [+inf]. *)
Definition sf_nonneg (x : spec_float) : bool :=
  match x with
  | S754_zero false | S754_infinity false | S754_finite false _ _ => true
  | _ => false
  end.

Definition nonneg (x : float) : Prop := sf_nonneg (Prim2SF x) = true.

(** The tokens an element of the grammar can give. *)
Inductive produces : ParserElement -> list tok -> Prop :=
| produces_Literal (lit : string) : produces (Literal lit) [Str lit]
| produces_Word (chars : ascii -> bool) (w : string) :
    nonempty w = true -> all_chars chars w = true -> produces (Word chars) [Str w]
| produces_And (a b : ParserElement) (ta tb : list tok) :
    produces a ta -> produces b tb -> produces (And a b) (ta ++ tb)
| produces_Optional_none (a : ParserElement) : produces (Optional a) []
| produces_Optional_some (a : ParserElement) (ta : list tok) :
    produces a ta -> produces (Optional a) ta
| produces_Group (a : ParserElement) (ta : list tok) :
    produces a ta -> produces (Group a) [Grp ta]
| produces_Combine (a : ParserElement) (ta : list tok) :
    produces a ta -> produces (Combine a) [Str (joined ta)].

(** The tokens of a [FloatUnit] and of a [Percent]. *)
Definition is_float_unit (t : tok) : bool :=
  match t with
  | Grp [Str num] => decimal_token num
  | Grp [Str num; Str u] => decimal_token num && alpha_token u
  | _ => false
  end.

Definition is_percent (t : tok) : bool :=
  match t with
  | Grp [Str num; Str u] => decimal_token num && String.eqb u "%"
  | _ => false
  end.

(** The numbers and the counts of a summary. *)
Definition numbers (r : RawSummary) : list float :=
  let l := latency r in
  let p := rps r in
  [requests_per_sec p; transfer_megabytes_per_sec p; megabytes_read p; over_seconds p;
   thread_rps_mean p; thread_rps_max p; thread_rps_stdev p; thread_rps_stdev_range p;
   lat50 l; lat75 l; lat90 l; lat99 l;
   thread_mean l; thread_max l; thread_stdev l; thread_stdev_range l;
   starttime r; endtime r].

Definition counts (r : RawSummary) : list Z :=
  [threads r; connections r; request_count (rps r); non_2xx_count (rps r)].


(** What [parse_section] gives on any text. *)
Definition section_outcome (o : result RawSummary) : Prop :=
  match o with
  | Ok r => Forall (fun n => 0 <= n) (counts r) /\ Forall nonneg (numbers r)
  | Raise e =>
      e = ParseException \/
      exists u, alpha_token u = true /\ e = ValueError ("Unknown unit: " ++ u)
  end.

(** ** Vocabulary for the batch *)

(** The frameworks a batch reports: those that pass verification and whose
    raw log does not give the sentinel. *)
Definition reported (disk : Disk) (row : string * TestFiles) : bool :=
  get_verification disk (verification (snd row)) &&
  match get_rps_and_latency (raw (snd row)) (read disk (raw (snd row))) with
  | Ok None => false
  | _ => true
  end.

(** ** Vocabulary for the stats header *)

(** The two header lines of a stats file: its fifth and sixth line, empty
    when the file ends before. *)
Definition header_line (text : string) (i : nat) : string :=
  nth i (skipn 4 (readlines text)) EmptyString.

(** The first labels of the columns, the way the loop fills them in: a cell
    that is empty takes the label to its left. *)
Fixpoint fill_forward (last : string) (cells : list string) : list string :=
  match cells with
  | [] => []
  | h :: rest =>
      let l := match h with EmptyString => last | _ => h end in
      l :: fill_forward l rest
  end.

Definition pairs (h1 h2 : list string) : list StatsHeader.column :=
  map (fun c => StatsHeader.Pair (fst c) (snd c)) (combine h1 h2).

(** ** Vocabulary for the verification file *)

(** A character that ends a line. *)
Definition is_break (c : ascii) : bool := (code c =? 10) || (code c =? 13).

(** A line starts after [before]: it is empty or ends with a line break. *)
Fixpoint at_line_start (before : string) : bool :=
  match before with
  | EmptyString => true
  | String c rest =>
      match rest with
      | EmptyString => is_break c
      | String _ _ => at_line_start rest
      end
  end.

Definition no_break (c : ascii) : bool := negb (is_break c).

(** ** Examples for the further properties *)

(** A timed section whose duration is given in minutes. *)
Definition minutes_section : string :=
" 8 threads and 64 connections;
 Thread Stats   Avg      Stdev     Max   +/- Stdev;
 Latency 1.23ms 2.34ms 50.00ms 90.12%;
 Req/Sec 62.50 1.50 70.00 70.00%;
 Latency Distribution;
 50% 1.00ms;
 75% 1.50ms;
 90% 2.00ms;
 99% 10.00ms;
 450000 requests in 1.00m, 18.45MB read;
 Requests/sec: 7500.00;
 Transfer/sec: 1.23MB;
 STARTTIME 1000;
 ENDTIME 1060;
".

(** A log with a line of content in front of its first delimiter. *)
Definition headless_log : string :=
"Running 5s test
  8 threads and 8 connections
----
".

(** A log with one section, which has no timestamps. *)
Definition warmup_log : string :=
"----
 Running Primer json
----
  8 threads and 8 connections
  351175 requests in 5.10s, 41.86MB read
".

Definition warmup_disk : Disk := {|
  read := fun path =>
    if String.eqb path "warmup/json/raw.txt" then warmup_log
    else "   PASS for http://tfb-server:8080/json
";
  get_stats := fun _ => Ok example_frame
|}.

(** The sections of the two logs. *)
Definition good_sections : dict := Eval vm_compute in
    match split_sections good_log with
    | Ok (Some d) => d
    | _ => []
    end.

Definition warmup_sections : dict := Eval vm_compute in
    match split_sections warmup_log with
    | Ok (Some d) => d
    | _ => []
    end.

(** The summary of the framework of the example batch whose log is
    sound: its only timed run is the run of the specification's example,
    and the window holds the samples from 1001 to 1010. *)
Definition good_summary : FrameworkSummary := {|
  name := "good";
  fw_threads := threads (example_run 15);
  fw_connections := connections (example_run 15);
  fw_rps := rps (example_run 15);
  fw_latency := latency (example_run 15);
  memory := get_memory_usage (loc example_frame 1001 1010);
  cpu := get_cpu_usage (loc example_frame 1001 1010)
|}.

(** The head of a dstat CSV file, without the quotes around its cells, and
    one row. *)
Definition dstat_header : string :=
"Dstat 0.7.3 CSV output
Author:,Dag Wieers <dag@wieers.com>,,,,URL:,http://dag.wieers.com/home-made/dstat/
Host:,tfb-server,,,,User:,root
Cmdline:,dstat -Tcm --output stats.txt,,,,Date:,28 Oct 2019 11:22:33 UTC
epoch,total cpu usage,,,,,memory usage,,,
epoch,usr,sys,idl,wai,stl,used,free,buff,cach
1572261753.0,3,1,96,0,0,40.0,1000.0,10.0,100.0
".

(** * Properties *)

(** ** UnitNormalizer *)

Lemma eqb_false_of_neq (a b : string) : a <> b -> String.eqb a b = false.
Proof. intros H. now apply String.eqb_neq. Qed.

(** C2. The contract of [no_units] on every list of strings: a list of no or
    of more than two strings fails with [InvalidArity]; when the first string
    denotes the number [x], a list of that string alone yields [x], and
    followed by a suffix it yields [x] for [%], [ms], [MB], [x * 1e3] for
    [k], [s], [GB], [x * 1e-3] for [KB], [us], [x * 1e-6] for [B], and fails
    with [UnrecognizedUnit] for any other suffix; with the four values the
    specification lists. *)
Theorem no_units_contract (nums : list string) :
  ((List.length nums = 0 \/ 2 < List.length nums)%nat ->
     exists e, no_units nums = Raise e /\ InvalidArity e) /\
  (forall s x, hd_error nums = Some s -> py_float s = Ok x ->
     (nums = [s] -> no_units nums = Ok x) /\
     (forall u, nums = [s; u] ->
        (In u ["%"; "ms"; "MB"] -> no_units nums = Ok x) /\
        (In u ["k"; "s"; "GB"] -> no_units nums = Ok (x * 1e3)%float) /\
        (In u ["KB"; "us"] -> no_units nums = Ok (x * 1e-3)%float) /\
        (u = "B" -> no_units nums = Ok (x * 1e-6)%float) /\
        (~ In u ["%"; "k"; "GB"; "MB"; "KB"; "B"; "s"; "ms"; "us"] ->
           no_units nums = Raise (UnrecognizedUnit u)))) /\
  no_units ["12.34"; "ms"] = Ok 12.34%float /\
  no_units ["12.34"; "s"] = Ok 12340%float /\
  no_units ["5"; "k"] = Ok 5000%float /\
  no_units ["5"] = Ok 5%float.
Proof.
  split; [| split].
  - intros [H | H].
    + destruct nums; [| discriminate].
      eexists; split; [reflexivity | now left].
    + destruct nums as [| a [| b [| c l]]]; cbn in H; try lia.
      eexists; split; [reflexivity | now right].
  - intros s x _ Hx; split.
    + intros ->. unfold no_units; cbn. now rewrite Hx.
    + intros u ->. unfold no_units; cbn. rewrite Hx; cbn.
      repeat split.
      * intros [<- | [<- | [<- | []]]]; reflexivity.
      * intros [<- | [<- | [<- | []]]]; reflexivity.
      * intros [<- | [<- | []]]; reflexivity.
      * intros ->; reflexivity.
      * intros Hu. cbn in Hu.
        repeat match goal with
        | |- context [String.eqb u ?k] =>
            rewrite (eqb_false_of_neq u k) by (intros ->; apply Hu; tauto)
        end.
        reflexivity.
  - repeat split; vm_compute; reflexivity.
Qed.

Lemma no_units_contract_witness :
  no_units ["12.34"; "s"] = Ok (12.34 * 1e3)%float.
Proof.
  apply (no_units_contract ["12.34"; "s"]) with (s := "12.34") (u := "s").
  - reflexivity.
  - vm_compute; reflexivity.
  - reflexivity.
  - cbn; tauto.
Defined.

(** ** SectionSplitter *)

Lemma dict_get_set_same (d : dict) (k : Z) (v : string) :
  dict_get (dict_set d k v) k = Ok v.
Proof.
  induction d as [| [k' v'] d IH]; cbn.
  - now rewrite Z.eqb_refl.
  - destruct (k' =? k) eqn:E; cbn; rewrite E; auto.
Qed.

Lemma has_key_set (d : dict) (k : Z) (v : string) : has_key (dict_set d k v) k.
Proof. exists v. apply dict_get_set_same. Qed.

(** What one turn of the loop does, case by case. *)
Lemma split_line_delimiter (st : splitter) (l : string) :
  is_delimiter l = true ->
  split_line st l =
    Ok (Some (if inheader st
              then {| section := section st; inheader := false;
                      text_sections := text_sections st |}
              else {| section := section st + 1; inheader := true;
                      text_sections :=
                        dict_set (text_sections st) (section st + 1) "" |})).
Proof.
  unfold is_delimiter, split_line. intros ->. now destruct (inheader st).
Qed.

Lemma split_line_skipped (st : splitter) (l : string) :
  is_delimiter l = false ->
  inheader st || startswith (strip l) "Running" = true ->
  split_line st l = Ok (Some st).
Proof. unfold is_delimiter, split_line. now intros -> ->. Qed.

Lemma split_line_abort (st : splitter) (l : string) :
  is_delimiter l = false ->
  inheader st || startswith (strip l) "Running" = false ->
  abort_marker (strip l) = true ->
  split_line st l = Ok None.
Proof. unfold is_delimiter, split_line. now intros -> -> ->. Qed.

Lemma split_line_append (st : splitter) (l : string) :
  is_delimiter l = false ->
  inheader st || startswith (strip l) "Running" = false ->
  abort_marker (strip l) = false ->
  split_line st l =
    (old <- dict_get (text_sections st) (section st) ;;
     Ok (Some {| section := section st; inheader := inheader st;
                 text_sections :=
                   dict_set (text_sections st) (section st)
                     (old ++ " " ++ strip l ++ ";" ++ String "010" EmptyString) |})).
Proof. unfold is_delimiter, split_line. now intros -> -> ->. Qed.

(** Once the current section has its accumulator, an abort marker among the
    body lines ends the scan with [None]. *)
Lemma split_lines_abort_keyed (lines : list string) :
  forall st,
    has_key (text_sections st) (section st) ->
    existsb abort_marker (body_lines (inheader st) lines) = true ->
    split_lines st lines = Ok None.
Proof.
  induction lines as [| l rest IH]; intros st Hkey Hex; [discriminate |].
  cbn [split_lines body_lines] in *.
  destruct (is_delimiter l) eqn:Hd.
  - rewrite (split_line_delimiter _ _ Hd); cbn [bind].
    destruct (inheader st); cbn [negb] in Hex; apply IH; cbn; auto.
    apply has_key_set.
  - destruct (inheader st || startswith (strip l) "Running") eqn:Hs.
    + rewrite (split_line_skipped _ _ Hd Hs); cbn [bind]. now apply IH.
    + cbn [existsb] in Hex.
      destruct (abort_marker (strip l)) eqn:Ha.
      * now rewrite (split_line_abort _ _ Hd Hs Ha).
      * rewrite (split_line_append _ _ Hd Hs Ha).
        destruct Hkey as [old Hold]; rewrite Hold; cbn [bind].
        apply IH; cbn; auto. apply has_key_set.
Qed.

(** In front of the first delimiter no section has its accumulator: the
    scan gets past the lines there only when the first of them that is
    neither skipped nor a delimiter is itself an abort marker. *)
Lemma split_lines_abort_start (lines : list string) :
  (forall l, hd_error (body_lines false (preamble lines)) = Some l ->
             abort_marker l = true) ->
  existsb abort_marker (body_lines false lines) = true ->
  split_lines splitter0 lines = Ok None.
Proof.
  induction lines as [| l rest IH]; intros Hpre Hex; [discriminate |].
  cbn [split_lines body_lines preamble] in *.
  destruct (is_delimiter l) eqn:Hd.
  - rewrite (split_line_delimiter _ _ Hd); cbn.
    apply split_lines_abort_keyed; cbn; auto.
    exists ""; cbn. reflexivity.
  - cbn [body_lines] in Hpre. rewrite Hd in Hpre.
    change (inheader splitter0) with false in *.
    destruct (false || startswith (strip l) "Running") eqn:Hs.
    + rewrite (split_line_skipped _ _ Hd); auto.
    + apply (split_line_abort splitter0) in Hd as ->; [reflexivity | exact Hs |].
      now apply Hpre.
Qed.

(** C3, as the code has it.  Call content line a line outside the headers
    that, stripped, starts neither with dashes nor with [Running].  When
    some content line matches an abort marker (it begins with "unable to
    connect to", "0 requests" or "Socket errors", or ends with "nan%"), and
    the first content line in front of the first delimiter, if there is
    one, is itself an abort marker, splitting returns the invalid-file
    sentinel, and so does [get_rps_and_latency]: no section is returned,
    however many were collected before the line. *)
Theorem abort_marker_invalidates_file (filename text : string) :
  (forall l, hd_error (body_lines false (preamble (readlines text))) = Some l ->
             abort_marker l = true) ->
  (exists l, In l (body_lines false (readlines text)) /\ abort_marker l = true) ->
  split_sections text = Ok None /\ get_rps_and_latency filename text = Ok None.
Proof.
  intros Hpre [l [Hin Hl]].
  assert (Hs : split_sections text = Ok None).
  { apply split_lines_abort_start; auto.
    apply existsb_exists. now exists l. }
  split; auto. unfold get_rps_and_latency. now rewrite Hs.
Qed.

Lemma abort_marker_invalidates_file_witness :
  split_sections "0 requests in 15.00s, 0.00B read
  8 threads and 8 connections
----
" = Ok None /\
  get_rps_and_latency "raw.txt" "0 requests in 15.00s, 0.00B read
  8 threads and 8 connections
----
" = Ok None.
Proof.
  apply abort_marker_invalidates_file.
  - intros l H. vm_compute in H. injection H as <-. reflexivity.
  - exists "0 requests in 15.00s, 0.00B read".
    split; [vm_compute; tauto | reflexivity].
Defined.

(** C3 as the specification states it fails: a line that begins with
    "Socket errors" inside a header is discarded with the header, and the
    log yields its sections. *)
Lemma abort_marker_in_header_ignored :
  ~ (forall text : string,
       (exists l, In l (readlines text) /\ abort_marker (strip l) = true) ->
       split_sections text = Ok None).
Proof.
  intros H.
  specialize (H "----
Socket errors: connect 1
----
 8 threads and 8 connections
").
  assert (Hex : exists l,
             In l (readlines "----
Socket errors: connect 1
----
 8 threads and 8 connections
") /\ abort_marker (strip l) = true).
  { exists "Socket errors: connect 1
". split; [vm_compute; tauto | reflexivity]. }
  specialize (H Hex). vm_compute in H. discriminate H.
Qed.

(** C10, as the code has it.  A line in front of the first delimiter that,
    stripped, starts neither with dashes nor with [Running] and matches no
    abort marker finds no accumulator: when no line before it matches an
    abort marker, splitting raises [KeyError] for section 0, and
    [get_rps_and_latency] with it. *)
Theorem content_before_delimiter_raises
    (filename text : string) (pre : list string) (l : string) (post : list string) :
  readlines text = (pre ++ l :: post)%list ->
  (forall p, In p pre -> is_delimiter p = false) ->
  (forall p, In p pre -> abort_marker (strip p) = false) ->
  is_delimiter l = false ->
  strip l <> "" ->
  startswith (strip l) "Running" = false ->
  abort_marker (strip l) = false ->
  split_sections text = Raise (KeyError 0) /\
  get_rps_and_latency filename text = Raise (KeyError 0).
Proof.
  intros Hlines Hdash Habort Hd _ Hrun Ha.
  assert (Hs : split_sections text = Raise (KeyError 0)).
  { unfold split_sections. rewrite Hlines. clear Hlines.
    induction pre as [| p pre IH]; cbn [app split_lines].
    - rewrite (split_line_append _ _ Hd); cbn; auto.
    - assert (Hp : is_delimiter p = false) by (apply Hdash; now left).
      destruct (startswith (strip p) "Running") eqn:Hr.
      + rewrite (split_line_skipped _ _ Hp); cbn; auto.
        apply IH; intros; [apply Hdash | apply Habort]; now right.
      + rewrite (split_line_append _ _ Hp); cbn; auto.
        apply Habort; now left. }
  split; auto. unfold get_rps_and_latency. now rewrite Hs.
Qed.

Lemma content_before_delimiter_raises_witness :
  split_sections "Running 5s test
  8 threads and 8 connections
----
" = Raise (KeyError 0) /\
  get_rps_and_latency "raw.txt" "Running 5s test
  8 threads and 8 connections
----
" = Raise (KeyError 0).
Proof.
  apply content_before_delimiter_raises
    with (pre := ["Running 5s test
"]) (l := "  8 threads and 8 connections
") (post := ["----
"]).
  - reflexivity.
  - intros p [<- | []]; reflexivity.
  - intros p [<- | []]; reflexivity.
  - reflexivity.
  - discriminate.
  - reflexivity.
  - reflexivity.
Defined.

(** C10 as stated fails: an abort marker in front of the line ends the scan
    with the sentinel before the line is reached. *)
Lemma abort_before_content_returns_sentinel :
  ~ (forall (text : string) (pre : list string) (l : string) (post : list string),
       readlines text = (pre ++ l :: post)%list ->
       (forall p, In p pre -> is_delimiter p = false) ->
       is_delimiter l = false ->
       strip l <> "" ->
       startswith (strip l) "Running" = false ->
       abort_marker (strip l) = false ->
       split_sections text = Raise (KeyError 0)).
Proof.
  intros H.
  specialize (H "0 requests in 15.00s, 0.00B read
  8 threads and 8 connections
----
" ["0 requests in 15.00s, 0.00B read
"] "  8 threads and 8 connections
" ["----
"]).
  assert (Hr : split_sections "0 requests in 15.00s, 0.00B read
  8 threads and 8 connections
----
" = Ok None) by reflexivity.
  rewrite Hr in H.
  assert (Hf : @Ok (option dict) None = Raise (KeyError 0)).
  { apply H; try reflexivity.
    - intros p [<- | []]; reflexivity.
    - discriminate. }
  discriminate Hf.
Qed.

(** ** Strings and tokens *)

Lemma append_assoc (a b c : string) : (a ++ b) ++ c = a ++ b ++ c.
Proof. induction a as [| x a IH]; cbn; [reflexivity | now rewrite IH]. Qed.

Lemma append_nil_r (a : string) : a ++ "" = a.
Proof. induction a as [| x a IH]; cbn; [reflexivity | now rewrite IH]. Qed.

Lemma digit_classes (c : ascii) :
  is_digit c = true ->
  is_white c = false /\ is_alpha c = false /\ py_isspace c = false /\
  Ascii.eqb c "." = false /\ Ascii.eqb c "-" = false /\ Ascii.eqb c "+" = false /\
  Ascii.eqb c "_" = false /\ (code c =? 9) = false.
Proof.
  destruct c as [[] [] [] [] [] [] [] []]; vm_compute; intros H;
    first [discriminate H | repeat split].
Qed.

Lemma alpha_classes (c : ascii) :
  is_alpha c = true ->
  is_white c = false /\ is_digit c = false /\ Ascii.eqb c "." = false.
Proof.
  destruct c as [[] [] [] [] [] [] [] []]; vm_compute; intros H;
    first [discriminate H | repeat split].
Qed.

Lemma drop_prefix_app (lit rest : string) : drop_prefix lit (lit ++ rest) = Some rest.
Proof.
  induction lit as [| c lit IH]; cbn; [reflexivity |].
  now rewrite Ascii.eqb_refl.
Qed.

Lemma span_app_stops (p : ascii -> bool) (w rest : string) :
  all_chars p w = true -> stops p rest = true -> span p (w ++ rest) = (w, rest).
Proof.
  intros Hw Hr. induction w as [| c w IH]; cbn in *.
  - destruct rest as [| c r]; cbn in *; [reflexivity |].
    now destruct (p c).
  - apply andb_true_iff in Hw as [Hc Hw]. now rewrite Hc, IH.
Qed.

Lemma span_spec (p : ascii -> bool) (s : string) :
  forall w r, span p s = (w, r) ->
    s = w ++ r /\ all_chars p w = true /\ stops p r = true.
Proof.
  induction s as [| c s IH]; cbn; intros w r H.
  - now inversion H.
  - destruct (p c) eqn:Hc.
    + destruct (span p s) as [w' r'] eqn:Hs. inversion H; subst.
      destruct (IH _ _ eq_refl) as (-> & Hw & Hr). cbn. now rewrite Hc.
    + inversion H; subst. cbn. now rewrite Hc.
Qed.

Lemma skip_white_cons (c : ascii) (s : string) :
  is_white c = true -> skip_white (String c s) = skip_white s.
Proof. cbn. now intros ->. Qed.

Lemma skip_white_stop (c : ascii) (s : string) :
  is_white c = false -> skip_white (String c s) = String c s.
Proof. cbn. now intros ->. Qed.

Lemma skip_white_idem (s : string) : skip_white (skip_white s) = skip_white s.
Proof.
  induction s as [| c s IH]; cbn; [reflexivity |].
  destruct (is_white c) eqn:E; [exact IH | cbn; now rewrite E].
Qed.

Lemma integer_token_inv (d : string) :
  integer_token d = true ->
  exists c d', d = String c d' /\ is_digit c = true /\ all_chars is_digit d = true.
Proof.
  unfold integer_token. destruct d as [| c d']; cbn; [discriminate |].
  intros H. exists c, d'. apply andb_true_iff in H as [Hc Hd].
  now rewrite Hc, Hd.
Qed.

Lemma decimal_token_inv (tok : string) :
  decimal_token tok = true ->
  exists ip, integer_token ip = true /\
    (tok = ip \/ exists fp, integer_token fp = true /\ tok = ip ++ "." ++ fp).
Proof.
  unfold decimal_token. destruct (span is_digit tok) as [ip r] eqn:Hs.
  destruct (span_spec _ _ _ _ Hs) as (-> & Hip & _).
  intros H. apply andb_true_iff in H as [Hne H].
  exists ip. split.
  - unfold integer_token. now rewrite Hne, Hip.
  - destruct r as [| c fp].
    + left. apply append_nil_r.
    + right. apply andb_true_iff in H as [Hc Hfp].
      apply Ascii.eqb_eq in Hc as ->. now exists fp.
Qed.

Lemma decimal_token_head (tok : string) :
  decimal_token tok = true ->
  exists c t, tok = String c t /\ is_digit c = true.
Proof.
  intros H. destruct (decimal_token_inv _ H) as (ip & Hip & Htok).
  destruct (integer_token_inv _ Hip) as (c & d' & -> & Hc & _).
  destruct Htok as [-> | (fp & _ & ->)]; cbn; eauto.
Qed.

Lemma skip_white_integer (d rest : string) :
  integer_token d = true -> skip_white (d ++ rest) = d ++ rest.
Proof.
  intros H. destruct (integer_token_inv _ H) as (c & d' & -> & Hc & _).
  cbn [append]. apply skip_white_stop. now apply digit_classes.
Qed.

Lemma skip_white_decimal (tok rest : string) :
  decimal_token tok = true -> skip_white (tok ++ rest) = tok ++ rest.
Proof.
  intros H. destruct (decimal_token_head _ H) as (c & t & -> & Hc).
  cbn [append]. apply skip_white_stop. now apply digit_classes.
Qed.

Lemma stops_decimal_alpha (u rest : string) :
  alpha_token u = true -> stops_decimal (u ++ rest) = true.
Proof.
  unfold alpha_token, stops_decimal. destruct u as [| c u]; cbn; [discriminate |].
  intros H. apply andb_true_iff in H as [Hc _].
  destruct (alpha_classes _ Hc) as (_ & -> & ->). reflexivity.
Qed.

Lemma skip_white_alpha (u rest : string) :
  alpha_token u = true -> skip_white (u ++ rest) = u ++ rest.
Proof.
  unfold alpha_token. destruct u as [| c u]; cbn [nonempty all_chars andb append];
    [discriminate |].
  intros H. apply andb_true_iff in H as [Hc _].
  apply skip_white_stop. now apply alpha_classes.
Qed.

(** ** The grammar's elements on a well-formed text *)

Lemma parse_And (ws : bool) (a b : ParserElement) (s : string) :
  parse ws (a + b) s =
    ('(ta, r1) <- parse ws a s ;;
     '(tb, r2) <- parse ws b r1 ;;
     Ok ((ta ++ tb)%list, r2)).
Proof. reflexivity. Qed.

Lemma parse_Group (ws : bool) (a : ParserElement) (s : string) :
  parse ws (Group a) s = ('(ta, r) <- parse ws a s ;; Ok ([Grp ta], r)).
Proof. reflexivity. Qed.

Lemma parse_Literal_at (lit s rest : string) :
  skip_white s = lit ++ rest ->
  parse true (Literal lit) s = Ok ([Str lit], rest).
Proof. cbn. intros ->. now rewrite drop_prefix_app. Qed.

Lemma parse_Word_here (ws : bool) (p : ascii -> bool) (w s rest : string) :
  preParse ws s = w ++ rest ->
  nonempty w = true -> all_chars p w = true -> stops p rest = true ->
  parse ws (Word p) s = Ok ([Str w], rest).
Proof.
  cbn. intros -> Hne Hw Hr. rewrite span_app_stops by assumption.
  destruct w; [discriminate | reflexivity].
Qed.

Lemma parse_Integer_at (d s rest : string) :
  skip_white s = d ++ rest ->
  integer_token d = true -> stops is_digit rest = true ->
  parse true Integer s = Ok ([Str d], rest).
Proof.
  intros Hs Hd Hr. apply andb_true_iff in Hd as [Hne Hd].
  now apply parse_Word_here.
Qed.

Lemma parse_fraction_absent (rest : string) :
  stops (fun c => Ascii.eqb c ".") rest = true ->
  parse false (Optional (Combine (Literal "." + Word nums))) rest = Ok ([], rest).
Proof.
  destruct rest as [| c r];
    cbn [parse preParse drop_prefix bind stops]; [reflexivity |].
  intros H. apply negb_true_iff in H. rewrite Ascii.eqb_sym in H.
  now rewrite H.
Qed.

Lemma parse_fraction_present (fp rest : string) :
  integer_token fp = true -> stops is_digit rest = true ->
  parse false (Optional (Combine (Literal "." + Word nums))) ("." ++ fp ++ rest)
  = Ok ([Str ("." ++ fp)], rest).
Proof.
  intros Hfp Hr. apply andb_true_iff in Hfp as [Hne Hfp].
  cbn [parse preParse]. rewrite drop_prefix_app; cbn [bind].
  unfold nums. rewrite span_app_stops by assumption.
  destruct fp as [| c fp]; [discriminate | reflexivity].
Qed.

Lemma parse_Floating_at (tok s rest : string) :
  skip_white s = tok ++ rest ->
  decimal_token tok = true -> stops_decimal rest = true ->
  parse true Floating s = Ok ([Str tok], rest).
Proof.
  intros Hs Htok Hr. apply andb_true_iff in Hr as [Hrd Hrp].
  destruct (decimal_token_inv _ Htok) as (ip & Hip & Hcase).
  pose proof Hip as Hip'. apply andb_true_iff in Hip' as [Hne Hall].
  unfold Floating.
  change (parse true (Combine ?a) s)
    with ('(ta, r) <- parse false a (skip_white s) ;; Ok ([Str (joined ta)], r)).
  rewrite Hs, parse_And.
  destruct Hcase as [-> | (fp & Hfp & ->)].
  - rewrite (parse_Word_here false nums ip (ip ++ rest) rest); auto.
    cbn [bind]. rewrite parse_fraction_absent by assumption. reflexivity.
  - replace ((ip ++ "." ++ fp) ++ rest) with (ip ++ "." ++ fp ++ rest)
      by (now rewrite append_assoc).
    rewrite (parse_Word_here false nums ip _ ("." ++ fp ++ rest)); auto.
    cbn [bind]. rewrite parse_fraction_present by assumption.
    reflexivity.
Qed.

Lemma parse_FloatUnit_at (tok u s rest : string) :
  skip_white s = tok ++ u ++ rest ->
  decimal_token tok = true -> alpha_token u = true -> stops is_alpha rest = true ->
  parse true FloatUnit s = Ok ([Grp [Str tok; Str u]], rest).
Proof.
  intros Hs Htok Hu Hr. unfold FloatUnit. rewrite parse_Group, parse_And.
  rewrite (parse_Floating_at tok s (u ++ rest)); auto using stops_decimal_alpha.
  cbn [bind].
  change (parse true (Optional ?a) ?x)
    with (match parse true a (preParse true x) with
          | Ok r => Ok r
          | Raise _ => Ok ([], preParse true x)
          end).
  pose proof Hu as Hu'. apply andb_true_iff in Hu' as [Hne Hall].
  rewrite (parse_Word_here true alphas u _ rest); auto.
  cbn [preParse]. rewrite skip_white_idem. now apply skip_white_alpha.
Qed.

Lemma parse_FloatUnit_bare_at (tok s rest rest' : string) :
  skip_white s = tok ++ rest ->
  decimal_token tok = true -> stops_decimal rest = true ->
  skip_white rest = rest' -> stops is_alpha rest' = true ->
  parse true FloatUnit s = Ok ([Grp [Str tok]], rest').
Proof.
  intros Hs Htok Hr Hw Ha. unfold FloatUnit. rewrite parse_Group, parse_And.
  rewrite (parse_Floating_at tok s rest); auto.
  cbn [bind].
  change (parse true (Optional ?a) ?x)
    with (match parse true a (preParse true x) with
          | Ok r => Ok r
          | Raise _ => Ok ([], preParse true x)
          end).
  cbn [parse preParse]. rewrite skip_white_idem, Hw.
  destruct rest' as [| c r]; cbn in *; [reflexivity |].
  apply negb_true_iff in Ha. unfold alphas. now rewrite Ha.
Qed.

Lemma parse_Percent_at (tok s rest : string) :
  skip_white s = tok ++ "%" ++ rest ->
  decimal_token tok = true ->
  parse true Percent s = Ok ([Grp [Str tok; Str "%"]], rest).
Proof.
  intros Hs Htok. unfold Percent. rewrite parse_Group, parse_And.
  rewrite (parse_Floating_at tok s ("%" ++ rest)) by auto.
  cbn [bind]. now rewrite (parse_Literal_at "%" _ rest).
Qed.

(** ** [int()] reads back what [show_int] writes *)

Lemma all_digits_of_uint (d : Decimal.uint) :
  all_chars is_digit (NilEmpty.string_of_uint d) = true.
Proof. induction d; cbn [NilEmpty.string_of_uint all_chars]; auto. Qed.

Lemma show_int_token (n : Z) : integer_token (show_int n) = true.
Proof.
  unfold integer_token, show_int. rewrite all_digits_of_uint, andb_true_r.
  destruct (Z.to_N n) as [| p]; [reflexivity |].
  cbn [N.to_uint]. pose proof (DecimalPos.Unsigned.to_uint_nonnil p) as H.
  destruct (Pos.to_uint p); [contradiction | reflexivity ..].
Qed.

Lemma digits_val_of_uint_acc (d : Decimal.uint) :
  forall (z : Z) (acc : positive), z = Zpos acc ->
    digits_val z (NilEmpty.string_of_uint d) = Zpos (Pos.of_uint_acc d acc).
Proof.
  induction d; intros z acc ->;
    cbn [NilEmpty.string_of_uint digits_val Pos.of_uint_acc];
    [reflexivity | apply IHd; unfold digit_val; vm_compute (code _); lia ..].
Qed.

Lemma digits_val_of_uint (d : Decimal.uint) :
  digits_val 0 (NilEmpty.string_of_uint d) = Z.of_N (Pos.of_uint d).
Proof.
  induction d; cbn [NilEmpty.string_of_uint digits_val Pos.of_uint];
    [reflexivity | exact IHd | apply digits_val_of_uint_acc; reflexivity ..].
Qed.

Lemma rstrip_no_space (s : string) :
  all_chars (fun c => negb (py_isspace c)) s = true -> rstrip s = s.
Proof.
  induction s as [| c s IH]; cbn; [reflexivity |].
  intros H. apply andb_true_iff in H as [Hc Hs]. rewrite (IH Hs).
  apply negb_true_iff in Hc. rewrite Hc. now destruct s.
Qed.

Lemma all_chars_impl (p q : ascii -> bool) (s : string) :
  (forall c, p c = true -> q c = true) ->
  all_chars p s = true -> all_chars q s = true.
Proof.
  intros Hpq. induction s as [| c s IH]; cbn; [reflexivity |].
  intros H. apply andb_true_iff in H as [Hc Hs]. now rewrite (Hpq _ Hc), IH.
Qed.

Lemma strip_integer_token (s : string) : integer_token s = true -> strip s = s.
Proof.
  intros H. destruct (integer_token_inv _ H) as (c & d & -> & Hc & Hall).
  unfold strip. cbn [lstrip].
  destruct (digit_classes _ Hc) as (_ & _ & -> & _).
  apply rstrip_no_space. revert Hall. apply all_chars_impl.
  intros a Ha. destruct (digit_classes _ Ha) as (_ & _ & -> & _). reflexivity.
Qed.

Lemma sign_of_digit (c : ascii) (s : string) :
  is_digit c = true -> sign_of (String c s) = (false, String c s).
Proof.
  destruct c as [[] [] [] [] [] [] [] []]; vm_compute; intros H;
    first [discriminate H | reflexivity].
Qed.

Lemma digitpart_all_digits (s : string) :
  all_chars is_digit s = true -> forall b, digitpart b s = (s, "").
Proof.
  induction s as [| c s IH]; cbn; [reflexivity |].
  intros H b. apply andb_true_iff in H as [-> Hs]. now rewrite IH.
Qed.

Lemma py_int_show_int (n : Z) : 0 <= n -> py_int (show_int n) = Ok n.
Proof.
  intros Hn. pose proof (show_int_token n) as Htok.
  destruct (integer_token_inv _ Htok) as (c & d & E & Hc & Hall).
  unfold py_int. rewrite strip_integer_token by assumption.
  rewrite E at 1. rewrite sign_of_digit by assumption. rewrite <- E.
  rewrite digitpart_all_digits by assumption. rewrite E at 1. rewrite <- E.
  unfold show_int. rewrite digits_val_of_uint.
  change (Pos.of_uint ?u) with (N.of_uint u).
  rewrite DecimalN.Unsigned.of_to. f_equal. lia.
Qed.

(** ** [no_units] on the tokens a well-formed section holds *)

Lemma no_units_bare (s : string) (x : float) :
  py_float s = Ok x -> no_units [s] = Ok x.
Proof. intros H. unfold no_units; cbn. now rewrite H. Qed.

Lemma no_units_suffix (s u : string) (x : float) :
  py_float s = Ok x ->
  no_units [s; u] =
    if String.eqb u "%" then Ok x
    else if String.eqb u "k" then Ok (x * 1e3)%float
    else if String.eqb u "GB" then Ok (x * 1e3)%float
    else if String.eqb u "MB" then Ok x
    else if String.eqb u "KB" then Ok (x * 1e-3)%float
    else if String.eqb u "B" then Ok (x * 1e-6)%float
    else if String.eqb u "s" then Ok (x * 1e3)%float
    else if String.eqb u "ms" then Ok x
    else if String.eqb u "us" then Ok (x * 1e-3)%float
    else Raise (ValueError ("Unknown unit: " ++ u)).
Proof. intros H. unfold no_units; cbn. now rewrite H. Qed.

(** ** RunGrammarParser: the round trip *)

Lemma all_chars_app (p : ascii -> bool) (a b : string) :
  all_chars p (a ++ b) = all_chars p a && all_chars p b.
Proof.
  induction a as [| c a IH]; cbn; [reflexivity |].
  now rewrite IH, andb_assoc.
Qed.

Lemma expandtabs_no_tab (s : string) :
  all_chars no_tab s = true -> forall col, expandtabs_from col s = s.
Proof.
  unfold no_tab.
  induction s as [| c s IH]; cbn [all_chars expandtabs_from]; [reflexivity |].
  intros H col. apply andb_true_iff in H as [Hc Hs].
  apply negb_true_iff in Hc. rewrite Hc.
  destruct ((code c =? 10) || (code c =? 13)); now rewrite IH.
Qed.

Lemma no_tab_integer (d : string) :
  integer_token d = true -> all_chars no_tab d = true.
Proof.
  intros H. apply andb_true_iff in H as [_ H]. revert H.
  apply all_chars_impl. intros c Hc. unfold no_tab.
  destruct (digit_classes _ Hc) as (_ & _ & _ & _ & _ & _ & _ & ->). reflexivity.
Qed.

Lemma no_tab_decimal (tok : string) :
  decimal_token tok = true -> all_chars no_tab tok = true.
Proof.
  intros H. destruct (decimal_token_inv _ H) as (ip & Hip & [-> | (fp & Hfp & ->)]).
  - now apply no_tab_integer.
  - rewrite !all_chars_app. rewrite (no_tab_integer ip), (no_tab_integer fp) by assumption.
    reflexivity.
Qed.

Lemma stops_alpha_decimal (tok rest : string) :
  decimal_token tok = true -> stops is_alpha (tok ++ rest) = true.
Proof.
  intros H. destruct (decimal_token_head _ H) as (c & t & -> & Hc).
  cbn. destruct (digit_classes _ Hc) as (_ & -> & _). reflexivity.
Qed.

Lemma all_chars_cons_intro (p : ascii -> bool) (c : ascii) (s : string) :
  p c = true -> all_chars p s = true -> all_chars p (String c s) = true.
Proof. cbn. now intros -> ->. Qed.

Lemma all_chars_app_intro (p : ascii -> bool) (a b : string) :
  all_chars p a = true -> all_chars p b = true -> all_chars p (a ++ b) = true.
Proof. rewrite all_chars_app. now intros -> ->. Qed.

Lemma parse_Optional (a : ParserElement) (s : string) :
  parse true (Optional a) s =
    match parse true a (skip_white s) with
    | Ok r => Ok r
    | Raise _ => Ok ([], skip_white s)
    end.
Proof. reflexivity. Qed.

Lemma parse_Literal_mismatch (a c : ascii) (lit s r : string) :
  skip_white s = String c r -> Ascii.eqb a c = false ->
  parse true (Literal (String a lit)) s = Raise ParseException.
Proof. cbn. now intros -> ->. Qed.

Lemma no_units_percent (s : string) (x : float) :
  py_float s = Ok x -> no_units [s; "%"] = Ok x.
Proof. intros H. now rewrite (no_units_suffix _ _ _ H). Qed.

Lemma no_units_ms (s : string) (x : float) :
  py_float s = Ok x -> no_units [s; "ms"] = Ok x.
Proof. intros H. now rewrite (no_units_suffix _ _ _ H). Qed.

Lemma no_units_MB (s : string) (x : float) :
  py_float s = Ok x -> no_units [s; "MB"] = Ok x.
Proof. intros H. now rewrite (no_units_suffix _ _ _ H). Qed.

Lemma no_units_s (s : string) (x : float) :
  py_float s = Ok x -> no_units [s; "s"] = Ok (x * 1e3)%float.
Proof. intros H. now rewrite (no_units_suffix _ _ _ H). Qed.

Lemma prefix_app (p a b : string) :
  String.prefix p a = true -> String.prefix p (a ++ b) = true.
Proof.
  revert a. induction p as [| c p IH]; intros a H;
    [now destruct a, b |].
  destruct a as [| c' a]; [discriminate |].
  cbn [append String.prefix] in *.
  destruct (Ascii.ascii_dec c c'); [now apply IH | discriminate].
Qed.

Lemma contains_app_l (a b p : string) :
  contains a p = true -> contains (a ++ b) p = true.
Proof.
  induction a as [| c a IH]; cbn [contains append].
  - rewrite orb_false_r. intros H. destruct p; [| discriminate].
    now destruct b.
  - intros H. apply orb_true_iff in H as [H | H].
    + change (String c (a ++ b)) with (String c a ++ b).
      now rewrite (prefix_app _ _ _ H).
    + rewrite (IH H). apply orb_true_r.
Qed.

Lemma contains_app_r (a b p : string) :
  contains b p = true -> contains (a ++ b) p = true.
Proof.
  intros H. induction a as [| c a IH]; [exact H |].
  cbn [append contains]. rewrite IH. apply orb_true_r.
Qed.

(** A rendered section has the marker of the timed sections. *)
Lemma render_has_marker (show show_time : float -> string) (unit : duration_unit)
    (r : RawSummary) :
  contains (render_section show show_time unit r) "STARTTIME" = true.
Proof.
  unfold render_section.
  repeat match goal with
  | |- contains (?a ++ ?b) _ = true =>
      first [ solve [apply contains_app_l; reflexivity] | apply contains_app_r ]
  end.
Qed.

(** Symbolic execution of the grammar on a rendered section: [expose] opens
    the sequence up to its first element, [leaf] runs that element on the
    text in front of it. *)
Ltac tok_side := first [assumption | apply show_int_token].

Ltac skipw :=
  repeat first
    [ rewrite skip_white_cons by reflexivity
    | rewrite skip_white_decimal by assumption
    | rewrite skip_white_integer by tok_side
    | rewrite skip_white_stop by reflexivity ];
  reflexivity.

Ltac side :=
  first [ skipw | tok_side | reflexivity | (apply stops_alpha_decimal; assumption) ].

Ltac expose :=
  repeat first [rewrite parse_And | rewrite parse_Group | rewrite parse_Optional].

Ltac leaf :=
  match goal with
  | |- context [parse true (Literal ?l) ?s] =>
      first [ erewrite (parse_Literal_at l s) by side
            | erewrite (parse_Literal_mismatch _ _ _ s) by side ]
  | |- context [parse true Integer ?s] =>
      erewrite (parse_Integer_at _ s) by side
  | |- context [parse true Floating ?s] =>
      erewrite (parse_Floating_at _ s) by side
  | |- context [parse true Percent ?s] =>
      first [ erewrite (parse_Percent_at "50" s) by side
            | erewrite (parse_Percent_at "75" s) by side
            | erewrite (parse_Percent_at "90" s) by side
            | erewrite (parse_Percent_at "99" s) by side
            | erewrite (parse_Percent_at _ s) by side ]
  | |- context [parse true FloatUnit ?s] =>
      first [ erewrite (parse_FloatUnit_at _ "ms" s) by side
            | erewrite (parse_FloatUnit_at _ "MB" s) by side
            | erewrite (parse_FloatUnit_at _ "s" s) by side
            | erewrite (parse_FloatUnit_bare_at _ s) by side ]
  end; cbn [bind].

Ltac fields :=
  cbn [threads connections rps latency starttime endtime
       requests_per_sec transfer_megabytes_per_sec request_count megabytes_read
       over_seconds non_2xx_count thread_rps_mean thread_rps_max thread_rps_stdev
       thread_rps_stdev_range lat50 lat75 lat90 lat99 thread_mean thread_max
       thread_stdev thread_stdev_range].

(** C1, as the code has it.  For every [RawSummary] in the value domain of
    the grammar (non-negative integer threads, connections, request count and
    non-2xx count; magnitudes and timestamps that the printers write as
    tokens reading back as themselves) whose duration [d] survives the
    conversion the parser applies, [1e-3 * (d * 1e3) = d] in binary64
    arithmetic, parsing the rendered section yields that [RawSummary]
    again, whether the duration is written in seconds or in milliseconds;
    and the loop over the sections of a file returns it for that section. *)
Theorem render_parse_roundtrip
    (show show_time : float -> string) (unit : duration_unit) (r : RawSummary) :
  in_value_domain show show_time unit r ->
  (1e-3 * (over_seconds (rps r) * 1e3))%float = over_seconds (rps r) ->
  parse_section get_rps_and_latency_parser (render_section show show_time unit r)
  = Ok r /\
  forall (filename : string) (index : Z),
    parse_sections filename get_rps_and_latency_parser
      [(index, render_section show show_time unit r)] = Ok [r].
Proof.
  intros Hdom Hdur.
  assert (Hparse :
    parse_section get_rps_and_latency_parser (render_section show show_time unit r)
    = Ok r); [| split; [exact Hparse |]].
  2: { intros filename index. cbn [parse_sections].
       rewrite render_has_marker. cbn [negb]. now rewrite Hparse. }
  revert Hdom Hdur.
  destruct r as [th co [rq tr rc mr os nx m1 m2 m3 m4]
                       [l50 l75 l90 l99 lm lx ls lr] st en].
  unfold in_value_domain, magnitudes, prints, prints_time; fields.
  intros (Hth & Hco & Hrc & Hnx & Hmag & [Hst1 Hst2] & [Hen1 Hen2]) Hdur.
  repeat match goal with
  | H : Forall _ (_ :: _) |- _ =>
      let a := fresh "Ht" in let b := fresh "Hf" in
      apply Forall_cons_iff in H as [[a b] H]
  end.
  clear Hmag.
  pose proof (py_int_show_int _ Hth) as Ith.
  pose proof (py_int_show_int _ Hco) as Ico.
  pose proof (py_int_show_int _ Hrc) as Irc.
  pose proof (py_int_show_int _ Hnx) as Inx.
  unfold parse_section, parseString.
  unfold render_section, render_duration, nl; fields.
  destruct unit; destruct (nx =? 0) eqn:Enx.
  all: rewrite ?append_assoc; cbn [append].
  all: unfold expandtabs; rewrite expandtabs_no_tab.
  2, 4, 6, 8:
    repeat match goal with
    | |- all_chars no_tab (String _ _) = true =>
        apply all_chars_cons_intro; [reflexivity |]
    | |- all_chars no_tab (_ ++ _) = true =>
        apply all_chars_app_intro;
        [first [apply no_tab_decimal; assumption | apply no_tab_integer; tok_side] |]
    | |- all_chars no_tab EmptyString = true => reflexivity
    end.
  all: unfold get_rps_and_latency_parser; cbv zeta; cbn [times].
  all: with_strategy opaque [Integer Floating FloatUnit Percent]
         (repeat (expose; leaf)).
  all: cbn [app].
  all: cbv -[py_float py_int no_units show_int PrimFloat.mul].
  all: repeat match goal with
       | H : py_float ?s = Ok ?x |- _ =>
           rewrite ?(no_units_bare _ _ H), ?(no_units_percent _ _ H),
             ?(no_units_ms _ _ H), ?(no_units_MB _ _ H), ?(no_units_s _ _ H), ?H;
           clear H
       end.
  all: rewrite ?Ith, ?Ico, ?Irc, ?Inx.
  all: cbv -[PrimFloat.mul].
  all: rewrite Hdur; try (apply Z.eqb_eq in Enx; subst nx); reflexivity.
Qed.

Lemma example_run_in_domain (unit : duration_unit) (seconds : float) :
  prints (show_fixed 2)
    match unit with Seconds => seconds | Milliseconds => (seconds * 1e3)%float end ->
  in_value_domain (show_fixed 2) (show_fixed 0) unit (example_run seconds).
Proof.
  intros Hs. unfold in_value_domain, magnitudes, example_run; fields.
  do 4 (split; [lia |]).
  split; [| split; split; vm_compute; reflexivity].
  repeat (apply Forall_cons; [first [exact Hs | split; vm_compute; reflexivity] |]).
  apply Forall_nil.
Qed.

Lemma render_parse_roundtrip_witness :
  parse_section get_rps_and_latency_parser
    (render_section (show_fixed 2) (show_fixed 0) Seconds (example_run 15))
  = Ok (example_run 15).
Proof.
  apply render_parse_roundtrip.
  - apply (example_run_in_domain Seconds). split; vm_compute; reflexivity.
  - vm_compute; reflexivity.
Defined.

(** C1 as the specification states it fails.  The run of 15.03 s lies in the
    value domain (every field is written as a token that reads back as the
    field), yet its section, the duration written as seconds or as
    milliseconds, parses to a run of 15.030000000000001 s. *)
Lemma duration_not_restored :
  ~ (forall show show_time r,
       in_value_domain show show_time Seconds r ->
       parse_section get_rps_and_latency_parser
         (render_section show show_time Seconds r) = Ok r) /\
  ~ (forall show show_time r,
       in_value_domain show show_time Milliseconds r ->
       parse_section get_rps_and_latency_parser
         (render_section show show_time Milliseconds r) = Ok r).
Proof.
  split; intros H.
  - specialize (H (show_fixed 2) (show_fixed 0) (example_run 15.03)
                  (example_run_in_domain Seconds 15.03
                     ltac:(split; vm_compute; reflexivity))).
    apply (f_equal (fun o => match o with
                             | Ok s => PrimFloat.eqb (over_seconds (rps s)) 15.03
                             | Raise _ => true
                             end)) in H.
    vm_compute in H. discriminate H.
  - specialize (H (show_fixed 2) (show_fixed 0) (example_run 15.03)
                  (example_run_in_domain Milliseconds 15.03
                     ltac:(split; vm_compute; reflexivity))).
    apply (f_equal (fun o => match o with
                             | Ok s => PrimFloat.eqb (over_seconds (rps s)) 15.03
                             | Raise _ => true
                             end)) in H.
    vm_compute in H. discriminate H.
Qed.

(** ** RunGrammarParser: the timestamps *)

Lemma bind_Ok_inv {A B} (m : result A) (k : A -> result B) (b : B) :
  bind m k = Ok b -> exists a, m = Ok a /\ k a = Ok b.
Proof. destruct m as [a | e]; cbn; [eauto | discriminate]. Qed.

Lemma parse_And_inv (ws : bool) (a b : ParserElement) (s r : string) (t : list tok) :
  parse ws (a + b) s = Ok (t, r) ->
  exists ta r1 tb,
    parse ws a s = Ok (ta, r1) /\ parse ws b r1 = Ok (tb, r) /\ t = (ta ++ tb)%list.
Proof.
  rewrite parse_And. intros H.
  apply bind_Ok_inv in H as ([ta r1] & Ha & H).
  apply bind_Ok_inv in H as ([tb r2] & Hb & H).
  inversion H; subst. now exists ta, r1, tb.
Qed.

Lemma parse_Group_inv (ws : bool) (a : ParserElement) (s r : string) (t : list tok) :
  parse ws (Group a) s = Ok (t, r) ->
  exists ta, parse ws a s = Ok (ta, r) /\ t = [Grp ta].
Proof.
  rewrite parse_Group. intros H.
  apply bind_Ok_inv in H as ([ta r1] & Ha & H).
  inversion H; subst. now exists ta.
Qed.

Lemma parse_Literal_inv (ws : bool) (lit s r : string) (t : list tok) :
  parse ws (Literal lit) s = Ok (t, r) -> t = [Str lit].
Proof.
  cbn. destruct (drop_prefix lit (preParse ws s)); [| discriminate].
  now intros [= <- _].
Qed.

Lemma parse_Integer_inv (ws : bool) (s r : string) (t : list tok) :
  parse ws Integer s = Ok (t, r) ->
  exists d, t = [Str d] /\ integer_token d = true.
Proof.
  unfold Integer; cbn. destruct (span nums (preParse ws s)) as [w r'] eqn:Hs.
  destruct (span_spec _ _ _ _ Hs) as (_ & Hw & _).
  destruct w as [| c w]; [discriminate |].
  intros [= <- _]. exists (String c w). split; [reflexivity |].
  unfold integer_token, nums in *. now rewrite Hw.
Qed.

Lemma item_last (ts : list tok) (g : tok) : item (ts ++ [g])%list (-1) = Ok g.
Proof.
  unfold item. set (n := Z.of_nat (List.length (ts ++ [g])%list)).
  assert (Hn : n = Z.of_nat (List.length ts) + 1)
    by (subst n; rewrite length_app; cbn [List.length]; lia).
  change (-1 <? 0) with true; cbv iota.
  destruct ((-1 + n <? 0) || (n <=? -1 + n)) eqn:E.
  - apply orb_true_iff in E as [E | E]; [apply Z.ltb_lt in E | apply Z.leb_le in E]; lia.
  - unfold getitem. replace (Z.to_nat (-1 + n)) with (List.length ts) by lia.
    rewrite nth_error_app2 by lia. now rewrite Nat.sub_diag.
Qed.

(** The last token of an accepted section is the group of the two
    timestamps. *)
Lemma parser_last_token (s r : string) (t : list tok) :
  parse true get_rps_and_latency_parser s = Ok (t, r) ->
  exists tx a b,
    t = (tx ++ [Grp [Str "STARTTIME"; Str a; Str ";"; Str "ENDTIME"; Str b; Str ";"]])%list
    /\ integer_token a = true /\ integer_token b = true.
Proof.
  unfold get_rps_and_latency_parser; cbv zeta. intros H.
  apply parse_And_inv in H as (tx & r1 & tg & _ & Hg & ->).
  apply parse_Group_inv in Hg as (tg' & Hg & ->).
  apply parse_And_inv in Hg as (t5 & r5 & t6 & Hg & H6 & ->).
  apply parse_And_inv in Hg as (t4 & r4 & tb & Hg & Hb & ->).
  apply parse_And_inv in Hg as (t3 & r3 & te & Hg & He & ->).
  apply parse_And_inv in Hg as (t2 & r2 & tsc & Hg & Hsc & ->).
  apply parse_And_inv in Hg as (t1 & r0 & ta & Hg & Ha & ->).
  apply parse_Literal_inv in Hg, Hsc, He, H6. subst.
  apply parse_Integer_inv in Ha as (a & -> & Ha).
  apply parse_Integer_inv in Hb as (b & -> & Hb).
  now exists tx, a, b.
Qed.

(** C9, as the code has it.  The parser copies the two timestamps and does
    not compare them: for every section the grammar accepts, the last token is
    the group [STARTTIME a ; ENDTIME b ;] of two integer tokens, [starttime]
    is [float(a)] and [endtime] is [float(b)]; so [endtime >= starttime]
    holds exactly when the values the log gives are in that order. *)
Theorem timestamps_copied (section : string) (r : RawSummary) :
  parse_section get_rps_and_latency_parser section = Ok r ->
  exists t a b,
    parseString get_rps_and_latency_parser section = Ok t /\
    item t (-1) = Ok (Grp [Str "STARTTIME"; Str a; Str ";"; Str "ENDTIME"; Str b; Str ";"]) /\
    integer_token a = true /\ integer_token b = true /\
    py_float a = Ok (starttime r) /\ py_float b = Ok (endtime r) /\
    (starttime r <=? endtime r)%float =
      match py_float a, py_float b with
      | Ok x, Ok y => (x <=? y)%float
      | _, _ => false
      end.
Proof.
  unfold parse_section. intros H.
  apply bind_Ok_inv in H as (t & Ht & H).
  pose proof Ht as Ht'. unfold parseString in Ht'.
  apply bind_Ok_inv in Ht' as ([t' rest] & Hp & [= ->]).
  destruct (parser_last_token _ _ _ Hp) as (tx & a & b & -> & Ha & Hb).
  do 12 (apply bind_Ok_inv in H as (? & _ & H);
         repeat match type of H with
                | context [let '(_, _) := ?p in _] => destruct p
                end).
  apply bind_Ok_inv in H as (st & Hst & H).
  apply bind_Ok_inv in H as (en & Hen & H).
  injection H as <-. cbn [starttime endtime].
  unfold item2 in Hst, Hen. rewrite item_last in Hst, Hen.
  cbv -[py_float] in Hst, Hen.
  exists (tx ++ [Grp [Str "STARTTIME"; Str a; Str ";"; Str "ENDTIME"; Str b; Str ";"]])%list,
    a, b.
  rewrite Hst, Hen, item_last. repeat split; assumption.
Qed.

Lemma timestamps_copied_witness :
  exists t a b,
    parseString get_rps_and_latency_parser
      (render_section (show_fixed 2) (show_fixed 0) Seconds (example_run 15)) = Ok t /\
    item t (-1) = Ok (Grp [Str "STARTTIME"; Str a; Str ";"; Str "ENDTIME"; Str b; Str ";"]) /\
    integer_token a = true /\ integer_token b = true /\
    py_float a = Ok 1000%float /\ py_float b = Ok 1010%float /\
    (1000 <=? 1010)%float =
      match py_float a, py_float b with
      | Ok x, Ok y => (x <=? y)%float
      | _, _ => false
      end.
Proof.
  apply (timestamps_copied _ (example_run 15)).
  vm_compute. reflexivity.
Defined.

(** C9 as the specification states it fails: the grammar accepts a section
    whose ENDTIME lies before its STARTTIME, and the summary keeps both. *)
Lemma end_before_start_accepted :
  ~ (forall section r,
       parse_section get_rps_and_latency_parser section = Ok r ->
       (starttime r <=? endtime r)%float = true).
Proof.
  intros H.
  destruct (parse_section get_rps_and_latency_parser backwards_section)
    as [r | e] eqn:E.
  - specialize (H _ _ E). vm_compute in E. injection E as <-.
    vm_compute in H. discriminate H.
  - vm_compute in E. discriminate E.
Qed.

(** ** The order of binary64 numbers *)

Lemma SFcompare_key (x y : spec_float) :
  sf_nan x = false -> sf_nan y = false ->
  exists c, SFcompare x y = Some c /\
    match c with
    | Lt => key_lt (sf_key x) (sf_key y)
    | Eq => sf_key x = sf_key y
    | Gt => key_lt (sf_key y) (sf_key x)
    end.
Proof.
  destruct x as [sx | sx | | sx mx ex], y as [sy | sy | | sy my ey];
    try discriminate; intros _ _;
    try destruct sx; try destruct sy; cbn [SFcompare sf_key];
    try (eexists; split; [reflexivity |]; cbn; first [reflexivity | lia]).
  - change (PosDef.Pos.compare_cont Eq mx my) with (Pos.compare mx my).
    destruct (Z.compare_spec ex ey) as [-> | H | H];
      [destruct (Pos.compare_spec mx my) as [-> | H | H] | |];
      (eexists; split; [reflexivity |]; cbn; first [reflexivity | lia]).
  - change (PosDef.Pos.compare_cont Eq mx my) with (Pos.compare mx my).
    destruct (Z.compare_spec ex ey) as [-> | H | H];
      [destruct (Pos.compare_spec mx my) as [-> | H | H] | |];
      (eexists; split; [reflexivity |]; cbn; first [reflexivity | lia]).
Qed.

Lemma is_number_spec (x : float) : is_number x <-> sf_nan (Prim2SF x) = false.
Proof.
  unfold is_number. rewrite eqb_spec. unfold SFeqb.
  destruct (sf_nan (Prim2SF x)) eqn:N.
  - destruct (Prim2SF x); try discriminate. cbn. split; discriminate.
  - destruct (SFcompare_key _ _ N N) as (c & -> & Hk).
    destruct (sf_key (Prim2SF x)) as [[a1 a2] a3].
    destruct c; cbn in Hk; first [lia | tauto].
Qed.

(** The three comparisons, read on the keys. *)
Lemma ltb_key (x y : float) :
  (x <? y)%float = true <->
  is_number x /\ is_number y /\ key_lt (sf_key (Prim2SF x)) (sf_key (Prim2SF y)).
Proof.
  rewrite !is_number_spec, ltb_spec. unfold SFltb.
  destruct (sf_nan (Prim2SF x)) eqn:Nx.
  { destruct (Prim2SF x); try discriminate. cbn. split; [discriminate | intros [H _]; discriminate]. }
  destruct (sf_nan (Prim2SF y)) eqn:Ny.
  { destruct (Prim2SF y); try discriminate.
    destruct (Prim2SF x); cbn; (split; [discriminate | intros (_ & H & _); discriminate]). }
  destruct (SFcompare_key _ _ Nx Ny) as (c & -> & Hk).
  destruct (sf_key (Prim2SF x)) as [[a1 a2] a3], (sf_key (Prim2SF y)) as [[b1 b2] b3].
  destruct c; cbn in *; (split; [intros H; try discriminate; auto | intros (_ & _ & H)]);
    try reflexivity; try (injection Hk as -> -> ->); lia.
Qed.

Lemma leb_key (x y : float) :
  (x <=? y)%float = true <->
  is_number x /\ is_number y /\
  (key_lt (sf_key (Prim2SF x)) (sf_key (Prim2SF y)) \/ sf_key (Prim2SF x) = sf_key (Prim2SF y)).
Proof.
  rewrite !is_number_spec, leb_spec. unfold SFleb.
  destruct (sf_nan (Prim2SF x)) eqn:Nx.
  { destruct (Prim2SF x); try discriminate. cbn. split; [discriminate | intros [H _]; discriminate]. }
  destruct (sf_nan (Prim2SF y)) eqn:Ny.
  { destruct (Prim2SF y); try discriminate.
    destruct (Prim2SF x); cbn; (split; [discriminate | intros (_ & H & _); discriminate]). }
  destruct (SFcompare_key _ _ Nx Ny) as (c & -> & Hk).
  destruct (sf_key (Prim2SF x)) as [[a1 a2] a3], (sf_key (Prim2SF y)) as [[b1 b2] b3].
  destruct c; cbn in *; (split; [intros H; try discriminate; auto | intros (_ & _ & [H | H])]);
    try reflexivity; try (injection Hk as -> -> ->); try (injection H as -> -> ->); lia.
Qed.

Lemma eqb_key (x y : float) :
  (x =? y)%float = true <->
  is_number x /\ is_number y /\ sf_key (Prim2SF x) = sf_key (Prim2SF y).
Proof.
  rewrite !is_number_spec, eqb_spec. unfold SFeqb.
  destruct (sf_nan (Prim2SF x)) eqn:Nx.
  { destruct (Prim2SF x); try discriminate. cbn. split; [discriminate | intros [H _]; discriminate]. }
  destruct (sf_nan (Prim2SF y)) eqn:Ny.
  { destruct (Prim2SF y); try discriminate.
    destruct (Prim2SF x); cbn; (split; [discriminate | intros (_ & H & _); discriminate]). }
  destruct (SFcompare_key _ _ Nx Ny) as (c & -> & Hk).
  destruct (sf_key (Prim2SF x)) as [[a1 a2] a3], (sf_key (Prim2SF y)) as [[b1 b2] b3].
  destruct c; cbn in *; (split; [intros H; try discriminate; auto | intros (_ & _ & H)]);
    try reflexivity; try (injection H as -> -> ->); lia.
Qed.

Lemma false_iff_not_true (b : bool) : b = false <-> ~ b = true.
Proof. destruct b; split; congruence. Qed.

Lemma triple_eq (a b c a' b' c' : Z) :
  (a, b, c) = (a', b', c') <-> a = a' /\ b = b' /\ c = c'.
Proof. split; [intros [= -> -> ->]; auto | intros (-> & -> & ->); auto]. Qed.

(** Decides a statement about the order of floats from hypotheses of the
    same kind: every comparison is read on the keys, then [lia]. *)
Ltac float_order :=
  unfold is_number in *;
  rewrite ?false_iff_not_true in *;
  rewrite ?ltb_key, ?leb_key, ?eqb_key in *;
  unfold is_number in *;
  repeat match goal with
  | |- context [sf_key ?x] =>
      let a := fresh "k" in let b := fresh "k" in let c := fresh "k" in
      destruct (sf_key x) as [[a b] c]
  | H : context [sf_key ?x] |- _ =>
      let a := fresh "k" in let b := fresh "k" in let c := fresh "k" in
      destruct (sf_key x) as [[a b] c]
  end;
  unfold key_lt in *;
  rewrite ?triple_eq in *;
  repeat match goal with
  | H : context [PrimFloat.eqb ?x ?x = true] |- _ =>
      let P := fresh "N" in
      set (P := PrimFloat.eqb x x = true) in *; clearbody P
  | |- context [PrimFloat.eqb ?x ?x = true] =>
      let P := fresh "N" in
      set (P := PrimFloat.eqb x x = true) in *; clearbody P
  end;
  first [tauto | lia | intuition lia].

Lemma leb_trans (a b c : float) :
  (a <=? b)%float = true -> (b <=? c)%float = true -> (a <=? c)%float = true.
Proof. intros H1 H2. float_order. Qed.

Lemma leb_ltb_trans (a b c : float) :
  (a <=? b)%float = true -> (b <? c)%float = true -> (a <? c)%float = true.
Proof. intros H1 H2. float_order. Qed.

Lemma ltb_trans (a b c : float) :
  (a <? b)%float = true -> (b <? c)%float = true -> (a <? c)%float = true.
Proof. intros H1 H2. float_order. Qed.

Lemma not_ltb_leb (a b : float) :
  is_number a -> is_number b -> (a <? b)%float = false -> (b <=? a)%float = true.
Proof. intros H1 H2 H3. float_order. Qed.

Lemma leb_not_ltb (a b : float) :
  (b <=? a)%float = true -> (a <? b)%float = false.
Proof. intros H1. float_order. Qed.


(** ** RunSelector *)

Lemma max_from_spec {A} (key : A -> float) (xs : list A) :
  forall (pre : list A) (best : A) (post : list A),
    (forall y, In y pre ->
       (key best <? key y)%float = false /\ (key y =? key best)%float = false) ->
    (forall y, In y post -> (key best <? key y)%float = false) ->
    exists l1 l2,
      (pre ++ best :: post ++ xs)%list = (l1 ++ max_from key best xs :: l2)%list /\
      (forall y, In y l1 -> (key y =? key (max_from key best xs))%float = false) /\
      (forall y, In y (l1 ++ max_from key best xs :: l2)%list ->
         (key (max_from key best xs) <? key y)%float = false).
Proof.
  induction xs as [| z xs IH]; intros pre best post Hpre Hpost; cbn [max_from].
  - exists pre, post. rewrite app_nil_r. split; [reflexivity |]. split.
    + intros y Hy. now apply Hpre.
    + intros y Hy. apply in_app_or in Hy as [Hy | [<- | Hy]].
      * now apply Hpre.
      * float_order.
      * now apply Hpost.
  - destruct (key best <? key z)%float eqn:E.
    + destruct (IH (pre ++ best :: post)%list z []) as (l1 & l2 & Heq & H1 & H2).
      * intros y Hy. apply in_app_or in Hy as [Hy | [<- | Hy]].
        -- destruct (Hpre _ Hy) as [Ha Hb]. split; float_order.
        -- split; float_order.
        -- pose proof (Hpost _ Hy) as Ha. split; float_order.
      * intros y [].
      * exists l1, l2. split; [| now split].
        rewrite <- Heq. rewrite <- !app_assoc. reflexivity.
    + destruct (IH pre best (post ++ [z])%list) as (l1 & l2 & Heq & H1 & H2).
      * exact Hpre.
      * intros y Hy. apply in_app_or in Hy as [Hy | [<- | []]]; auto.
      * exists l1, l2. split; [| now split].
        rewrite <- Heq. rewrite <- !app_assoc. reflexivity.
Qed.



(** ** ResourceStatsCorrelator: the window *)

Lemma monotonic_tail (a : float) (l : list float) :
  is_monotonic_increasing (a :: l) = true -> is_monotonic_increasing l = true.
Proof.
  cbn [is_monotonic_increasing]. destruct l as [| b l]; [reflexivity |].
  intros H. now apply andb_true_iff in H as [_ H].
Qed.

Lemma monotonic_numbers (l : list float) :
  is_monotonic_increasing l = true -> forall x, In x l -> is_number x.
Proof.
  induction l as [| a l IH]; intros H x Hx; [contradiction |].
  destruct Hx as [<- | Hx].
  - cbn [is_monotonic_increasing] in H. destruct l as [| b l]; [exact H |].
    apply andb_true_iff in H as [H _]. float_order.
  - apply IH; [now apply monotonic_tail in H | exact Hx].
Qed.

Lemma monotonic_head_le (a : float) (l : list float) :
  is_monotonic_increasing (a :: l) = true ->
  forall x, In x l -> (a <=? x)%float = true.
Proof.
  revert a. induction l as [| b l IH]; intros a H x Hx; [contradiction |].
  cbn [is_monotonic_increasing] in H.
  apply andb_true_iff in H as [Hab H].
  destruct Hx as [<- | Hx]; [exact Hab |].
  apply leb_trans with b; [exact Hab | now apply IH].
Qed.

Lemma filter_none {A} (p : A -> bool) (l : list A) :
  (forall x, In x l -> p x = false) -> filter p l = [].
Proof.
  induction l as [| a l IH]; intros H; cbn; [reflexivity |].
  rewrite (H a) by now left. apply IH. intros x Hx. apply H. now right.
Qed.

(** On a sorted frame the labels not above [e] form a prefix. *)
Lemma firstn_prefix_upto (e : float) (frame : DataFrame) :
  is_monotonic_increasing (map epoch frame) = true ->
  firstn (prefix_length (fun row => (epoch row <=? e)%float) frame) frame
  = filter (fun row => (epoch row <=? e)%float) frame.
Proof.
  induction frame as [| x rest IH]; intros Hm; [reflexivity |].
  cbn [prefix_length filter]. destruct (epoch x <=? e)%float eqn:Ex.
  - cbn [firstn]. f_equal. apply IH. now apply monotonic_tail in Hm.
  - cbn [firstn]. symmetry. apply filter_none. intros r Hr.
    assert (Hxr : (epoch x <=? epoch r)%float = true).
    { apply (monotonic_head_le _ _ Hm). now apply in_map. }
    float_order.
Qed.

Lemma loc_is_filter (frame : DataFrame) (start e : float) :
  is_monotonic_increasing (map epoch frame) = true ->
  is_number start ->
  loc frame start e
  = filter (fun row => (start <=? epoch row)%float && (epoch row <=? e)%float) frame.
Proof.
  unfold loc. intros Hm Hs.
  induction frame as [| x rest IH]; [reflexivity |].
  pose proof (monotonic_tail _ _ Hm) as Hm'.
  assert (Hx : is_number (epoch x)).
  { apply (monotonic_numbers _ Hm). now left. }
  cbn [prefix_length filter].
  destruct (epoch x <? start)%float eqn:Ea.
  - assert (Hsx : (start <=? epoch x)%float = false) by float_order.
    rewrite Hsx. cbn [andb].
    destruct (epoch x <=? e)%float eqn:Eb.
    + cbn [Nat.sub skipn]. now apply IH.
    + cbn [Nat.sub firstn]. symmetry. apply filter_none. intros r Hr.
      assert (Hxr : (epoch x <=? epoch r)%float = true).
      { apply (monotonic_head_le _ _ Hm). now apply in_map. }
      apply andb_false_iff. right. float_order.
  - rewrite Nat.sub_0_r. cbn [skipn].
    change (if (epoch x <=? e)%float
            then S (prefix_length (fun row => (epoch row <=? e)%float) rest)
            else 0%nat)
      with (prefix_length (fun row => (epoch row <=? e)%float) (x :: rest)).
    rewrite firstn_prefix_upto by exact Hm.
    change (if (start <=? epoch x)%float && (epoch x <=? e)%float then _ else _)
      with (filter (fun row => (start <=? epoch row)%float && (epoch row <=? e)%float)
              (x :: rest)).
    apply filter_ext_in. intros r Hr.
    assert (Hr' : is_number (epoch r)).
    { apply (monotonic_numbers _ Hm). now apply in_map. }
    assert (Hxr : (epoch x <=? epoch r)%float = true \/ r = x).
    { destruct Hr as [-> | Hr]; [now right | left].
      apply (monotonic_head_le _ _ Hm). now apply in_map. }
    assert (Hsr : (start <=? epoch r)%float = true).
    { destruct Hxr as [Hxr | ->]; float_order. }
    now rewrite Hsr.
Qed.




(** ** ResourceStatsCorrelator: the statistics *)

(** *** Integers that binary64 holds exactly *)

Lemma iter_pos_nat {A} (f : A -> A) (p : positive) :
  forall x, iter_pos f p x = Nat.iter (Pos.to_nat p) f x.
Proof.
  induction p as [p IH | p IH |]; intros x; cbn [iter_pos].
  - rewrite !IH, Pos2Nat.inj_xI.
    replace (S (2 * Pos.to_nat p))%nat with (Pos.to_nat p + S (Pos.to_nat p))%nat by lia.
    rewrite Nat.iter_add, Nat.iter_succ_r. reflexivity.
  - rewrite !IH, Pos2Nat.inj_xO.
    replace (2 * Pos.to_nat p)%nat with (Pos.to_nat p + Pos.to_nat p)%nat by lia.
    now rewrite Nat.iter_add.
  - reflexivity.
Qed.

Lemma shr_shifted (m : positive) (k : nat) :
  Nat.iter k shr_1 {| shr_m := Zpos (Pos.shiftl_nat m k); shr_r := false; shr_s := false |}
  = {| shr_m := Zpos m; shr_r := false; shr_s := false |}.
Proof.
  induction k as [| k IH]; [reflexivity |].
  rewrite Nat.iter_succ_r. exact IH.
Qed.

Lemma digits_shifted (m : positive) (k : nat) :
  Zpos (digits2_pos (Pos.shiftl_nat m k)) = Zpos (digits2_pos m) + Z.of_nat k.
Proof.
  induction k as [| k IH]; [cbn; lia |].
  change (Pos.shiftl_nat m (S k)) with (xO (Pos.shiftl_nat m k)).
  cbn [digits2_pos]. lia.
Qed.

(** A mantissa of 53 bits followed by [k] zero bits is rounded to itself. *)
Lemma round_exact (s : bool) (m : positive) (e : Z) (k : nat) :
  Zpos (digits2_pos m) = 53 -> -1074 <= e + Z.of_nat k <= 971 ->
  binary_round_aux prec emax s (Zpos (Pos.shiftl_nat m k)) e loc_Exact
  = S754_finite s m (e + Z.of_nat k).
Proof.
  intros Hd He. unfold binary_round_aux.
  assert (H1 : shr_fexp prec emax (Zpos (Pos.shiftl_nat m k)) e loc_Exact
               = ({| shr_m := Zpos m; shr_r := false; shr_s := false |}, e + Z.of_nat k)).
  { unfold shr_fexp, Zdigits2. rewrite digits_shifted, Hd.
    unfold fexp, SpecFloat.emin, prec, emax.
    replace (Z.max (53 + Z.of_nat k + e - 53) (3 - 1024 - 53) - e) with (Z.of_nat k) by lia.
    unfold shr, shr_record_of_loc. destruct k as [| k].
    - cbn [Z.of_nat]. now rewrite Z.add_0_r.
    - cbn [Z.of_nat]. rewrite iter_pos_nat, SuccNat2Pos.id_succ.
      now rewrite shr_shifted. }
  rewrite H1. cbn [shr_m loc_of_shr_record round_nearest_even].
  assert (H2 : shr_fexp prec emax (Zpos m) (e + Z.of_nat k) loc_Exact
               = ({| shr_m := Zpos m; shr_r := false; shr_s := false |}, e + Z.of_nat k)).
  { unfold shr_fexp, Zdigits2. rewrite Hd.
    unfold fexp, SpecFloat.emin, prec, emax.
    replace (Z.max (53 + (e + Z.of_nat k) - 53) (3 - 1024 - 53) - (e + Z.of_nat k))
      with 0 by lia.
    reflexivity. }
  rewrite H2. cbn [shr_m]. unfold emax, prec.
  destruct (e + Z.of_nat k <=? 1024 - 53) eqn:E; [reflexivity |].
  apply Z.leb_gt in E. lia.
Qed.

Lemma shiftl_nat_value (p : positive) (k : nat) :
  Zpos (Pos.shiftl_nat p k) = Zpos p * 2 ^ Z.of_nat k.
Proof.
  induction k as [| k IH]; [cbn; lia |].
  change (Pos.shiftl_nat p (S k)) with (xO (Pos.shiftl_nat p k)).
  rewrite Nat2Z.inj_succ, Z.pow_succ_r by lia.
  rewrite Pos2Z.inj_xO, IH. lia.
Qed.

Lemma shiftl_nat_add (p : positive) (a b : nat) :
  Pos.shiftl_nat (Pos.shiftl_nat p a) b = Pos.shiftl_nat p (a + b).
Proof.
  apply Pos2Z.inj. rewrite !shiftl_nat_value, Nat2Z.inj_add, Z.pow_add_r by lia. lia.
Qed.

Lemma digits2_size (p : positive) : digits2_pos p = Pos.size p.
Proof. induction p as [p IH | p IH |]; cbn; now rewrite ?IH. Qed.

(** The number of bits of [p]: [2^(d-1) <= p < 2^d]. *)
Lemma digits2_bounds (p : positive) :
  2 ^ (Zpos (digits2_pos p) - 1) <= Zpos p < 2 ^ Zpos (digits2_pos p).
Proof.
  rewrite digits2_size. split.
  - pose proof (Pos.size_le p) as H.
    assert (H' : 2 ^ Zpos (Pos.size p) <= 2 * Zpos p).
    { change (2 * Zpos p) with (Zpos p~0). rewrite <- Pos2Z.inj_pow. apply Pos2Z.pos_le_pos, H. }
    replace (Zpos (Pos.size p)) with (Z.succ (Zpos (Pos.size p) - 1)) in H' by lia.
    rewrite Z.pow_succ_r in H' by lia. lia.
  - pose proof (Pos.size_gt p) as H.
    change 2 with (Zpos 2). rewrite <- Pos2Z.inj_pow. apply Pos2Z.pos_lt_pos, H.
Qed.

Lemma digits2_unique (p : positive) (d : Z) :
  2 ^ (d - 1) <= Zpos p < 2 ^ d -> 0 < d -> Zpos (digits2_pos p) = d.
Proof.
  intros [Hlo Hhi] Hd. pose proof (digits2_bounds p) as [Blo Bhi].
  set (b := Zpos (digits2_pos p)) in *.
  assert (Hb : 0 < b) by (subst b; lia).
  destruct (Z.lt_trichotomy b d) as [H | [H | H]]; [| exact H |].
  - assert (2 ^ b <= 2 ^ (d - 1)) by (apply Z.pow_le_mono_r; lia). lia.
  - assert (2 ^ d <= 2 ^ (b - 1)) by (apply Z.pow_le_mono_r; lia). lia.
Qed.

Lemma div_eucl_exact (a b q : Z) :
  0 < b -> a = q * b -> IntDef.Z.div_eucl a b = (q, 0).
Proof.
  intros Hb ->. change IntDef.Z.div_eucl with Z.div_eucl.
  rewrite (surjective_pairing (Z.div_eucl (q * b) b)).
  change (fst (Z.div_eucl ?a ?b)) with (a / b).
  change (snd (Z.div_eucl ?a ?b)) with (a mod b).
  rewrite Z.div_mul, Z.mod_mul by lia. reflexivity.
Qed.

Lemma exact_sf_digits (p : positive) :
  Zpos p < 2 ^ 53 ->
  Zpos (digits2_pos p) <= 53 /\
  Zpos (digits2_pos (Pos.shiftl_nat p (Z.to_nat (53 - Zpos (digits2_pos p))))) = 53.
Proof.
  intros Hp. pose proof (digits2_bounds p) as [Blo Bhi].
  assert (Hd : Zpos (digits2_pos p) <= 53).
  { destruct (Z_le_gt_dec (Zpos (digits2_pos p)) 53) as [H | H]; [exact H |].
    assert (2 ^ 53 <= 2 ^ (Zpos (digits2_pos p) - 1)) by (apply Z.pow_le_mono_r; lia).
    lia. }
  split; [exact Hd |]. rewrite digits_shifted. lia.
Qed.

Lemma float_of_Z_exact (p : positive) :
  Zpos p < 2 ^ 53 -> Prim2SF (float_of_Z (Zpos p)) = exact_sf p.
Proof.
  intros Hp. destruct (exact_sf_digits p Hp) as [Hd Hm].
  set (d := Zpos (digits2_pos p)) in *.
  set (mm := Pos.shiftl_nat p (Z.to_nat (53 - d))) in *.
  assert (Hd0 : 0 < d) by (unfold d; lia).
  assert (Hsf :
    SFdiv prec emax (S754_finite false (p * Z.to_pos (10 ^ Z.max 0 0)) 0)
                    (S754_finite false (Z.to_pos (10 ^ Z.max (- 0) 0)) 0)
    = S754_finite false mm (d - 53)).
  { change (Z.to_pos (10 ^ Z.max 0 0)) with 1%positive.
    change (Z.to_pos (10 ^ Z.max (- 0) 0)) with 1%positive.
    rewrite Pos.mul_1_r. unfold SFdiv, SFdiv_core_binary.
    cbn [Zdigits2 digits2_pos xorb]. fold d.
    unfold fexp, SpecFloat.emin, prec, emax.
    replace (Z.min (Z.max (d + 0 - (1 + 0) - 53) (3 - 1024 - 53)) (0 - 0))
      with (d - 54) by lia.
    replace (0 - 0 - (d - 54)) with (Z.of_nat (Z.to_nat (54 - d))) by lia.
    assert (Hs : 0 < Z.of_nat (Z.to_nat (54 - d))) by lia.
    destruct (Z.of_nat (Z.to_nat (54 - d))) as [| s | s] eqn:Es; try lia.
    rewrite <- Es, Z.shiftl_mul_pow2 by lia.
    rewrite <- shiftl_nat_value.
    replace (Z.to_nat (54 - d)) with (Z.to_nat (53 - d) + 1)%nat by lia.
    rewrite <- shiftl_nat_add. fold mm.
    rewrite (div_eucl_exact _ 1 (Zpos (Pos.shiftl_nat mm 1))) by lia.
    change (new_location 1 0) with loc_Exact.
    pose proof (round_exact false mm (d - 54) 1) as R. unfold prec, emax in R.
    rewrite R; [f_equal; lia | exact Hm | lia]. }
  unfold float_of_Z, float_of_decimal. cbn [Z.abs Z.ltb Z.compare].
  rewrite Hsf. rewrite Prim2SF_SF2Prim; [reflexivity |].
  unfold valid_binary, bounded, canonical_mantissa. rewrite Hm.
  unfold fexp, SpecFloat.emin, prec, emax.
  apply andb_true_iff. split; [apply Z.eqb_eq | apply Z.leb_le]; lia.
Qed.

Lemma shl_align_down (m : positive) (e e' : Z) :
  e' < e -> shl_align m e e' = (Pos.shiftl_nat m (Z.to_nat (e - e')), e').
Proof.
  intros H. unfold shl_align.
  destruct (e' - e) as [| q | q] eqn:E; try lia.
  unfold shift_pos. rewrite Pos2Nat.inj_iter.
  replace (Z.to_nat (e - e')) with (Pos.to_nat q) by lia.
  reflexivity.
Qed.

Lemma shl_align_keep (m : positive) (e e' : Z) :
  e <= e' -> shl_align m e e' = (m, e).
Proof.
  intros H. unfold shl_align. destruct (e' - e) as [| q | q] eqn:E; try lia; reflexivity.
Qed.

Lemma exact_sf_valid (p : positive) :
  Zpos p < 2 ^ 53 -> valid_binary (exact_sf p) = true.
Proof.
  intros Hp. destruct (exact_sf_digits p Hp) as [Hd Hm].
  unfold exact_sf, valid_binary, bounded, canonical_mantissa. rewrite Hm.
  unfold fexp, SpecFloat.emin, prec, emax.
  apply andb_true_iff. split; [apply Z.eqb_eq | apply Z.leb_le]; lia.
Qed.

(** One less than the float of an integer from 2 to [2^53] is the float of
    the integer before it. *)
Lemma float_of_Z_pred (n : Z) :
  2 <= n < 2 ^ 53 -> (float_of_Z n - 1)%float = float_of_Z (n - 1).
Proof.
  intros Hn. destruct n as [| p | p]; try lia.
  assert (Hq : exists q, Zpos p - 1 = Zpos q) by (exists (Z.to_pos (Zpos p - 1)); lia).
  destruct Hq as [q Hq]. rewrite Hq.
  apply Prim2SF_inj. rewrite sub_spec, !float_of_Z_exact by lia.
  change (Prim2SF 1) with (S754_finite false 4503599627370496 (-52)).
  destruct (exact_sf_digits p) as [Hd Hm]; [lia |].
  destruct (exact_sf_digits q) as [Hd' Hm']; [lia |].
  pose proof (digits2_bounds p) as [Blo Bhi].
  unfold exact_sf.
  set (d := Zpos (digits2_pos p)) in *. set (d' := Zpos (digits2_pos q)) in *.
  assert (Hd2 : 2 <= d).
  { destruct (Z_le_gt_dec 2 d) as [H | H]; [exact H |].
    assert (2 ^ d <= 2 ^ 1) by (apply Z.pow_le_mono_r; unfold d; lia). lia. }
  assert (Hd'0 : 1 <= d') by (unfold d'; lia).
  unfold SF64sub, SFsub. cbn [cond_Zopp].
  replace (Z.min (d - 53) (-52)) with (-52) by lia.
  rewrite shl_align_down, (shl_align_keep _ (-52) (-52)) by lia. cbn [fst].
  rewrite shiftl_nat_add.
  assert (E : Zpos (Pos.shiftl_nat p (Z.to_nat (53 - d) + Z.to_nat (d - 53 - -52)))
              - 4503599627370496
              = Zpos (Pos.shiftl_nat q 52)).
  { rewrite !shiftl_nat_value.
    replace (Z.of_nat (Z.to_nat (53 - d) + Z.to_nat (d - 53 - -52))) with 52 by lia.
    change (Z.of_nat 52) with 52. change (2 ^ 52) with 4503599627370496. lia. }
  rewrite E. unfold binary_normalize, binary_round.
  rewrite digits_shifted. fold d'.
  unfold fexp, SpecFloat.emin, prec, emax.
  rewrite shl_align_keep by lia.
  replace 52%nat with (Z.to_nat (53 - d') + Z.to_nat (d' - 1))%nat by lia.
  rewrite <- shiftl_nat_add.
  pose proof (round_exact false (Pos.shiftl_nat q (Z.to_nat (53 - d'))) (-52)
                (Z.to_nat (d' - 1))) as R.
  unfold prec, emax in R. rewrite R; [f_equal; lia | exact Hm' | lia].
Qed.

Lemma sqrt_zero_over (n : Z) :
  2 <= n < 2 ^ 53 -> sqrt (0 / (float_of_Z n - 1))%float = 0%float.
Proof.
  intros Hn. rewrite float_of_Z_pred by exact Hn.
  assert (Hq : exists q, n - 1 = Zpos q) by (exists (Z.to_pos (n - 1)); lia).
  destruct Hq as [q Hq]. rewrite Hq.
  apply Prim2SF_inj. rewrite sqrt_spec, div_spec, float_of_Z_exact by lia.
  reflexivity.
Qed.

(** The bits of a product: as many as the factors have together, or one
    less. *)
Lemma digits_product (c p : positive) :
  let dc := Zpos (digits2_pos c) in
  let d := Zpos (digits2_pos p) in
  let d1 := Zpos (digits2_pos (c * p)) in
  d1 = dc + d - 1 \/ d1 = dc + d.
Proof.
  intros dc d d1.
  pose proof (digits2_bounds c) as [Alo Ahi]. fold dc in Alo, Ahi.
  pose proof (digits2_bounds p) as [Blo Bhi]. fold d in Blo, Bhi.
  pose proof (digits2_bounds (c * p)) as [Clo Chi]. fold d1 in Clo, Chi.
  rewrite Pos2Z.inj_mul in Clo, Chi.
  assert (Hdc : 1 <= dc) by (unfold dc; lia).
  assert (Hd : 1 <= d) by (unfold d; lia).
  assert (Hd1 : 1 <= d1) by (unfold d1; lia).
  assert (Plo : 0 < 2 ^ (dc - 1)) by (apply Z.pow_pos_nonneg; lia).
  assert (Qlo : 0 < 2 ^ (d - 1)) by (apply Z.pow_pos_nonneg; lia).
  assert (Elo : 2 ^ (dc + d - 2) = 2 ^ (dc - 1) * 2 ^ (d - 1)).
  { rewrite <- Z.pow_add_r by lia. f_equal. lia. }
  assert (Ehi : 2 ^ (dc + d) = 2 ^ dc * 2 ^ d) by (rewrite Z.pow_add_r by lia; reflexivity).
  assert (Lo : 2 ^ (dc + d - 2) <= Zpos c * Zpos p).
  { rewrite Elo. apply Z.mul_le_mono_nonneg; lia. }
  assert (Hi : Zpos c * Zpos p < 2 ^ (dc + d)).
  { rewrite Ehi. apply Z.mul_lt_mono_nonneg; lia. }
  destruct (Z_le_gt_dec d1 (dc + d - 2)) as [H | H].
  { assert (2 ^ d1 <= 2 ^ (dc + d - 2)) by (apply Z.pow_le_mono_r; lia). lia. }
  destruct (Z_le_gt_dec (dc + d + 1) d1) as [H' | H'].
  { assert (2 ^ (dc + d) <= 2 ^ (d1 - 1)) by (apply Z.pow_le_mono_r; lia). lia. }
  lia.
Qed.

(** A product that binary64 holds exactly, divided by one factor, is the
    other factor. *)
Lemma float_of_Z_ratio (c p : positive) :
  Zpos (c * p) < 2 ^ 53 ->
  (float_of_Z (Zpos (c * p)) / float_of_Z (Zpos p))%float = float_of_Z (Zpos c).
Proof.
  intros Hb.
  assert (Hp : Zpos p < 2 ^ 53) by (rewrite Pos2Z.inj_mul in Hb; nia).
  assert (Hc : Zpos c < 2 ^ 53) by (rewrite Pos2Z.inj_mul in Hb; nia).
  apply Prim2SF_inj. rewrite div_spec, !float_of_Z_exact by assumption.
  destruct (exact_sf_digits p Hp) as [Hd Hm].
  destruct (exact_sf_digits c Hc) as [Hdc Hmc].
  destruct (exact_sf_digits (c * p) Hb) as [Hd1 Hm1].
  pose proof (digits_product c p) as Hh. cbv zeta in Hh.
  unfold exact_sf.
  set (d := Zpos (digits2_pos p)) in *.
  set (dc := Zpos (digits2_pos c)) in *.
  set (d1 := Zpos (digits2_pos (c * p))) in *.
  assert (Hd0 : 1 <= d) by (unfold d; lia).
  assert (Hdc0 : 1 <= dc) by (unfold dc; lia).
  set (m := Pos.shiftl_nat p (Z.to_nat (53 - d))) in *.
  set (mc := Pos.shiftl_nat c (Z.to_nat (53 - dc))) in *.
  set (m1 := Pos.shiftl_nat (c * p) (Z.to_nat (53 - d1))) in *.
  unfold SF64div, SFdiv, SFdiv_core_binary. cbn [xorb Zdigits2]. rewrite Hm, Hm1.
  unfold fexp, SpecFloat.emin, prec, emax.
  replace (Z.min (Z.max (53 + (d1 - 53) - (53 + (d - 53)) - 53) (3 - 1024 - 53))
                 (d1 - 53 - (d - 53))) with (d1 - d - 53) by lia.
  replace (d1 - 53 - (d - 53) - (d1 - d - 53)) with 53 by lia.
  cbv iota. rewrite Z.shiftl_mul_pow2 by lia.
  assert (Hm1v : Zpos m1 = Zpos c * Zpos p * 2 ^ (53 - d1)).
  { unfold m1. rewrite shiftl_nat_value, Pos2Z.inj_mul. do 2 f_equal. lia. }
  assert (Hmv : Zpos m = Zpos p * 2 ^ (53 - d)).
  { unfold m. rewrite shiftl_nat_value. do 2 f_equal. lia. }
  assert (Hq : Zpos (Pos.shiftl_nat mc (Z.to_nat (dc - (d1 - d))))
               = Zpos c * 2 ^ (53 - (d1 - d))).
  { unfold mc. rewrite shiftl_nat_add, shiftl_nat_value. do 2 f_equal. lia. }
  assert (Hdiv : Zpos m1 * 2 ^ 53
                 = Zpos (Pos.shiftl_nat mc (Z.to_nat (dc - (d1 - d)))) * Zpos m).
  { rewrite Hq, Hm1v, Hmv.
    transitivity (Zpos c * Zpos p * (2 ^ (53 - d1) * 2 ^ 53)); [ring |].
    transitivity (Zpos c * Zpos p * (2 ^ (53 - (d1 - d)) * 2 ^ (53 - d))); [| ring].
    f_equal. rewrite <- !Z.pow_add_r by lia. f_equal. lia. }
  rewrite (div_eucl_exact _ _ _ (Pos2Z.is_pos m) Hdiv).
  assert (Hloc : new_location (Zpos m) 0 = loc_Exact).
  { unfold new_location, new_location_even, new_location_odd.
    destruct (Z.even (Zpos m)); reflexivity. }
  rewrite Hloc.
  pose proof (round_exact false mc (d1 - d - 53) (Z.to_nat (dc - (d1 - d)))) as R.
  unfold prec, emax in R. rewrite R; [f_equal; lia | exact Hmc | lia].
Qed.

(** The sum of two positive integers, exact as long as binary64 holds
    it. *)
Lemma float_of_Z_add (a b : positive) :
  Zpos (a + b) < 2 ^ 53 ->
  (float_of_Z (Zpos a) + float_of_Z (Zpos b))%float = float_of_Z (Zpos (a + b)).
Proof.
  intros Hs.
  assert (Ha : Zpos a < 2 ^ 53) by lia.
  assert (Hb : Zpos b < 2 ^ 53) by lia.
  apply Prim2SF_inj. rewrite add_spec, !float_of_Z_exact by assumption.
  destruct (exact_sf_digits a Ha) as [Hda Hma].
  destruct (exact_sf_digits b Hb) as [Hdb Hmb].
  destruct (exact_sf_digits (a + b) Hs) as [Hds Hms].
  pose proof (digits2_bounds a) as [Alo Ahi].
  pose proof (digits2_bounds b) as [Blo Bhi].
  pose proof (digits2_bounds (a + b)) as [Slo Shi].
  unfold exact_sf.
  set (da := Zpos (digits2_pos a)) in *.
  set (db := Zpos (digits2_pos b)) in *.
  set (ds := Zpos (digits2_pos (a + b))) in *.
  assert (Hda0 : 1 <= da) by (unfold da; lia).
  assert (Hdb0 : 1 <= db) by (unfold db; lia).
  assert (Hds0 : 1 <= ds) by (unfold ds; lia).
  assert (Has : da <= ds).
  { destruct (Z_le_gt_dec da ds) as [H | H]; [exact H |].
    assert (2 ^ ds <= 2 ^ (da - 1)) by (apply Z.pow_le_mono_r; lia). lia. }
  assert (Hbs : db <= ds).
  { destruct (Z_le_gt_dec db ds) as [H | H]; [exact H |].
    assert (2 ^ ds <= 2 ^ (db - 1)) by (apply Z.pow_le_mono_r; lia). lia. }
  unfold SF64add, SFadd. cbn [cond_Zopp].
  set (ez := Z.min (da - 53) (db - 53)).
  assert (Hez : ez <= da - 53 /\ ez <= db - 53 /\ -52 <= ez) by (unfold ez; lia).
  assert (Ea : fst (shl_align (Pos.shiftl_nat a (Z.to_nat (53 - da))) (da - 53) ez)
               = Pos.shiftl_nat a (Z.to_nat (- ez))).
  { destruct (Z.eq_dec ez (da - 53)) as [E | E].
    - rewrite shl_align_keep by lia. cbn [fst]. f_equal. lia.
    - rewrite shl_align_down by lia. cbn [fst]. rewrite shiftl_nat_add. f_equal. lia. }
  assert (Eb : fst (shl_align (Pos.shiftl_nat b (Z.to_nat (53 - db))) (db - 53) ez)
               = Pos.shiftl_nat b (Z.to_nat (- ez))).
  { destruct (Z.eq_dec ez (db - 53)) as [E | E].
    - rewrite shl_align_keep by lia. cbn [fst]. f_equal. lia.
    - rewrite shl_align_down by lia. cbn [fst]. rewrite shiftl_nat_add. f_equal. lia. }
  rewrite Ea, Eb.
  assert (E : Zpos (Pos.shiftl_nat a (Z.to_nat (- ez)))
              + Zpos (Pos.shiftl_nat b (Z.to_nat (- ez)))
              = Zpos (Pos.shiftl_nat (a + b) (Z.to_nat (- ez)))).
  { rewrite !shiftl_nat_value, Pos2Z.inj_add. ring. }
  rewrite E. unfold binary_normalize, binary_round.
  rewrite digits_shifted. fold ds.
  unfold fexp, SpecFloat.emin, prec, emax.
  rewrite shl_align_keep by lia.
  replace (Z.to_nat (- ez)) with (Z.to_nat (53 - ds) + Z.to_nat (ds - 53 - ez))%nat by lia.
  rewrite <- shiftl_nat_add.
  pose proof (round_exact false (Pos.shiftl_nat (a + b) (Z.to_nat (53 - ds))) ez
                (Z.to_nat (ds - 53 - ez))) as R.
  unfold prec, emax in R. rewrite R; [f_equal; lia | exact Hms | lia].
Qed.

Lemma zero_add_integer (v : positive) :
  Zpos v < 2 ^ 53 -> (0 + float_of_Z (Zpos v))%float = float_of_Z (Zpos v).
Proof.
  intros Hv. apply Prim2SF_inj. rewrite add_spec, float_of_Z_exact by assumption.
  reflexivity.
Qed.

(** *** The sum of integers

    numpy's summation is exact on integers that are not negative, as long
    as binary64 holds their sum. *)

Lemma float_of_Z_zero : float_of_Z 0 = 0%float.
Proof. reflexivity. Qed.

(** The sum of two integers that are not negative, exact as long as
    binary64 holds it. *)
Lemma float_of_Z_plus (a b : Z) :
  0 <= a -> 0 <= b -> a + b < 2 ^ 53 ->
  (float_of_Z a + float_of_Z b)%float = float_of_Z (a + b).
Proof.
  intros Ha Hb Hs. destruct a as [| a | a]; [| | lia]; destruct b as [| b | b]; try lia.
  - reflexivity.
  - cbn [Z.add]. apply zero_add_integer. lia.
  - rewrite Z.add_0_r. apply Prim2SF_inj.
    rewrite add_spec, float_of_Z_exact by lia. reflexivity.
  - change (Z.pos a + Z.pos b) with (Z.pos (a + b)). now apply float_of_Z_add.
Qed.

Lemma zsum_nonneg (zs : list Z) : Forall (fun z => 0 <= z) zs -> 0 <= zsum zs.
Proof. induction 1 as [| z zs Hz _ IH]; cbn [zsum]; lia. Qed.

Lemma zsum_app (a b : list Z) : zsum (a ++ b) = zsum a + zsum b.
Proof. induction a as [| x a IH]; cbn [app zsum]; [reflexivity | rewrite IH; lia]. Qed.

Lemma zsum_split (n : nat) (zs : list Z) : zsum zs = zsum (firstn n zs) + zsum (skipn n zs).
Proof. now rewrite <- zsum_app, firstn_skipn. Qed.

Lemma Forall_firstn_skipn {A} (P : A -> Prop) (n : nat) (l : list A) :
  Forall P l -> Forall P (firstn n l) /\ Forall P (skipn n l).
Proof.
  intros H. rewrite <- (firstn_skipn n l) in H. now apply Forall_app in H.
Qed.

Lemma sum_from_exact (zs : list Z) :
  forall acc, 0 <= acc -> Forall (fun z => 0 <= z) zs -> acc + zsum zs < 2 ^ 53 ->
    sum_from (float_of_Z acc) (map float_of_Z zs) = float_of_Z (acc + zsum zs).
Proof.
  unfold sum_from.
  induction zs as [| z zs IH]; intros acc Hacc Hzs Hb; cbn [map fold_left zsum].
  - f_equal. lia.
  - inversion Hzs as [| ? ? Hz Hzs']; subst. cbn [zsum] in Hb.
    pose proof (zsum_nonneg _ Hzs') as Hn.
    rewrite float_of_Z_plus by lia. rewrite IH by (auto; lia). f_equal. lia.
Qed.

Lemma add_each_exact (rz : list Z) :
  forall bz,
    Forall (fun z => 0 <= z) rz -> Forall (fun z => 0 <= z) bz ->
    List.length bz = List.length rz ->
    zsum rz + zsum bz < 2 ^ 53 ->
    add_each (map float_of_Z rz) (map float_of_Z bz) = map float_of_Z (add_eachZ rz bz) /\
    Forall (fun z => 0 <= z) (add_eachZ rz bz) /\
    zsum (add_eachZ rz bz) = zsum rz + zsum bz /\
    List.length (add_eachZ rz bz) = List.length rz.
Proof.
  induction rz as [| x rz IH]; intros bz Hr Hb Hlen Hs.
  - destruct bz; [| discriminate]. cbn. repeat split; auto.
  - destruct bz as [| y bz]; [discriminate |].
    inversion Hr as [| ? ? Hx Hr']; subst. inversion Hb as [| ? ? Hy Hb']; subst.
    cbn [zsum] in Hs.
    pose proof (zsum_nonneg _ Hr'). pose proof (zsum_nonneg _ Hb').
    destruct (IH bz Hr' Hb') as (E & Hn & Hsum & Hl); [cbn in Hlen; lia | lia |].
    cbn [map add_each add_eachZ]. rewrite float_of_Z_plus, E by lia.
    repeat split.
    + constructor; [lia | exact Hn].
    + cbn [zsum]. rewrite Hsum. lia.
    + cbn. now rewrite Hl.
Qed.

Lemma accumulate_exact (k : nat) :
  forall rz az,
    Forall (fun z => 0 <= z) rz -> Forall (fun z => 0 <= z) az ->
    List.length rz = 8%nat -> (8 * k <= List.length az)%nat ->
    zsum rz + zsum az < 2 ^ 53 ->
    exists rz' az',
      accumulate k (map float_of_Z rz) (map float_of_Z az)
        = (map float_of_Z rz', map float_of_Z az') /\
      Forall (fun z => 0 <= z) rz' /\ Forall (fun z => 0 <= z) az' /\
      List.length rz' = 8%nat /\ zsum rz' + zsum az' = zsum rz + zsum az.
Proof.
  induction k as [| k IH]; intros rz az Hr Ha Hlen Hk Hs.
  - exists rz, az. cbn. repeat split; auto.
  - cbn [accumulate]. rewrite firstn_map, skipn_map.
    destruct (Forall_firstn_skipn _ 8 az Ha) as [Hf Hsk].
    pose proof (zsum_split 8 az) as Hsplit.
    pose proof (zsum_nonneg _ Hf). pose proof (zsum_nonneg _ Hsk).
    pose proof (zsum_nonneg _ Hr).
    assert (Hl8 : List.length (firstn 8 az) = 8%nat) by (rewrite length_firstn; lia).
    destruct (add_each_exact rz (firstn 8 az)) as (E & Hn & Hsum & Hl);
      auto; [lia | lia |].
    rewrite E.
    destruct (IH (add_eachZ rz (firstn 8 az)) (skipn 8 az)) as (rz' & az' & E' & Hr' & Ha' & Hl' & Hs');
      auto; [lia | rewrite length_skipn; lia | lia |].
    exists rz', az'. repeat split; auto. lia.
Qed.

Lemma sum_unrolled_exact (zs : list Z) :
  (8 <= List.length zs)%nat ->
  Forall (fun z => 0 <= z) zs -> zsum zs < 2 ^ 53 ->
  sum_unrolled (map float_of_Z zs) = float_of_Z (zsum zs).
Proof.
  intros Hlen Hz Hs. unfold sum_unrolled. rewrite length_map.
  rewrite firstn_map, skipn_map.
  destruct (Forall_firstn_skipn _ 8 zs Hz) as [Hf Hsk].
  pose proof (zsum_split 8 zs) as Hsplit.
  assert (Hdiv : (8 * (List.length zs / 8 - 1) <= List.length (skipn 8 zs))%nat).
  { rewrite length_skipn.
    pose proof (Nat.Div0.mul_div_le (List.length zs) 8). lia. }
  destruct (accumulate_exact (List.length zs / 8 - 1) (firstn 8 zs) (skipn 8 zs))
    as (rz & az & E & Hr & Ha & Hl & Hsum); auto;
    [rewrite length_firstn; lia | lia |].
  rewrite E.
  destruct rz as [| r0 [| r1 [| r2 [| r3 [| r4 [| r5 [| r6 [| r7 [| ? ?]]]]]]]]];
    try discriminate.
  cbn [map].
  repeat match goal with
         | H : Forall _ (_ :: _) |- _ => inversion H; subst; clear H
         end.
  pose proof (zsum_nonneg _ Ha) as Hna.
  cbn [zsum] in Hsum.
  rewrite !float_of_Z_plus by lia.
  rewrite sum_from_exact by (auto; lia). f_equal. lia.
Qed.

Lemma pairwise_sum_exact (fuel : nat) :
  forall zs,
    (List.length zs <= fuel)%nat ->
    Forall (fun z => 0 <= z) zs -> zsum zs < 2 ^ 53 ->
    pairwise_sum fuel (map float_of_Z zs) = float_of_Z (zsum zs).
Proof.
  induction fuel as [| fuel IH]; intros zs Hlen Hz Hs.
  - destruct zs; [reflexivity | cbn in Hlen; lia].
  - cbn [pairwise_sum]. rewrite length_map.
    destruct (List.length zs <? 8)%nat eqn:E8.
    { rewrite <- float_of_Z_zero. now rewrite sum_from_exact by (auto; lia). }
    apply Nat.ltb_ge in E8.
    destruct (List.length zs <=? 128)%nat eqn:E128.
    { now apply sum_unrolled_exact. }
    apply Nat.leb_gt in E128.
    set (n2 := (List.length zs / 2 - (List.length zs / 2) mod 8)%nat).
    assert (Hn2 : (1 <= n2 < List.length zs)%nat).
    { subst n2. pose proof (Nat.mod_upper_bound (List.length zs / 2) 8 ltac:(lia)).
      assert (64 <= List.length zs / 2)%nat
        by (apply Nat.div_le_lower_bound; lia).
      assert (List.length zs / 2 < List.length zs)%nat by (apply Nat.div_lt; lia).
      lia. }
    rewrite firstn_map, skipn_map.
    destruct (Forall_firstn_skipn _ n2 zs Hz) as [Hf Hsk].
    pose proof (zsum_split n2 zs) as Hsplit.
    pose proof (zsum_nonneg _ Hf). pose proof (zsum_nonneg _ Hsk).
    rewrite !IH; auto; try lia.
    + rewrite float_of_Z_plus by lia. f_equal. lia.
    + rewrite length_skipn. lia.
    + rewrite length_firstn. lia.
Qed.

(** The sum of integers that are not negative is exact, as long as binary64
    holds it. *)
Lemma fsum_exact (zs : list Z) :
  Forall (fun z => 0 <= z) zs -> zsum zs < 2 ^ 53 ->
  fsum (map float_of_Z zs) = float_of_Z (zsum zs).
Proof.
  intros Hz Hs. unfold fsum. rewrite length_map, pairwise_sum_exact by auto.
  pose proof (zsum_nonneg _ Hz).
  rewrite <- float_of_Z_zero at 1. rewrite float_of_Z_plus by lia. reflexivity.
Qed.

Lemma zsum_repeat (v : Z) (n : nat) : zsum (repeat v n) = v * Z.of_nat n.
Proof. induction n as [| n IH]; cbn [repeat zsum]; lia. Qed.

(** All [n] samples out of [n] are 100 percent, as long as binary64 holds
    [100 * n] exactly. *)
Lemma percent_of_all (n : Z) :
  1 <= n -> 100 * n < 2 ^ 53 -> int_true_divide (100 * n) n = 100%float.
Proof.
  intros Hn Hb. destruct n as [| p | p]; try lia.
  unfold int_true_divide. change (100 * Zpos p) with (Zpos (100 * p)) in *.
  rewrite float_of_Z_ratio by exact Hb. vm_compute. reflexivity.
Qed.

(** *** Constant series *)

Lemma is_finite_number (c : float) : is_finite c = true -> is_number c.
Proof.
  unfold is_finite. intros H. apply is_number_spec.
  now destruct (Prim2SF c).
Qed.

Lemma sub_self (c : float) : is_finite c = true -> (c - c)%float = 0%float.
Proof.
  unfold is_finite. intros H. apply Prim2SF_inj. rewrite sub_spec.
  destruct (Prim2SF c) as [s | s | | s m e]; try discriminate.
  - now destruct s.
  - unfold SF64sub, SFsub. now rewrite Z.sub_diag.
Qed.

Lemma sub_zero (c : float) : is_finite c = true -> (c - 0)%float = c.
Proof.
  unfold is_finite. intros H. apply Prim2SF_inj. rewrite sub_spec.
  change (Prim2SF 0) with (S754_zero false).
  destruct (Prim2SF c) as [s | s | | s m e]; try discriminate.
  - now destruct s.
  - reflexivity.
Qed.

Lemma leb_add_zero (c : float) : is_finite c = true -> (c <=? c + 0)%float = true.
Proof.
  intros H. pose proof (is_finite_number _ H) as Hn. unfold is_finite in H.
  assert (E : (c + 0)%float = c \/ (c = neg_zero)).
  { destruct (Prim2SF c) as [s | s | | s m e] eqn:Ec; try discriminate.
    - destruct s.
      + right. apply Prim2SF_inj. now rewrite Ec.
      + left. apply Prim2SF_inj. rewrite add_spec, Ec. reflexivity.
    - left. apply Prim2SF_inj. rewrite add_spec, Ec. reflexivity. }
  destruct E as [-> | ->]; [float_order | reflexivity].
Qed.

Lemma map_repeat {A B} (f : A -> B) (a : A) (n : nat) :
  map f (repeat a n) = repeat (f a) n.
Proof. induction n as [| n IH]; cbn; [reflexivity | now rewrite IH]. Qed.

Lemma fsum_zeros (n : nat) : fsum (repeat 0%float n) = 0%float.
Proof.
  change (repeat 0%float n) with (repeat (float_of_Z 0) n).
  rewrite <- map_repeat. rewrite fsum_exact.
  - now rewrite zsum_repeat.
  - apply Forall_forall. intros z Hz. apply repeat_spec in Hz. lia.
  - rewrite zsum_repeat. lia.
Qed.

Lemma filter_repeat_true {A} (p : A -> bool) (a : A) (n : nat) :
  p a = true -> filter p (repeat a n) = repeat a n.
Proof. intros H. induction n as [| n IH]; cbn; [reflexivity | now rewrite H, IH]. Qed.

Lemma dropna_repeat (c : float) (n : nat) :
  is_number c -> dropna (repeat c n) = repeat c n.
Proof. intros H. now apply filter_repeat_true. Qed.

Lemma count_repeat (c : float) (n : nat) :
  is_number c -> count (repeat c n) = Z.of_nat n.
Proof. intros H. unfold count. now rewrite dropna_repeat, repeat_length. Qed.

(** A mask of [between] selects no missing value. *)
Lemma dropna_between (l r : float) (s : list float) :
  dropna (filter (between l r) s) = filter (between l r) s.
Proof.
  unfold dropna. induction s as [| x s IH]; cbn [filter]; [reflexivity |].
  destruct (between l r x) eqn:E; [| exact IH].
  cbn [filter]. rewrite IH.
  assert (Hx : notna x = true).
  { unfold between in E. apply andb_true_iff in E as [E _]. unfold notna. float_order. }
  now rewrite Hx.
Qed.

Lemma fill_zero_repeat (c : float) (n : nat) :
  is_number c -> fill_zero (repeat c n) = repeat c n.
Proof.
  intros H. unfold fill_zero. rewrite map_repeat. unfold is_number in H.
  unfold notna. now rewrite H.
Qed.

Lemma std_constant (c : float) (n : nat) :
  is_finite c = true -> 2 <= Z.of_nat n < 2 ^ 53 -> mean (repeat c n) = c ->
  std (repeat c n) = 0%float.
Proof.
  intros Hc Hn Hmean. pose proof (is_finite_number _ Hc) as Hnum.
  unfold std. unfold mean in Hmean. rewrite count_repeat in * by assumption.
  destruct (Z.of_nat n =? 0) eqn:E0; [apply Z.eqb_eq in E0; lia |].
  destruct (Z.of_nat n <=? 1) eqn:E; [apply Z.leb_le in E; lia |].
  rewrite Hmean. rewrite map_repeat.
  assert (Hn' : notna c = true) by exact Hnum. rewrite Hn'.
  rewrite sub_self by assumption.
  change (0 * 0)%float with 0%float. rewrite fsum_zeros.
  now apply sqrt_zero_over.
Qed.

Lemma range_constant (c : float) (n : nat) :
  is_finite c = true -> 2 <= Z.of_nat n -> 100 * Z.of_nat n < 2 ^ 53 ->
  mean (repeat c n) = c ->
  int_true_divide
    (100 * count (filter (between (mean (repeat c n) - std (repeat c n))
                                  (mean (repeat c n) + std (repeat c n)))
                    (repeat c n)))
    (count (repeat c n)) = 100%float.
Proof.
  intros Hc Hn Hb Hmean. pose proof (is_finite_number _ Hc) as Hnum.
  rewrite std_constant, Hmean by (try assumption; lia).
  rewrite filter_repeat_true, count_repeat by
    (try assumption; unfold between; rewrite sub_zero, leb_add_zero by assumption;
     rewrite andb_true_r; float_order).
  apply percent_of_all; lia.
Qed.

Lemma count_between (l r : float) (s : list float) :
  count (filter (between l r) s) = Z.of_nat (List.length (filter (between l r) s)).
Proof. unfold count. now rewrite dropna_between. Qed.

(** The mean of [n] samples of an integer [v] is [v], as long as binary64
    holds their sum [v * n] exactly. *)
Lemma mean_integer (v : Z) (n : nat) :
  1 <= v -> 1 <= Z.of_nat n -> v * Z.of_nat n < 2 ^ 53 ->
  mean (repeat (float_of_Z v) n) = float_of_Z v.
Proof.
  intros Hv Hn Hb. destruct v as [| v | v]; try lia.
  assert (Hv53 : Zpos v < 2 ^ 53) by nia.
  assert (Hnum : is_number (float_of_Z (Zpos v))).
  { apply is_number_spec. now rewrite float_of_Z_exact. }
  unfold mean. rewrite count_repeat, fill_zero_repeat by exact Hnum.
  destruct (Z.of_nat n =? 0) eqn:E0; [apply Z.eqb_eq in E0; lia |].
  rewrite <- map_repeat, fsum_exact.
  - rewrite zsum_repeat.
    destruct n as [| k]; [cbn in Hn; lia |].
    replace (Zpos v * Z.of_nat (S k)) with (Zpos (v * Pos.of_succ_nat k)) by lia.
    replace (Z.of_nat (S k)) with (Zpos (Pos.of_succ_nat k)) by lia.
    apply float_of_Z_ratio. lia.
  - apply Forall_forall. intros z Hz. apply repeat_spec in Hz. lia.
  - rewrite zsum_repeat. lia.
Qed.

(** The order of the additions shows in the mean: eight samples of 0.1,
    added in pairs, have the mean 0.1, which three of them, added from the
    left, have not; ten samples of 0.95 have not the mean 0.95. *)
Lemma pairwise_mean_examples :
  mean (repeat 0.1 8)%float = 0.1%float /\
  (mean (repeat 0.1 3) =? 0.1)%float = false /\
  (mean (repeat 0.95 10) =? 0.95)%float = false.
Proof. vm_compute. repeat split. Qed.

(** C7, as the code has it.  For every windowed frame, the reported
    stdev_range of the memory and of the cpu series is 100 times the number
    of samples [x] with [mean - stdev <= x <= mean + stdev] (bounds included)
    divided by the number of samples that are not missing, which is the
    number of samples when none is missing.  For a series of [n >= 2]
    samples of one finite value [c] whose mean, the pairwise sum of the
    samples divided by their number, comes out as [c], with [100 * n] below
    [2^53], the reported stdev is 0 and the stdev_range is 100.  The mean
    comes out as the value for every integer value [v >= 1] whose sum
    [v * n] is below [2^53]. *)
Theorem stdev_range_statistic (stats : DataFrame) (c : float) (n : nat) :
  (let memory := map memory_used stats in
   let m := get_memory_usage stats in
   mem_stdev_range m =
     int_true_divide
       (100 * Z.of_nat (List.length
                 (filter (fun x => (mem_mean m - mem_stdev m <=? x)%float
                                   && (x <=? mem_mean m + mem_stdev m)%float) memory)))
       (count memory)) /\
  (let cpu := map cpu_usr stats in
   let m := get_cpu_usage stats in
   cpu_stdev_range m =
     int_true_divide
       (100 * Z.of_nat (List.length
                 (filter (fun x => (cpu_mean m - cpu_stdev m <=? x)%float
                                   && (x <=? cpu_mean m + cpu_stdev m)%float) cpu)))
       (count cpu)) /\
  (is_finite c = true -> 2 <= Z.of_nat n -> 100 * Z.of_nat n < 2 ^ 53 ->
   mean (repeat c n) = c ->
   (map memory_used stats = repeat c n ->
      mem_stdev (get_memory_usage stats) = 0%float /\
      mem_stdev_range (get_memory_usage stats) = 100%float) /\
   (map cpu_usr stats = repeat c n ->
      cpu_stdev (get_cpu_usage stats) = 0%float /\
      cpu_stdev_range (get_cpu_usage stats) = 100%float)) /\
  (forall v : Z,
     1 <= v -> 1 <= Z.of_nat n -> v * Z.of_nat n < 2 ^ 53 ->
     mean (repeat (float_of_Z v) n) = float_of_Z v) /\
  (forall s : list float,
     (forall x, In x s -> is_number x) -> count s = Z.of_nat (List.length s)).
Proof.
  split; [| split; [| split; [| split]]].
  - cbn [get_memory_usage mem_stdev_range mem_mean mem_stdev].
    now rewrite count_between.
  - cbn [get_cpu_usage cpu_stdev_range cpu_mean cpu_stdev].
    now rewrite count_between.
  - intros Hc Hn Hb Hmean. split; intros Hs.
    + unfold get_memory_usage; cbn [mem_stdev mem_stdev_range]. rewrite Hs.
      split; [apply std_constant; try assumption; lia | now apply range_constant].
    + unfold get_cpu_usage; cbn [cpu_stdev cpu_stdev_range]. rewrite Hs.
      split; [apply std_constant; try assumption; lia | now apply range_constant].
  - intros v Hv Hn Hb. now apply mean_integer.
  - intros s Hs. unfold count, dropna. f_equal. f_equal.
    apply forallb_filter_id. apply forallb_forall. exact Hs.
Qed.

Lemma stdev_range_statistic_witness :
  mem_stdev (get_memory_usage (constant_frame 50 1001 10)) = 0%float /\
  mem_stdev_range (get_memory_usage (constant_frame 50 1001 10)) = 100%float.
Proof.
  apply (stdev_range_statistic (constant_frame 50 1001 10) 50 10).
  - reflexivity.
  - cbn; lia.
  - cbn; lia.
  - vm_compute. reflexivity.
  - reflexivity.
Defined.

(** C7 as the specification states it fails: a window of one sample has no
    deviation (NaN) and a stdev_range of 0; three samples of 0.1, whose mean
    is not 0.1 in binary64, have a deviation that is not 0. *)
Lemma constant_series_deviation :
  ~ (forall (stats : DataFrame) (c : float),
       stats <> [] -> map memory_used stats = repeat c (List.length stats) ->
       mem_stdev (get_memory_usage stats) = 0%float /\
       mem_stdev_range (get_memory_usage stats) = 100%float) /\
  ~ (forall (stats : DataFrame) (c : float),
       (2 <= List.length stats)%nat ->
       map memory_used stats = repeat c (List.length stats) ->
       mem_stdev (get_memory_usage stats) = 0%float).
Proof.
  split; intros H.
  - destruct (H (constant_frame 50 1001 1) 50%float) as [_ H2];
      [discriminate | reflexivity |].
    apply (f_equal (fun x => (x =? 100)%float)) in H2.
    vm_compute in H2. discriminate H2.
  - specialize (H (constant_frame 0.1 1001 3) 0.1%float).
    assert (H2 : mem_stdev (get_memory_usage (constant_frame 0.1 1001 3)) = 0%float)
      by (apply H; [cbn; lia | reflexivity]).
    apply (f_equal (fun x => (x =? 0)%float)) in H2.
    vm_compute in H2. discriminate H2.
Qed.

(** ** ResourceStatsCorrelator: the empty window *)

(** C8, as the code has it.  For a frame whose epochs increase and a window
    [s + 1 .. e] that holds no sample (the end lies before the start, or no
    timestamp falls in the range), the restricted frame is empty and the
    correlator returns, without raising, the summaries whose five statistics
    are all NaN. *)
Theorem empty_window_statistics (frame : DataFrame) (rpslat : RawSummary) :
  let start := (starttime rpslat + 1)%float in
  let end_ := endtime rpslat in
  is_monotonic_increasing (map epoch frame) = true ->
  is_number start ->
  ((end_ <? start)%float = true \/
   forall row, In row frame -> between start end_ (epoch row) = false) ->
  loc frame start end_ = [] /\
  get_memory_usage (loc frame start end_) = nan_memory /\
  get_cpu_usage (loc frame start end_) = nan_cpu.
Proof.
  intros start end_ Hm Hs Hempty.
  assert (Hloc : loc frame start end_ = []).
  { rewrite loc_is_filter by assumption. apply filter_none.
    intros row Hrow. destruct Hempty as [Hlt | Hout].
    - apply andb_false_iff.
      destruct (start <=? epoch row)%float eqn:E1; [right | now left].
      float_order.
    - exact (Hout row Hrow). }
  rewrite Hloc. repeat split.
Qed.

Lemma empty_window_statistics_witness :
  loc example_frame (2000 + 1)%float 2010 = [] /\
  get_memory_usage (loc example_frame (2000 + 1)%float 2010) = nan_memory /\
  get_cpu_usage (loc example_frame (2000 + 1)%float 2010) = nan_cpu.
Proof.
  apply (empty_window_statistics example_frame (run_between 2000 2010)).
  - reflexivity.
  - reflexivity.
  - right. intros row Hrow. cbn in Hrow.
    repeat (destruct Hrow as [<- | Hrow]; [reflexivity |]). contradiction.
Defined.

(** C8 as the specification states it fails: the outcome on an empty window
    is a summary (no error), and it is not the zero-valued one. *)
Lemma empty_window_not_zero :
  ~ (forall (frame : DataFrame) (rpslat : RawSummary),
       loc frame (starttime rpslat + 1)%float (endtime rpslat) = [] ->
       get_memory_usage (loc frame (starttime rpslat + 1)%float (endtime rpslat))
       = zero_memory).
Proof.
  intros H. specialize (H example_frame (run_between 2000 2010) eq_refl).
  apply (f_equal (fun m => (mem_mean m =? 0)%float)) in H.
  vm_compute in H. discriminate H.
Qed.

(** ** ResultAggregator *)

Lemma framework_results_app (disk : Disk) (a b : list (string * TestFiles)) :
  framework_results disk (a ++ b)%list =
    (ra <- framework_results disk a ;;
     rb <- framework_results disk b ;;
     Ok (ra ++ rb)%list).
Proof.
  induction a as [| [fw paths] a IH]; cbn [app framework_results].
  - destruct (framework_results disk b); reflexivity.
  - destruct (framework_summary disk fw paths) as [s | e]; [| reflexivity].
    cbn [bind]. rewrite IH.
    destruct (framework_results disk a) as [ra | e]; [| reflexivity].
    cbn [bind]. destruct (framework_results disk b) as [rb | e]; [| reflexivity].
    cbn [bind]. now destruct s.
Qed.

Lemma get_test_results_app (disk : Disk)
    (a b : list (string * list (string * TestFiles))) :
  get_test_results disk (a ++ b)%list =
    (ra <- get_test_results disk a ;;
     rb <- get_test_results disk b ;;
     Ok (ra ++ rb)%list).
Proof.
  induction a as [| [ty rows] a IH]; cbn [app get_test_results].
  - destruct (get_test_results disk b); reflexivity.
  - destruct (framework_results disk rows) as [r | e]; [| reflexivity].
    cbn [bind]. rewrite IH.
    destruct (get_test_results disk a) as [ra | e]; [| reflexivity].
    cbn [bind]. destruct (get_test_results disk b) as [rb | e]; reflexivity.
Qed.

(** C4, as the code has it.  A pair that fails verification, or whose raw
    log hits the abort condition, is excluded alone: the batch gives what it
    gives without the pair.  A pair that passes verification and whose raw
    log fails to parse is not skipped: once the pairs before it are done,
    the exception raised for its file leaves the aggregator, and the batch
    has no output. *)
Theorem best_effort_batch (disk : Disk)
    (tpre tpost : list (string * list (string * TestFiles)))
    (testtype framework : string) (paths : TestFiles)
    (pre post : list (string * TestFiles)) :
  let batch :=
    (tpre ++ (testtype, (pre ++ (framework, paths) :: post)%list) :: tpost)%list in
  let parsed := get_rps_and_latency (raw paths) (read disk (raw paths)) in
  (get_verification disk (verification paths) = false \/
   (get_verification disk (verification paths) = true /\ parsed = Ok None) ->
   get_test_results disk batch
   = get_test_results disk (tpre ++ (testtype, (pre ++ post)%list) :: tpost)%list) /\
  (forall e done acc,
     get_verification disk (verification paths) = true ->
     parsed = Raise e ->
     get_test_results disk tpre = Ok done ->
     framework_results disk pre = Ok acc ->
     get_test_results disk batch = Raise e).
Proof.
  intros batch parsed. subst batch. split.
  - intros Hskip.
    assert (Hs : framework_summary disk framework paths = Ok None).
    { unfold framework_summary. destruct Hskip as [-> | [-> Hp]]; [reflexivity |].
      cbn [negb]. fold parsed. now rewrite Hp. }
    rewrite !get_test_results_app. cbn [get_test_results].
    rewrite !framework_results_app. cbn [framework_results]. rewrite Hs.
    cbn [bind]. destruct (framework_results disk post); reflexivity.
  - intros e done acc Hv Hp Hdone Hacc.
    assert (Hs : framework_summary disk framework paths = Raise e).
    { unfold framework_summary. rewrite Hv. cbn [negb]. fold parsed. now rewrite Hp. }
    rewrite get_test_results_app, Hdone. cbn [bind get_test_results].
    rewrite framework_results_app, Hacc. cbn [bind framework_results].
    now rewrite Hs.
Qed.

Lemma best_effort_batch_witness :
  get_test_results example_disk [("json", [files_of "bad"; files_of "good"])]
  = Raise (Exception "Problem parsing bad/json/raw.txt").
Proof.
  apply (best_effort_batch example_disk [] [] "json" "bad" (snd (files_of "bad"))
           [] [files_of "good"])
    with (done := []) (acc := []).
  - reflexivity.
  - vm_compute; reflexivity.
  - reflexivity.
  - reflexivity.
Defined.

(** C4 as the specification states it fails: the batch of the framework
    whose log fails to parse and of a sound one gives no output, where
    leaving the first out gives the summary of the second. *)
Lemma parse_error_aborts_batch :
  ~ (forall (disk : Disk) (testtype framework : string) (paths : TestFiles)
            (pre post : list (string * TestFiles)) (e : exn),
       get_verification disk (verification paths) = true ->
       get_rps_and_latency (raw paths) (read disk (raw paths)) = Raise e ->
       get_test_results disk [(testtype, (pre ++ (framework, paths) :: post)%list)]
       = get_test_results disk [(testtype, (pre ++ post)%list)]).
Proof.
  intros H.
  specialize (H example_disk "json" "bad" (snd (files_of "bad")) [] [files_of "good"]
                (Exception "Problem parsing bad/json/raw.txt") eq_refl).
  assert (Hp : get_rps_and_latency (raw (snd (files_of "bad")))
                 (read example_disk (raw (snd (files_of "bad"))))
               = Raise (Exception "Problem parsing bad/json/raw.txt"))
    by (vm_compute; reflexivity).
  specialize (H Hp). vm_compute in H. discriminate H.
Qed.

(** A log without any timed section passes the splitter with no run to
    select from, and [max] raises on the empty sequence. *)
Lemma no_timed_section_raises :
  framework_summary
    {| read := fun path =>
         if String.eqb path "raw.txt" then "----
 Running Primer json
----
" else "   PASS for http://tfb-server:8080/json
";
       get_stats := fun _ => Ok example_frame |}
    "warmup-only"
    {| verification := "verification.txt"; stats := "stats.txt"; raw := "raw.txt" |}
  = Raise (ValueError "max() arg is an empty sequence").
Proof. vm_compute; reflexivity. Qed.

(** * Further properties of the code *)

(** ** SectionSplitter: the numbering and the text of the sections *)

Lemma dict_set_keys_old (d : dict) (k : Z) (v : string) :
  In k (keys d) -> keys (dict_set d k v) = keys d.
Proof.
  unfold keys. induction d as [| [k' v'] d IH]; cbn; [contradiction |].
  intros H. destruct (k' =? k) eqn:E; [reflexivity |].
  cbn. f_equal. apply IH. destruct H as [H | H]; [| exact H].
  apply Z.eqb_neq in E. contradiction.
Qed.

Lemma dict_set_keys_new (d : dict) (k : Z) (v : string) :
  ~ In k (keys d) -> keys (dict_set d k v) = (keys d ++ [k])%list.
Proof.
  unfold keys. induction d as [| [k' v'] d IH]; cbn; [reflexivity |].
  intros H. destruct (k' =? k) eqn:E.
  - apply Z.eqb_eq in E. tauto.
  - cbn. f_equal. apply IH. tauto.
Qed.

Lemma dict_get_in (d : dict) (k : Z) (v : string) :
  dict_get d k = Ok v -> In k (keys d).
Proof.
  unfold keys. induction d as [| [k' v'] d IH]; cbn; [discriminate |].
  destruct (k' =? k) eqn:E; [apply Z.eqb_eq in E; auto | auto].
Qed.

Lemma in_numbers (k : Z) (n : nat) :
  In k (map Z.of_nat (seq 1 n)) <-> 1 <= k <= Z.of_nat n.
Proof.
  rewrite in_map_iff. split.
  - intros (i & <- & Hi). apply in_seq in Hi. lia.
  - intros H. exists (Z.to_nat k). split; [lia |]. apply in_seq. lia.
Qed.

Lemma seq_snoc (n : nat) :
  map Z.of_nat (seq 1 (S n)) = (map Z.of_nat (seq 1 n) ++ [Z.of_nat n + 1])%list.
Proof.
  rewrite seq_S, map_app. cbn [map]. do 2 f_equal. lia.
Qed.

(** One turn of the loop keeps the numbering. *)
Lemma split_line_opened (n : nat) (st st' : splitter) (l : string) :
  opened n st -> split_line st l = Ok (Some st') ->
  opened (if is_delimiter l && negb (inheader st) then S n else n) st'.
Proof.
  intros [Hs Hk] H. destruct (is_delimiter l) eqn:Hd.
  - rewrite (split_line_delimiter _ _ Hd) in H. injection H as <-.
    destruct (inheader st); cbn [andb negb]; split; cbn [section text_sections]; auto.
    + lia.
    + rewrite dict_set_keys_new, Hk, Hs, seq_snoc; [reflexivity |].
      rewrite Hk, in_numbers. lia.
  - cbn [andb]. destruct (inheader st || startswith (strip l) "Running") eqn:Hr.
    + rewrite (split_line_skipped _ _ Hd Hr) in H. injection H as <-. now split.
    + destruct (abort_marker (strip l)) eqn:Ha.
      * rewrite (split_line_abort _ _ Hd Hr Ha) in H. discriminate.
      * rewrite (split_line_append _ _ Hd Hr Ha) in H.
        apply bind_Ok_inv in H as (old & Hold & H). injection H as <-.
        split; cbn [section text_sections]; auto. rewrite dict_set_keys_old; auto.
        eapply dict_get_in; eauto.
Qed.

Lemma split_lines_opened (lines : list string) :
  forall n st d,
    opened n st -> split_lines st lines = Ok (Some d) ->
    keys d = map Z.of_nat (seq 1 (n + openings (inheader st) lines)).
Proof.
  induction lines as [| l rest IH]; intros n st d Ho H; cbn [split_lines openings] in *.
  - injection H as <-. rewrite Nat.add_0_r. apply Ho.
  - apply bind_Ok_inv in H as (r & Hl & H). destruct r as [st' |]; [| discriminate].
    pose proof (split_line_opened _ _ _ _ Ho Hl) as Ho'.
    rewrite (IH _ _ _ Ho' H). f_equal. f_equal.
    destruct (is_delimiter l) eqn:Hd.
    + rewrite (split_line_delimiter _ _ Hd) in Hl. injection Hl as <-.
      destruct (inheader st); cbn; lia.
    + cbn [andb]. f_equal.
      destruct (inheader st || startswith (strip l) "Running") eqn:Hr.
      * rewrite (split_line_skipped _ _ Hd Hr) in Hl. now injection Hl as <-.
      * destruct (abort_marker (strip l)) eqn:Ha.
        -- rewrite (split_line_abort _ _ Hd Hr Ha) in Hl. discriminate.
        -- rewrite (split_line_append _ _ Hd Hr Ha) in Hl.
           apply bind_Ok_inv in Hl as (old & Hold & Hl). now injection Hl as <-.
Qed.

Lemma openings_count (lines : list string) :
  forall inheader,
    openings inheader lines
    = Nat.div2 ((if inheader then 0 else 1) + List.length (filter is_delimiter lines)).
Proof.
  induction lines as [| l rest IH]; intros h; cbn [openings filter].
  - now destruct h.
  - destruct (is_delimiter l); [| apply IH].
    rewrite IH. cbn [List.length]. destruct h; cbn [negb]; [| reflexivity].
    cbn. reflexivity.
Qed.

(** The sections of a log are numbered from 1, one for every other
    delimiter line. *)
Theorem sections_numbered (text : string) (d : dict) :
  split_sections text = Ok (Some d) ->
  keys d = map Z.of_nat (seq 1 (List.length d)) /\
  List.length d = Nat.div2 (S (List.length (filter is_delimiter (readlines text)))).
Proof.
  intros H. unfold split_sections in H.
  assert (Ho : opened 0 splitter0) by (split; reflexivity).
  pose proof (split_lines_opened _ _ _ _ Ho H) as Hk. cbn [inheader splitter0 Nat.add] in Hk.
  assert (Hlen : List.length d = openings false (readlines text)).
  { apply (f_equal (@List.length Z)) in Hk. unfold keys in Hk.
    now rewrite !length_map, length_seq in Hk. }
  split.
  - now rewrite Hlen.
  - rewrite Hlen. apply openings_count.
Qed.

Lemma sections_numbered_witness :
  keys good_sections = map Z.of_nat (seq 1 (List.length good_sections)) /\
  List.length good_sections
  = Nat.div2 (S (List.length (filter is_delimiter (readlines good_log)))).
Proof. apply (sections_numbered good_log good_sections). vm_compute. reflexivity. Defined.

Lemma dict_set_new (d : dict) (k : Z) (v : string) :
  ~ In k (keys d) -> dict_set d k v = (d ++ [(k, v)])%list.
Proof.
  unfold keys. induction d as [| [k' v'] d IH]; cbn; [reflexivity |].
  intros H. destruct (k' =? k) eqn:E.
  - apply Z.eqb_eq in E. tauto.
  - f_equal. apply IH. tauto.
Qed.

Lemma join_app (a b : list string) : join (a ++ b) = join a ++ join b.
Proof.
  unfold join. induction a as [| x a IH]; cbn; [reflexivity |].
  now rewrite IH, append_assoc.
Qed.

(** Writing to the entry that was inserted last adds to the end of the
    text. *)
Lemma dict_set_last (d : dict) (ks : list Z) (k : Z) (old x : string) :
  keys d = (ks ++ [k])%list -> ~ In k ks -> dict_get d k = Ok old ->
  all_text (dict_set d k (old ++ x)) = all_text d ++ x.
Proof.
  unfold all_text, keys. revert ks.
  induction d as [| [k' v'] d IH]; intros ks Hk Hn Hg; cbn in *; [discriminate |].
  destruct (k' =? k) eqn:E.
  - apply Z.eqb_eq in E. subst k'. injection Hg as ->.
    destruct ks as [| a ks]; cbn in Hk.
    + injection Hk as Hk. destruct d; [| discriminate].
      cbn. now rewrite !append_nil_r.
    + injection Hk as <- _. cbn in Hn. tauto.
  - destruct ks as [| a ks]; cbn in Hk.
    + injection Hk as -> _. apply Z.eqb_neq in E. contradiction.
    + injection Hk as <- Hk. cbn [map join fold_right snd].
      fold (join (map snd (dict_set d k (old ++ x)))). fold (join (map snd d)).
      rewrite (IH ks); auto.
      * now rewrite append_assoc.
      * cbn in Hn. tauto.
Qed.

Lemma numbers_last (n : nat) :
  (1 <= n)%nat ->
  map Z.of_nat (seq 1 n) = (map Z.of_nat (seq 1 (n - 1)) ++ [Z.of_nat n])%list
  /\ ~ In (Z.of_nat n) (map Z.of_nat (seq 1 (n - 1))).
Proof.
  intros H. destruct n as [| n]; [lia |]. split.
  - rewrite seq_snoc. replace (S n - 1)%nat with n by lia. do 2 f_equal. lia.
  - rewrite in_numbers. lia.
Qed.

(** What a scan from an opened state leaves in the dict: the text it had,
    followed by the body lines in the order of the log. *)
Lemma split_lines_text (lines : list string) :
  forall n st d,
    opened n st -> split_lines st lines = Ok (Some d) ->
    all_text d
    = all_text (text_sections st)
      ++ join (map accumulated (body_lines (inheader st) lines)).
Proof.
  induction lines as [| l rest IH]; intros n st d Ho H; cbn [split_lines body_lines] in *.
  - injection H as <-. cbn. now rewrite append_nil_r.
  - apply bind_Ok_inv in H as (r & Hl & H). destruct r as [st' |]; [| discriminate].
    pose proof (split_line_opened _ _ _ _ Ho Hl) as Ho'.
    rewrite (IH _ _ _ Ho' H). destruct Ho as [Hs Hk].
    destruct (is_delimiter l) eqn:Hd.
    + rewrite (split_line_delimiter _ _ Hd) in Hl. injection Hl as <-.
      destruct (inheader st); cbn [negb inheader text_sections]; [reflexivity |].
      rewrite dict_set_new by (rewrite Hk, in_numbers; lia).
      unfold all_text. rewrite map_app, join_app. cbn. now rewrite append_nil_r.
    + destruct (inheader st || startswith (strip l) "Running") eqn:Hr.
      * rewrite (split_line_skipped _ _ Hd Hr) in Hl. now injection Hl as <-.
      * destruct (abort_marker (strip l)) eqn:Ha.
        -- rewrite (split_line_abort _ _ Hd Hr Ha) in Hl. discriminate.
        -- rewrite (split_line_append _ _ Hd Hr Ha) in Hl.
           apply bind_Ok_inv in Hl as (old & Hold & Hl). injection Hl as <-.
           cbn [inheader text_sections map join fold_right].
           fold (join (map accumulated (body_lines (inheader st) rest))).
           assert (Hn : (1 <= n)%nat).
           { apply dict_get_in in Hold. rewrite Hk, in_numbers in Hold. lia. }
           destruct (numbers_last n Hn) as [Hlast Hnot].
           rewrite Hs in *. rewrite Hlast in Hk.
           rewrite (dict_set_last _ _ _ _ _ Hk Hnot Hold).
           rewrite append_assoc. reflexivity.
Qed.

(** The text of the sections, put together, is the lines of the log outside
    its headers that do not start with dashes or [Running], in the order of
    the log: each stripped, after a blank and before a semicolon and a line
    break.  No line is left out for being blank. *)
Theorem sections_hold_body_lines (text : string) (d : dict) :
  split_sections text = Ok (Some d) ->
  all_text d = join (map accumulated (body_lines false (readlines text))).
Proof.
  intros H. unfold split_sections in H.
  assert (Ho : opened 0 splitter0) by (split; reflexivity).
  now rewrite (split_lines_text _ _ _ _ Ho H).
Qed.

Lemma sections_hold_body_lines_witness :
  all_text good_sections = join (map accumulated (body_lines false (readlines good_log))).
Proof.
  apply (sections_hold_body_lines good_log good_sections). vm_compute. reflexivity.
Defined.

(** Once the current section has its accumulator, the scan raises nothing. *)
Lemma split_lines_keyed_total (lines : list string) :
  forall st,
    has_key (text_sections st) (section st) ->
    exists r, split_lines st lines = Ok r.
Proof.
  induction lines as [| l rest IH]; intros st Hkey; cbn [split_lines]; [eauto |].
  destruct (is_delimiter l) eqn:Hd.
  - rewrite (split_line_delimiter _ _ Hd); cbn [bind].
    destruct (inheader st); apply IH; cbn [section text_sections]; auto.
    apply has_key_set.
  - destruct (inheader st || startswith (strip l) "Running") eqn:Hs.
    + rewrite (split_line_skipped _ _ Hd Hs); cbn [bind]. now apply IH.
    + destruct (abort_marker (strip l)) eqn:Ha.
      * rewrite (split_line_abort _ _ Hd Hs Ha). cbn. eauto.
      * rewrite (split_line_append _ _ Hd Hs Ha).
        destruct Hkey as [old Hold]; rewrite Hold; cbn [bind].
        apply IH; cbn [section text_sections]. apply has_key_set.
Qed.

Lemma split_sections_raise (text : string) (e : exn) :
  split_sections text = Raise e ->
  e = KeyError 0 /\ body_lines false (preamble (readlines text)) <> [].
Proof.
  unfold split_sections. induction (readlines text) as [| l rest IH];
    cbn [split_lines preamble body_lines]; [discriminate |].
  destruct (is_delimiter l) eqn:Hd.
  - rewrite (split_line_delimiter _ _ Hd); cbn [bind inheader splitter0].
    intros H.
    destruct (split_lines_keyed_total rest
                {| section := section splitter0 + 1; inheader := true;
                   text_sections := dict_set (text_sections splitter0)
                                      (section splitter0 + 1) "" |}) as [r Hr].
    + cbn [section text_sections]. apply has_key_set.
    + rewrite Hr in H. discriminate.
  - cbn [body_lines]. rewrite Hd.
    destruct (inheader splitter0 || startswith (strip l) "Running") eqn:Hs.
    + rewrite (split_line_skipped _ _ Hd Hs); cbn [bind].
      change (inheader splitter0) with false in Hs. cbn [orb] in Hs.
      cbn [orb]. rewrite Hs. exact IH.
    + change (inheader splitter0) with false in Hs. cbn [orb] in Hs.
      cbn [orb]. rewrite Hs.
      destruct (abort_marker (strip l)) eqn:Ha.
      * rewrite (split_line_abort _ _ Hd); auto. discriminate.
      * rewrite (split_line_append _ _ Hd); auto. cbn.
        intros [= <-]. split; [reflexivity | discriminate].
Qed.

(** The splitter raises nothing but the [KeyError] for section 0, and that
    only for a log with a body line in front of its first delimiter: a line
    outside the headers that starts neither with dashes nor with
    [Running]. *)
Theorem splitter_raises_only_keyerror (text : string) (e : exn) :
  split_sections text = Raise e ->
  e = KeyError 0 /\ body_lines false (preamble (readlines text)) <> [].
Proof. apply split_sections_raise. Qed.

Lemma splitter_raises_only_keyerror_witness :
  KeyError 0 = KeyError 0 /\ body_lines false (preamble (readlines headless_log)) <> [].
Proof.
  apply (splitter_raises_only_keyerror headless_log (KeyError 0)). vm_compute. reflexivity.
Defined.

(** The runs of the second loop are the summaries of the sections that
    hold [STARTTIME], in the order of the sections. *)
Lemma parse_sections_timed (filename : string) (p : ParserElement) (d : dict) :
  forall runs,
    parse_sections filename p d = Ok runs ->
    Forall2 (fun kv r => parse_section p (snd kv) = Ok r) (timed d) runs.
Proof.
  unfold timed. induction d as [| [k v] d IH]; intros runs H; cbn [parse_sections filter snd] in *.
  - injection H as <-. constructor.
  - destruct (contains v "STARTTIME") eqn:E; cbn [negb] in H; [| now apply IH].
    destruct (parse_section p v) as [r | e] eqn:Hp; [| discriminate].
    apply bind_Ok_inv in H as (rs & Hrs & H). injection H as <-.
    constructor; [exact Hp | now apply IH].
Qed.

(** ** The sign of the numbers binary64 rounds to *)

Lemma shr_1_nonneg (mrs : shr_record) : 0 <= shr_m mrs -> 0 <= shr_m (shr_1 mrs).
Proof.
  destruct mrs as [m r s]. cbn [shr_m]. intros H.
  destruct m as [| [p | p |] | p]; cbn; lia.
Qed.

Lemma iter_shr_nonneg (k : nat) (mrs : shr_record) :
  0 <= shr_m mrs -> 0 <= shr_m (Nat.iter k shr_1 mrs).
Proof.
  intros H. induction k as [| k IH]; [exact H |].
  cbn [Nat.iter]. now apply shr_1_nonneg.
Qed.

Lemma shr_fexp_nonneg (m e : Z) (l : location) :
  0 <= m -> 0 <= shr_m (fst (shr_fexp prec emax m e l)).
Proof.
  intros H. unfold shr_fexp, shr.
  assert (H0 : 0 <= shr_m (shr_record_of_loc m l)) by (now destruct l as [| []]).
  destruct (fexp prec emax (Zdigits2 m + e) - e) as [| p | p]; cbn [fst]; auto.
  rewrite iter_pos_nat. now apply iter_shr_nonneg.
Qed.

Lemma round_nearest_even_nonneg (m : Z) (l : location) :
  0 <= m -> 0 <= round_nearest_even m l.
Proof.
  intros H. unfold round_nearest_even.
  destruct l as [| []]; try destruct (IntDef.Z.even m); lia.
Qed.

(** Rounding a non-negative mantissa under a clear sign bit. *)
Lemma binary_round_aux_nonneg (m e : Z) (l : location) :
  0 <= m -> sf_nonneg (binary_round_aux prec emax false m e l) = true.
Proof.
  intros H. unfold binary_round_aux.
  pose proof (shr_fexp_nonneg m e l H) as H1.
  destruct (shr_fexp prec emax m e l) as [mrs' e']. cbn [fst] in H1.
  pose proof (shr_fexp_nonneg _ e' loc_Exact
                (round_nearest_even_nonneg _ (loc_of_shr_record mrs') H1)) as H2.
  destruct (shr_fexp prec emax _ e' loc_Exact) as [mrs'' e'']. cbn [fst] in H2.
  destruct (shr_m mrs'') as [| p | p]; [reflexivity | | lia].
  now destruct (e'' <=? emax - prec).
Qed.

Lemma binary_round_nonneg (m : positive) (e : Z) :
  sf_nonneg (binary_round prec emax false m e) = true.
Proof.
  unfold binary_round.
  destruct (shl_align m e (fexp prec emax (Z.pos (digits2_pos m) + e))) as [mz ez].
  apply binary_round_aux_nonneg. lia.
Qed.

Lemma SFdiv_nonneg (a b : positive) (ea eb : Z) :
  sf_nonneg (SFdiv prec emax (S754_finite false a ea) (S754_finite false b eb)) = true.
Proof.
  unfold SFdiv, SFdiv_core_binary. cbn [xorb].
  set (m' := match ea - eb - _ with 0 => Z.pos a | Z.pos _ => _ | Z.neg _ => 0 end).
  assert (Hm : 0 <= m').
  { subst m'. destruct (ea - eb - _) as [| s | s]; [lia | | lia].
    change IntDef.Z.shiftl with Z.shiftl. apply Z.shiftl_nonneg. lia. }
  change IntDef.Z.div_eucl with Z.div_eucl.
  rewrite (surjective_pairing (Z.div_eucl m' (Z.pos b))).
  change (fst (Z.div_eucl ?x ?y)) with (x / y).
  apply binary_round_aux_nonneg. apply Z.div_pos; lia.
Qed.

Lemma SFmul_nonneg (x : spec_float) (m : positive) (e : Z) :
  sf_nonneg x = true ->
  sf_nonneg (SFmul prec emax x (S754_finite false m e)) = true /\
  sf_nonneg (SFmul prec emax (S754_finite false m e) x) = true.
Proof.
  destruct x as [[] | [] | | [] mx ex]; try discriminate; intros _; cbn [SFmul xorb];
    split; try reflexivity; apply binary_round_aux_nonneg; lia.
Qed.

Lemma SF2Prim_nonneg (x : spec_float) :
  sf_nonneg x = true -> nonneg (SF2Prim x).
Proof.
  unfold nonneg.
  destruct x as [[] | [] | | [] m e]; try discriminate; intros _; try reflexivity.
  unfold SF2Prim, Z.ldexp. rewrite ldshiftexp_spec, of_uint63_spec.
  pose proof (Uint63.to_Z_bounded (Uint63Axioms.of_Z (Z.pos m))) as [Hlo _].
  change Uint63.to_Z with Uint63Axioms.to_Z in Hlo.
  destruct (Uint63Axioms.to_Z (Uint63Axioms.of_Z (Z.pos m))) as [| p | p];
    [reflexivity | | lia].
  cbn [binary_normalize].
  pose proof (binary_round_nonneg p 0) as Hn.
  destruct (binary_round prec emax false p 0) as [[] | [] | | [] mx ex];
    try discriminate; try reflexivity.
  cbn [SFldexp]. apply binary_round_nonneg.
Qed.

(** A number with the sign bit clear is at least zero; so it is not NaN. *)
Lemma nonneg_leb (x : float) : nonneg x -> (0 <=? x)%float = true.
Proof.
  unfold nonneg. rewrite leb_spec. change (Prim2SF 0) with (S754_zero false).
  now destruct (Prim2SF x) as [[] | [] | | [] m e].
Qed.

Lemma nonneg_zero : nonneg 0.
Proof. reflexivity. Qed.

Lemma float_of_decimal_nonneg (m e : Z) : 0 <= m -> nonneg (float_of_decimal false m e).
Proof.
  intros H. unfold float_of_decimal. destruct m as [| p | p]; [reflexivity | | lia].
  apply SF2Prim_nonneg, SFdiv_nonneg.
Qed.

Lemma mul_nonneg_r (x c : float) (m : positive) (e : Z) :
  Prim2SF c = S754_finite false m e -> nonneg x -> nonneg (x * c).
Proof.
  unfold nonneg. intros Hc Hx. rewrite mul_spec, Hc.
  now apply SFmul_nonneg.
Qed.

Lemma mul_nonneg_l (x c : float) (m : positive) (e : Z) :
  Prim2SF c = S754_finite false m e -> nonneg x -> nonneg (c * x).
Proof.
  unfold nonneg. intros Hc Hx. rewrite mul_spec, Hc.
  now apply SFmul_nonneg.
Qed.

(** ** [float()] and [int()] on the tokens of the grammar *)

Lemma digit_val_nonneg (c : ascii) : is_digit c = true -> 0 <= digit_val c.
Proof.
  unfold is_digit, digit_val. intros H. apply andb_true_iff in H as [H _].
  apply Z.leb_le in H. lia.
Qed.

Lemma digits_val_nonneg (s : string) :
  all_chars is_digit s = true -> forall acc, 0 <= acc -> 0 <= digits_val acc s.
Proof.
  induction s as [| c s IH]; cbn [all_chars digits_val]; intros H acc Hacc; [exact Hacc |].
  apply andb_true_iff in H as [Hc Hs]. apply IH; auto.
  pose proof (digit_val_nonneg _ Hc) as Hv. lia.
Qed.

Lemma digit_not_special (c : ascii) :
  is_digit c = true ->
  Ascii.eqb (lower c) "i" = false /\ Ascii.eqb (lower c) "n" = false.
Proof.
  destruct c as [[] [] [] [] [] [] [] []]; vm_compute; intros H;
    first [discriminate H | split; reflexivity].
Qed.

Lemma digitpart_stop (ip r : string) :
  all_chars is_digit ip = true -> r = "" \/ (exists r', r = String "." r') ->
  forall b, digitpart b (ip ++ r) = (ip, r).
Proof.
  intros Hip Hr. induction ip as [| c ip IH]; intros b.
  - cbn [append]. destruct Hr as [-> | [r' ->]]; [reflexivity |].
    cbn. now rewrite andb_false_r.
  - cbn [append digitpart]. cbn [all_chars] in Hip.
    apply andb_true_iff in Hip as [-> Hs]. now rewrite IH.
Qed.

(** [float()] reads every token of [Floating], and reads a number with the
    sign bit clear. *)
Lemma py_float_decimal (tok : string) :
  decimal_token tok = true -> exists x, py_float tok = Ok x /\ nonneg x.
Proof.
  intros H. destruct (decimal_token_head _ H) as (c & t & Etok & Hc).
  destruct (decimal_token_inv _ H) as (ip & Hip & Htok).
  destruct (integer_token_inv _ Hip) as (ci & ipt & Eip & Hci & Hall).
  assert (Hstrip : strip tok = tok).
  { unfold strip. rewrite Etok at 1. cbn [lstrip].
    destruct (digit_classes _ Hc) as (_ & _ & -> & _). rewrite <- Etok.
    apply rstrip_no_space.
    assert (Hd : forall a, is_digit a = true -> negb (py_isspace a) = true).
    { intros a Ha. destruct (digit_classes _ Ha) as (_ & _ & -> & _). reflexivity. }
    destruct Htok as [-> | (fp & Hfp & ->)].
    - revert Hall. now apply all_chars_impl.
    - destruct (integer_token_inv _ Hfp) as (cf & fpt & _ & _ & Hallf).
      rewrite !all_chars_app. cbn [all_chars].
      rewrite (all_chars_impl _ _ _ Hd Hall), (all_chars_impl _ _ _ Hd Hallf).
      reflexivity. }
  assert (Hword : forall w, String.eqb (lowercase tok) (String "i" w) = false /\
                            String.eqb (lowercase tok) (String "n" w) = false).
  { intros w. rewrite Etok. cbn [lowercase String.eqb].
    destruct (digit_not_special _ Hc) as [-> ->]. now split. }
  assert (Hsign : sign_of tok = (false, tok))
    by (rewrite Etok; now apply sign_of_digit).
  unfold py_float. rewrite Hstrip, Hsign. cbv zeta.
  change "inf" with (String "i" "nf"). change "infinity" with (String "i" "nfinity").
  change "nan" with (String "n" "an").
  rewrite (proj1 (Hword "nf")), (proj1 (Hword "nfinity")), (proj2 (Hword "an")).
  cbn [orb]. destruct Htok as [-> | (fp & Hfp & ->)].
  - rewrite digitpart_all_digits by exact Hall.
    rewrite Eip. cbn [String.length Nat.add Nat.eqb]. rewrite <- Eip.
    eexists. split; [reflexivity |].
    apply float_of_decimal_nonneg. apply digits_val_nonneg; [| lia].
    now rewrite append_nil_r.
  - destruct (integer_token_inv _ Hfp) as (cf & fpt & Efp & Hcf & Hallf).
    rewrite (digitpart_stop ip ("." ++ fp)) by (auto; right; now exists fp).
    change ("." ++ fp) with (String "." fp). cbv iota.
    rewrite digitpart_all_digits by exact Hallf.
    assert (Hlen : (String.length ip + String.length fp =? 0)%nat = false)
      by (rewrite Eip; reflexivity).
    rewrite Hlen.
    eexists. split; [reflexivity |].
    apply float_of_decimal_nonneg. apply digits_val_nonneg; [| lia].
    now rewrite all_chars_app, Hall, Hallf.
Qed.

Lemma span_all (p : ascii -> bool) (s : string) :
  all_chars p s = true -> span p s = (s, "").
Proof.
  intros H. rewrite <- (append_nil_r s) at 1. now apply span_app_stops.
Qed.

Lemma integer_is_decimal (d : string) : integer_token d = true -> decimal_token d = true.
Proof.
  intros H. destruct (integer_token_inv _ H) as (c & t & E & Hc & Hall).
  unfold decimal_token. rewrite (span_all _ _ Hall).
  unfold integer_token in H. apply andb_true_iff in H as [-> _]. reflexivity.
Qed.

(** [int()] reads every token of [Integer], and reads a number that is not
    negative. *)
Lemma py_int_integer (d : string) :
  integer_token d = true -> exists n, py_int d = Ok n /\ 0 <= n.
Proof.
  intros H. destruct (integer_token_inv _ H) as (c & t & E & Hc & Hall).
  subst d.
  unfold py_int. rewrite strip_integer_token, sign_of_digit by assumption.
  rewrite digitpart_all_digits by assumption.
  eexists. split; [reflexivity |]. apply digits_val_nonneg; [exact Hall | lia].
Qed.

(** Parsing raises [ParseException] and nothing else, and returns tokens
    the element can give. *)
Lemma parse_sound (e : ParserElement) :
  forall ws s,
    match parse ws e s with
    | Ok (t, _) => produces e t
    | Raise x => x = ParseException
    end.
Proof.
  induction e as [lit | chars | a IHa b IHb | a IH | a IH | a IH]; intros ws s;
    cbn [parse].
  - destruct (drop_prefix lit (preParse ws s)); [constructor | reflexivity].
  - destruct (span chars (preParse ws s)) as [w r] eqn:Hs.
    destruct (span_spec _ _ _ _ Hs) as (_ & Hw & _).
    destruct w as [| c w]; [reflexivity |]. now constructor.
  - specialize (IHa ws s). destruct (parse ws a s) as [[ta r1] | x]; [| exact IHa].
    cbn [bind]. specialize (IHb ws r1).
    destruct (parse ws b r1) as [[tb r2] | x]; [| exact IHb].
    cbn [bind]. now constructor.
  - specialize (IH ws (preParse ws s)).
    destruct (parse ws a (preParse ws s)) as [[ta r] | x].
    + now apply produces_Optional_some.
    + constructor.
  - specialize (IH ws s). destruct (parse ws a s) as [[ta r] | x]; [| exact IH].
    cbn [bind]. now constructor.
  - specialize (IH false (preParse ws s)).
    destruct (parse false a (preParse ws s)) as [[ta r] | x]; [| exact IH].
    cbn [bind]. now constructor.
Qed.

Lemma produces_Integer (t : list tok) :
  produces Integer t -> exists d, t = [Str d] /\ integer_token d = true.
Proof.
  unfold Integer. inversion 1; subst. exists w. split; [reflexivity |].
  unfold integer_token, nums in *. now apply andb_true_iff.
Qed.

Lemma produces_Floating (t : list tok) :
  produces Floating t -> exists num, t = [Str num] /\ decimal_token num = true.
Proof.
  unfold Floating. intros H.
  inversion H as [ | | | | | | a ta Ha]; subst; clear H.
  inversion Ha as [ | | a b t1 t2 H1 H2 | | | | ]; subst; clear Ha.
  inversion H1 as [ | chars ip Hne Hall | | | | | ]; subst; clear H1.
  unfold nums in Hall.
  inversion H2 as [ | | | a | a t2' H2' | | ]; subst; clear H2.
  - exists ip. split; [reflexivity |].
    unfold decimal_token. rewrite (span_all _ _ Hall). now rewrite Hne.
  - inversion H2' as [ | | | | | | a t3 H3]; subst; clear H2'.
    inversion H3 as [ | | a b t4 t5 H4 H5 | | | | ]; subst; clear H3.
    inversion H4; subst; clear H4.
    inversion H5 as [ | chars fp Hnef Hallf | | | | | ]; subst; clear H5.
    unfold nums in Hallf.
    exists (ip ++ "." ++ fp). split.
    + reflexivity.
    + unfold decimal_token. rewrite (span_app_stops _ ip ("." ++ fp)) by (auto).
      rewrite Hne. cbn. unfold integer_token. now rewrite Hnef, Hallf.
Qed.

Lemma produces_FloatUnit (t : list tok) :
  produces FloatUnit t -> exists g, t = [g] /\ is_float_unit g = true.
Proof.
  unfold FloatUnit. intros H.
  inversion H as [ | | | | | a ta Ha | ]; subst; clear H.
  inversion Ha as [ | | a b t1 t2 H1 H2 | | | | ]; subst; clear Ha.
  apply produces_Floating in H1 as (num & -> & Hnum).
  inversion H2 as [ | | | a | a t2' H2' | | ]; subst; clear H2.
  - eexists. split; [reflexivity |]. exact Hnum.
  - inversion H2' as [ | chars u Hne Hall | | | | | ]; subst; clear H2'.
    eexists. split; [reflexivity |]. cbn. rewrite Hnum. unfold alpha_token, alphas in *.
    now rewrite Hne, Hall.
Qed.

Lemma produces_Percent (t : list tok) :
  produces Percent t -> exists g, t = [g] /\ is_percent g = true.
Proof.
  unfold Percent. intros H.
  inversion H as [ | | | | | a ta Ha | ]; subst; clear H.
  inversion Ha as [ | | a b t1 t2 H1 H2 | | | | ]; subst; clear Ha.
  apply produces_Floating in H1 as (num & -> & Hnum).
  inversion H2; subst; clear H2.
  eexists. split; [reflexivity |]. cbn. now rewrite Hnum.
Qed.

Lemma is_float_unit_inv (g : tok) :
  is_float_unit g = true ->
  exists num, decimal_token num = true /\
    (g = Grp [Str num] \/ exists u, alpha_token u = true /\ g = Grp [Str num; Str u]).
Proof.
  destruct g as [s | [| [num | ?] [| [u | ?] [| ? ?]]]]; cbn; try discriminate.
  - intros H. exists num. auto.
  - intros H. apply andb_true_iff in H as [Hn Hu]. exists num. split; [exact Hn |].
    right. now exists u.
Qed.

Lemma is_percent_inv (g : tok) :
  is_percent g = true ->
  exists num, decimal_token num = true /\ g = Grp [Str num; Str "%"].
Proof.
  destruct g as [s | [| [num | ?] [| [u | ?] [| ? ?]]]]; cbn; try discriminate.
  intros H. apply andb_true_iff in H as [Hn Hu]. apply String.eqb_eq in Hu as ->.
  now exists num.
Qed.

Lemma thousand_nonneg (x : float) : nonneg x -> nonneg (x * 1e3).
Proof. apply (mul_nonneg_r x 1e3 8796093022208000 (-43)). reflexivity. Qed.

Lemma thousandth_nonneg (x : float) : nonneg x -> nonneg (x * 1e-3).
Proof. apply (mul_nonneg_r x 1e-3 4611686018427388 (-62)). reflexivity. Qed.

Lemma millionth_nonneg (x : float) : nonneg x -> nonneg (x * 1e-6).
Proof. apply (mul_nonneg_r x 1e-6 4722366482869645 (-72)). reflexivity. Qed.

Lemma seconds_nonneg (x : float) : nonneg x -> nonneg (1e-3 * x).
Proof. apply (mul_nonneg_l x 1e-3 4611686018427388 (-62)). reflexivity. Qed.

(** [no_units] on the tokens of a [FloatUnit]: a number with the sign bit
    clear, or the [ValueError] of a unit that is not in its table. *)
Lemma float_unit_outcome (g : tok) :
  is_float_unit g = true ->
  (exists x, no_units_tok g = Ok x /\ nonneg x) \/
  (exists u, alpha_token u = true /\
             no_units_tok g = Raise (ValueError ("Unknown unit: " ++ u))).
Proof.
  intros H. destruct (is_float_unit_inv _ H) as (num & Hnum & Hg).
  destruct (py_float_decimal _ Hnum) as (x & Hx & Hpos).
  destruct Hg as [-> | (u & Hu & ->)]; unfold no_units_tok; cbn [elements mapM str_tok bind].
  - left. exists x. split; [now apply no_units_bare | exact Hpos].
  - rewrite (no_units_suffix _ u _ Hx).
    repeat match goal with
           | |- context [if String.eqb u ?s then _ else _] => destruct (String.eqb u s)
           end;
      try (left; eexists; split; [reflexivity |];
           auto using thousand_nonneg, thousandth_nonneg, millionth_nonneg).
    right. now exists u.
Qed.

Lemma percent_outcome (g : tok) :
  is_percent g = true -> exists x, no_units_tok g = Ok x /\ nonneg x.
Proof.
  intros H. destruct (is_percent_inv _ H) as (num & Hnum & ->).
  destruct (py_float_decimal _ Hnum) as (x & Hx & Hpos).
  exists x. split; [| exact Hpos].
  unfold no_units_tok; cbn [elements mapM str_tok bind]. now apply no_units_percent.
Qed.

Ltac inv_produces :=
  repeat match goal with
         | H : produces Integer _ |- _ =>
             let d := fresh "d" in let Hd := fresh "Hd" in
             apply produces_Integer in H as (d & -> & Hd)
         | H : produces Floating _ |- _ =>
             let d := fresh "num" in let Hd := fresh "Hnum" in
             apply produces_Floating in H as (d & -> & Hd)
         | H : produces FloatUnit _ |- _ =>
             let g := fresh "g" in let Hg := fresh "Hg" in
             apply produces_FloatUnit in H as (g & -> & Hg)
         | H : produces Percent _ |- _ =>
             let g := fresh "pc" in let Hg := fresh "Hpc" in
             apply produces_Percent in H as (g & -> & Hg)
         | H : produces (Literal _) _ |- _ => inversion H; subst; clear H
         | H : produces (And _ _) _ |- _ => inversion H; subst; clear H
         | H : produces (Group _) _ |- _ => inversion H; subst; clear H
         | H : produces (Optional _) _ |- _ => inversion H; subst; clear H
         end.


Ltac head_of m :=
  lazymatch m with
  | bind ?m' _ => head_of m'
  | _ => m
  end.

(** One step of the evaluation of [parse_section] on the tokens of an
    accepted section: the conversion that comes next gives a number, or
    raises for an unknown unit. *)
Ltac step :=
  lazymatch goal with
  | |- section_outcome ?o =>
      let h := head_of o in
      lazymatch h with
      | no_units_tok ?g =>
          lazymatch goal with
          | Hg : is_float_unit g = true |- _ =>
              let x := fresh "x" in let Hx := fresh "Hx" in let Px := fresh "Px" in
              let u := fresh "u" in let Hu := fresh "Hu" in
              destruct (float_unit_outcome _ Hg) as [(x & Hx & Px) | (u & Hu & Hx)];
              rewrite Hx; cbn [bind];
              [| right; exists u; split; [exact Hu | reflexivity]]
          | Hg : is_percent g = true |- _ =>
              let x := fresh "x" in let Hx := fresh "Hx" in let Px := fresh "Px" in
              destruct (percent_outcome _ Hg) as (x & Hx & Px);
              rewrite Hx; cbn [bind]
          end
      | py_int ?d =>
          lazymatch goal with
          | Hd : integer_token d = true |- _ =>
              let n := fresh "n" in let Hn := fresh "Hn" in let Pn := fresh "Pn" in
              destruct (py_int_integer _ Hd) as (n & Hn & Pn);
              rewrite Hn; cbn [bind]
          end
      | py_float ?d =>
          lazymatch goal with
          | Hd : decimal_token d = true |- _ =>
              let x := fresh "x" in let Hx := fresh "Hx" in let Px := fresh "Px" in
              destruct (py_float_decimal _ Hd) as (x & Hx & Px);
              rewrite Hx; cbn [bind]
          | Hd : integer_token d = true |- _ =>
              let x := fresh "x" in let Hx := fresh "Hx" in let Px := fresh "Px" in
              destruct (py_float_decimal _ (integer_is_decimal _ Hd)) as (x & Hx & Px);
              rewrite Hx; cbn [bind]
          end
      end
  end.

Lemma parse_section_outcome (section : string) :
  section_outcome (parse_section get_rps_and_latency_parser section).
Proof.
  unfold parse_section, parseString.
  pose proof (parse_sound get_rps_and_latency_parser true (expandtabs section)) as H.
  destruct (parse true get_rps_and_latency_parser (expandtabs section)) as [[t r] | x];
    [| subst x; left; reflexivity].
  cbn [bind].
  unfold get_rps_and_latency_parser in H. cbv zeta in H. cbn [times] in H.
  inv_produces.
  all: cbv -[bind py_int py_float no_units_tok PrimFloat.mul section_outcome];
    cbn [bind]; repeat step;
    unfold section_outcome, counts, numbers;
    cbn [threads connections rps latency starttime endtime
         requests_per_sec transfer_megabytes_per_sec request_count megabytes_read
         over_seconds non_2xx_count thread_rps_mean thread_rps_max thread_rps_stdev
         thread_rps_stdev_range lat50 lat75 lat90 lat99 thread_mean thread_max
         thread_stdev thread_stdev_range];
    (split; repeat first [apply Forall_cons | apply Forall_nil];
     first [assumption | now apply seconds_nonneg | lia]).
Qed.

(** [parse_section] fails in two ways only: the text does not match the
    grammar, or a unit of letters is not in the table of [no_units]. *)
Theorem parse_section_failures (section : string) (e : exn) :
  parse_section get_rps_and_latency_parser section = Raise e ->
  e = ParseException \/
  exists u, alpha_token u = true /\ e = ValueError ("Unknown unit: " ++ u).
Proof.
  intros H. pose proof (parse_section_outcome section) as Ho.
  now rewrite H in Ho.
Qed.

Lemma parse_section_failures_witness :
  ValueError "Unknown unit: m" = ParseException \/
  exists u, alpha_token u = true /\
            ValueError "Unknown unit: m" = ValueError ("Unknown unit: " ++ u).
Proof.
  apply (parse_section_failures minutes_section (ValueError "Unknown unit: m")).
  vm_compute. reflexivity.
Defined.

(** No figure of a summary the parser returns is negative, and none is
    NaN: the four counts are at least 0, and so is each of the eighteen
    numbers, the two timestamps among them. *)
Theorem parsed_numbers_nonnegative (section : string) (r : RawSummary) :
  parse_section get_rps_and_latency_parser section = Ok r ->
  Forall (fun n => 0 <= n) (counts r) /\
  Forall (fun x => (0 <=? x)%float = true) (numbers r).
Proof.
  intros H. pose proof (parse_section_outcome section) as Ho.
  rewrite H in Ho. destruct Ho as [Hc Hn]. split; [exact Hc |].
  revert Hn. apply Forall_impl. exact nonneg_leb.
Qed.

Lemma parsed_numbers_nonnegative_witness :
  Forall (fun n => 0 <= n) (counts (example_run 15)) /\
  Forall (fun x => (0 <=? x)%float = true) (numbers (example_run 15)).
Proof.
  apply (parsed_numbers_nonnegative
           (render_section (show_fixed 2) (show_fixed 0) Seconds (example_run 15))
           (example_run 15)).
  vm_compute. reflexivity.
Defined.

(** ** The outcomes of [get_rps_and_latency] and of the batch *)

(** The sentinel stands for an abort line: the splitter returns it only
    when a body line matches an abort marker. *)
Lemma split_lines_sentinel (lines : list string) :
  forall st,
    split_lines st lines = Ok None ->
    existsb abort_marker (body_lines (inheader st) lines) = true.
Proof.
  induction lines as [| l rest IH]; intros st H; cbn [split_lines body_lines] in *;
    [discriminate |].
  destruct (is_delimiter l) eqn:Hd.
  - rewrite (split_line_delimiter _ _ Hd) in H; cbn [bind] in H.
    apply IH in H. now destruct (inheader st).
  - destruct (inheader st || startswith (strip l) "Running") eqn:Hs.
    + rewrite (split_line_skipped _ _ Hd Hs) in H; cbn [bind] in H. now apply IH.
    + cbn [existsb]. destruct (abort_marker (strip l)) eqn:Ha; [reflexivity |].
      rewrite (split_line_append _ _ Hd Hs Ha) in H.
      destruct (dict_get (text_sections st) (section st)); [| discriminate].
      cbn [bind] in H. apply IH in H. exact H.
Qed.

(** [get_rps_and_latency] returns the sentinel for no other log than one
    with an abort line: when it returns [None], a line outside the headers
    that starts neither with dashes nor with [Running] matches an abort
    marker. *)
Theorem sentinel_only_for_abort (filename text : string) :
  get_rps_and_latency filename text = Ok None ->
  exists l, In l (body_lines false (readlines text)) /\ abort_marker l = true.
Proof.
  unfold get_rps_and_latency. intros H.
  destruct (split_sections text) as [[d |] | e] eqn:E; cbn [bind] in H.
  - destruct (parse_sections filename get_rps_and_latency_parser d); discriminate.
  - apply split_lines_sentinel in E. now apply existsb_exists in E.
  - discriminate.
Qed.

Lemma sentinel_only_for_abort_witness :
  exists l,
    In l (body_lines false (readlines two_sections_then_errors)) /\ abort_marker l = true.
Proof.
  apply (sentinel_only_for_abort "raw.txt" two_sections_then_errors).
  vm_compute. reflexivity.
Defined.

Lemma parse_sections_failures (filename : string) (d : dict) (e : exn) :
  parse_sections filename get_rps_and_latency_parser d = Raise e ->
  e = Exception ("Problem parsing " ++ filename) \/
  e = ValueError ("Problem parsing " ++ filename).
Proof.
  induction d as [| [k v] d IH]; cbn [parse_sections]; [discriminate |].
  destruct (negb (contains v "STARTTIME")); [exact IH |].
  destruct (parse_section get_rps_and_latency_parser v) as [r | x] eqn:Hp.
  - destruct (parse_sections filename get_rps_and_latency_parser d); [discriminate |].
    cbn [bind]. intros [= <-]. now apply IH.
  - intros [= <-]. pose proof (parse_section_outcome v) as Ho. rewrite Hp in Ho.
    destruct Ho as [-> | (u & _ & ->)]; cbn; auto.
Qed.

Lemma get_rps_and_latency_raise (filename text : string) (e : exn) :
  get_rps_and_latency filename text = Raise e ->
  e = KeyError 0 \/
  e = Exception ("Problem parsing " ++ filename) \/
  e = ValueError ("Problem parsing " ++ filename).
Proof.
  unfold get_rps_and_latency. intros H.
  destruct (split_sections text) as [[d |] | x] eqn:E; cbn [bind] in H.
  - destruct (parse_sections filename get_rps_and_latency_parser d) as [rs | x] eqn:Hp;
      [discriminate |].
    cbn [bind] in H. injection H as <-. right. now apply (parse_sections_failures _ d).
  - discriminate.
  - injection H as <-. left. now apply (split_sections_raise text).
Qed.

(** The exceptions of [get_rps_and_latency], the opening of the file
    included: the [FileNotFoundError] of [open] for a path that names no
    file and, for a file that is there, the [KeyError] of the splitter and
    the two the [except] clauses raise under the name of the file,
    [Exception] for a section the grammar rejects and [ValueError] for a
    unit [no_units] does not know.  No [TypeError] leaves it.  The text of
    a file that is there is taken as read: a failure of the operating system
    other than the missing file, or of the decoding, is not modelled. *)
Theorem get_rps_and_latency_failures
    (files : string -> option string) (filename : string) (e : exn) :
  get_rps_and_latency_in files filename = Raise e ->
  (files filename = None /\ e = FileNotFoundError filename) \/
  (exists text,
     files filename = Some text /\
     get_rps_and_latency filename text = Raise e /\
     (e = KeyError 0 \/
      e = Exception ("Problem parsing " ++ filename) \/
      e = ValueError ("Problem parsing " ++ filename))).
Proof.
  unfold get_rps_and_latency_in, open_file. intros H.
  destruct (files filename) as [text |] eqn:E; cbn [bind] in H.
  - right. exists text. split; [reflexivity |]. split; [exact H |].
    now apply (get_rps_and_latency_raise filename text).
  - left. injection H as <-. now split.
Qed.

Lemma get_rps_and_latency_failures_witness :
  (example_files "bad/json/raw.txt" = None /\
   Exception "Problem parsing bad/json/raw.txt" = FileNotFoundError "bad/json/raw.txt") \/
  (exists text,
     example_files "bad/json/raw.txt" = Some text /\
     get_rps_and_latency "bad/json/raw.txt" text
       = Raise (Exception "Problem parsing bad/json/raw.txt") /\
     (Exception "Problem parsing bad/json/raw.txt" = KeyError 0 \/
      Exception "Problem parsing bad/json/raw.txt"
        = Exception ("Problem parsing " ++ "bad/json/raw.txt") \/
      Exception "Problem parsing bad/json/raw.txt"
        = ValueError ("Problem parsing " ++ "bad/json/raw.txt"))).
Proof.
  apply (get_rps_and_latency_failures example_files "bad/json/raw.txt"
           (Exception "Problem parsing bad/json/raw.txt")).
  vm_compute. reflexivity.
Defined.

Lemma get_rps_and_latency_timed (filename text : string) (runs : list RawSummary) :
  get_rps_and_latency filename text = Ok (Some runs) ->
  exists d,
    split_sections text = Ok (Some d) /\
    Forall2 (fun kv r => parse_section get_rps_and_latency_parser (snd kv) = Ok r)
            (timed d) runs.
Proof.
  unfold get_rps_and_latency. intros H.
  destruct (split_sections text) as [[d |] | x] eqn:E; cbn [bind] in H; try discriminate.
  destruct (parse_sections filename get_rps_and_latency_parser d) as [rs | x] eqn:Hp;
    [| discriminate].
  cbn [bind] in H. injection H as <-. exists d. split; [reflexivity |].
  now apply (parse_sections_timed filename).
Qed.

(** The runs a log gives: one for each section that holds [STARTTIME], each
    the summary of its own section, in the order of the log; the other
    sections are left out. *)
Theorem runs_are_timed_sections (filename text : string) (runs : list RawSummary) :
  get_rps_and_latency filename text = Ok (Some runs) ->
  exists d,
    split_sections text = Ok (Some d) /\
    Forall2 (fun kv r => parse_section get_rps_and_latency_parser (snd kv) = Ok r)
            (timed d) runs.
Proof. apply get_rps_and_latency_timed. Qed.

Lemma runs_are_timed_sections_witness :
  exists d,
    split_sections good_log = Ok (Some d) /\
    Forall2 (fun kv r => parse_section get_rps_and_latency_parser (snd kv) = Ok r)
            (timed d) [example_run 15].
Proof.
  apply (runs_are_timed_sections "good/json/raw.txt" good_log [example_run 15]).
  vm_compute. reflexivity.
Defined.

Lemma runs_have_numbers (filename text : string) (runs : list RawSummary) :
  get_rps_and_latency filename text = Ok (Some runs) ->
  forall r, In r runs -> is_number (rps_of r).
Proof.
  intros H r Hr. destruct (get_rps_and_latency_timed _ _ _ H) as (d & _ & Hf).
  assert (Hs : exists s, parse_section get_rps_and_latency_parser s = Ok r).
  { clear H. induction Hf as [| kv r' l l' Hp Hf IH]; [contradiction |].
    destruct Hr as [<- | Hr]; [now exists (snd kv) | now apply IH]. }
  destruct Hs as [s Hs]. pose proof (parse_section_outcome s) as Ho.
  rewrite Hs in Ho. destruct Ho as [_ Hn].
  unfold numbers in Hn. apply Forall_inv, nonneg_leb in Hn.
  unfold rps_of, is_number. float_order.
Qed.

(** A summary is made from the run of the raw log with the most requests
    per second: no run of the log has more.  When the index of the stats
    frame is monotonic increasing, the memory and cpu figures of the summary
    are the statistics of the rows of the frame from one second after the
    start of that run to its end. *)
Theorem selected_run_is_fastest
    (disk : Disk) (framework : string) (paths : TestFiles) (s : FrameworkSummary) :
  framework_summary disk framework paths = Ok (Some s) ->
  (forall frame, get_stats disk (stats paths) = Ok frame ->
                 is_monotonic_increasing (map epoch frame) = true) ->
  exists runs best frame,
    get_rps_and_latency (raw paths) (read disk (raw paths)) = Ok (Some runs) /\
    get_stats disk (stats paths) = Ok frame /\
    is_monotonic_increasing (map epoch frame) = true /\
    In best runs /\
    (forall r, In r runs -> (rps_of r <=? rps_of best)%float = true) /\
    s = {| name := framework;
           fw_threads := threads best;
           fw_connections := connections best;
           fw_rps := rps best;
           fw_latency := latency best;
           memory := get_memory_usage
                       (loc frame (starttime best + 1)%float (endtime best));
           cpu := get_cpu_usage
                    (loc frame (starttime best + 1)%float (endtime best)) |}.
Proof.
  unfold framework_summary. intros H Hmono.
  destruct (get_verification disk (verification paths)); cbn [negb] in H; [| discriminate].
  destruct (get_rps_and_latency (raw paths) (read disk (raw paths)))
    as [[runs |] | e] eqn:Hr; cbn [bind] in H; try discriminate.
  destruct runs as [| x xs]; [discriminate |]. cbn [py_max bind] in H.
  destruct (get_stats disk (stats paths)) as [frame | e] eqn:Hf; [| discriminate].
  cbn [bind] in H. injection H as <-.
  pose proof (runs_have_numbers _ _ _ Hr) as Hnum.
  destruct (max_from_spec rps_of xs [] x []) as (l1 & l2 & Heq & H1 & H2);
    [intros y [] | intros y [] |].
  cbn [app] in Heq.
  exists (x :: xs), (max_from rps_of x xs), frame.
  split; [reflexivity |]. split; [reflexivity |].
  split; [now apply Hmono |].
  assert (Hin : In (max_from rps_of x xs) (x :: xs)).
  { rewrite Heq. apply in_or_app. right. now left. }
  split; [exact Hin |]. split; [| reflexivity].
  intros r Hr'. apply not_ltb_leb; auto. apply H2. now rewrite <- Heq.
Qed.

Lemma selected_run_is_fastest_witness :
  exists runs best frame,
    get_rps_and_latency (raw (snd (files_of "good")))
      (read example_disk (raw (snd (files_of "good")))) = Ok (Some runs) /\
    get_stats example_disk (stats (snd (files_of "good"))) = Ok frame /\
    is_monotonic_increasing (map epoch frame) = true /\
    In best runs /\
    (forall r, In r runs -> (rps_of r <=? rps_of best)%float = true) /\
    good_summary
    = {| name := "good";
         fw_threads := threads best;
         fw_connections := connections best;
         fw_rps := rps best;
         fw_latency := latency best;
         memory := get_memory_usage
                     (loc frame (starttime best + 1)%float (endtime best));
         cpu := get_cpu_usage
                  (loc frame (starttime best + 1)%float (endtime best)) |}.
Proof.
  apply (selected_run_is_fastest example_disk "good" (snd (files_of "good")) good_summary).
  - vm_compute. reflexivity.
  - intros frame H. injection H as <-. vm_compute. reflexivity.
Defined.

Lemma parse_sections_untimed (filename : string) (p : ParserElement) (d : dict) :
  timed d = [] -> parse_sections filename p d = Ok [].
Proof.
  unfold timed. induction d as [| [k v] d IH]; cbn [parse_sections filter snd];
    [reflexivity |].
  destruct (contains v "STARTTIME"); [discriminate |]. exact IH.
Qed.

(** A framework that passes verification and whose raw log has sections,
    none of them with [STARTTIME], is not skipped: [max] raises on the empty
    list of runs, and the batch ends with that [ValueError]. *)
Theorem no_timed_section_aborts
    (disk : Disk) (framework : string) (paths : TestFiles) (d : dict) :
  get_verification disk (verification paths) = true ->
  split_sections (read disk (raw paths)) = Ok (Some d) ->
  timed d = [] ->
  framework_summary disk framework paths
    = Raise (ValueError "max() arg is an empty sequence") /\
  forall testtype post tpost,
    get_test_results disk ((testtype, (framework, paths) :: post) :: tpost)
    = Raise (ValueError "max() arg is an empty sequence").
Proof.
  intros Hv Hs Ht.
  assert (H : framework_summary disk framework paths
              = Raise (ValueError "max() arg is an empty sequence")).
  { unfold framework_summary, get_rps_and_latency. rewrite Hv, Hs. cbn [negb bind].
    now rewrite parse_sections_untimed. }
  split; [exact H |]. intros testtype post tpost.
  cbn [get_test_results framework_results]. now rewrite H.
Qed.

Lemma no_timed_section_aborts_witness :
  framework_summary warmup_disk "warmup" (snd (files_of "warmup"))
    = Raise (ValueError "max() arg is an empty sequence") /\
  forall testtype post tpost,
    get_test_results warmup_disk
      ((testtype, ("warmup", snd (files_of "warmup")) :: post) :: tpost)
    = Raise (ValueError "max() arg is an empty sequence").
Proof.
  apply (no_timed_section_aborts warmup_disk "warmup" (snd (files_of "warmup"))
           warmup_sections).
  - vm_compute. reflexivity.
  - vm_compute. reflexivity.
  - vm_compute. reflexivity.
Defined.

Lemma framework_summary_reported
    (disk : Disk) (framework : string) (paths : TestFiles) (o : option FrameworkSummary) :
  framework_summary disk framework paths = Ok o ->
  match o with
  | Some s => name s = framework /\ reported disk (framework, paths) = true
  | None => reported disk (framework, paths) = false
  end.
Proof.
  unfold framework_summary, reported. cbn [snd].
  destruct (get_verification disk (verification paths)); cbn [negb andb];
    [| now intros [= <-]].
  destruct (get_rps_and_latency (raw paths) (read disk (raw paths)))
    as [[runs |] | e]; cbn [bind]; [| now intros [= <-] | discriminate].
  destruct (py_max (fun r => requests_per_sec (rps r)) runs) as [best | e];
    [| discriminate].
  cbn [bind]. destruct (get_stats disk (stats paths)) as [frame | e]; [| discriminate].
  cbn [bind]. intros [= <-]. now split.
Qed.

Lemma framework_results_reported (disk : Disk) (rows : list (string * TestFiles)) :
  forall out,
    framework_results disk rows = Ok out ->
    map name out = map fst (filter (reported disk) rows).
Proof.
  induction rows as [| [fw paths] rows IH]; intros out H; cbn [framework_results] in H.
  - now injection H as <-.
  - apply bind_Ok_inv in H as (o & Ho & H).
    apply bind_Ok_inv in H as (rest & Hrest & H). injection H as <-.
    apply framework_summary_reported in Ho. cbn [filter].
    destruct o as [s |].
    + destruct Ho as [Hn ->]. cbn [map fst]. now rewrite Hn, (IH _ Hrest).
    + rewrite Ho. now apply IH.
Qed.

(** When a batch ends without an exception, its output has the test types
    of the input, in the same order, and under each the summaries of the
    frameworks that pass verification and whose raw log does not give the
    sentinel, in the order of the input, under their names. *)
Theorem batch_reports_kept_frameworks
    (disk : Disk) (testdic : list (string * list (string * TestFiles)))
    (testresults : list (string * list FrameworkSummary)) :
  get_test_results disk testdic = Ok testresults ->
  Forall2 (fun input output =>
             fst output = fst input /\
             map name (snd output) = map fst (filter (reported disk) (snd input)))
          testdic testresults.
Proof.
  revert testresults.
  induction testdic as [| [ty rows] rest IH]; intros res H; cbn [get_test_results] in H.
  - injection H as <-. constructor.
  - apply bind_Ok_inv in H as (out & Hout & H).
    apply bind_Ok_inv in H as (res' & Hres & H). injection H as <-.
    constructor; [| now apply IH].
    split; [reflexivity |]. now apply framework_results_reported.
Qed.

Lemma batch_reports_kept_frameworks_witness :
  Forall2 (fun input output =>
             fst output = fst input /\
             map name (snd output)
             = map fst (filter (reported example_disk) (snd input)))
          [("json", [files_of "good"])] [("json", [good_summary])].
Proof.
  apply (batch_reports_kept_frameworks example_disk).
  vm_compute. reflexivity.
Defined.

(** ** A window with one value *)

(** A canonical mantissa followed by [k] zero bits is rounded to itself. *)
Lemma round_canonical (s : bool) (m : positive) (e : Z) (k : nat) :
  canonical_mantissa prec emax m (e + Z.of_nat k) = true ->
  e + Z.of_nat k <= 971 ->
  binary_round_aux prec emax s (Zpos (Pos.shiftl_nat m k)) e loc_Exact
  = S754_finite s m (e + Z.of_nat k).
Proof.
  intros Hc He. unfold canonical_mantissa in Hc. apply Z.eqb_eq in Hc.
  unfold fexp, SpecFloat.emin, prec, emax in Hc.
  unfold binary_round_aux.
  assert (H1 : shr_fexp prec emax (Zpos (Pos.shiftl_nat m k)) e loc_Exact
               = ({| shr_m := Zpos m; shr_r := false; shr_s := false |}, e + Z.of_nat k)).
  { unfold shr_fexp, Zdigits2. rewrite digits_shifted.
    unfold fexp, SpecFloat.emin, prec, emax.
    replace (Z.max (Zpos (digits2_pos m) + Z.of_nat k + e - 53) (3 - 1024 - 53) - e)
      with (Z.of_nat k) by lia.
    unfold shr, shr_record_of_loc. destruct k as [| k].
    - cbn [Z.of_nat]. now rewrite Z.add_0_r.
    - cbn [Z.of_nat]. rewrite iter_pos_nat, SuccNat2Pos.id_succ.
      now rewrite shr_shifted. }
  rewrite H1. cbn [shr_m loc_of_shr_record round_nearest_even].
  assert (H2 : shr_fexp prec emax (Zpos m) (e + Z.of_nat k) loc_Exact
               = ({| shr_m := Zpos m; shr_r := false; shr_s := false |}, e + Z.of_nat k)).
  { unfold shr_fexp, Zdigits2.
    unfold fexp, SpecFloat.emin, prec, emax.
    replace (Z.max (Zpos (digits2_pos m) + (e + Z.of_nat k) - 53) (3 - 1024 - 53)
             - (e + Z.of_nat k))
      with 0 by lia.
    reflexivity. }
  rewrite H2. cbn [shr_m]. unfold emax, prec.
  destruct (e + Z.of_nat k <=? 1024 - 53) eqn:E; [reflexivity |].
  apply Z.leb_gt in E. lia.
Qed.

(** Division by 1 changes no double. *)
Lemma div_one (x : float) : (x / 1)%float = x.
Proof.
  apply Prim2SF_inj. rewrite div_spec.
  pose proof (Prim2SF_valid x) as Hv.
  change (Prim2SF 1) with (S754_finite false 4503599627370496 (-52)).
  destruct (Prim2SF x) as [s | s | | s m e]; try (now destruct s); [reflexivity |].
  unfold SpecFloat.valid_binary, bounded in Hv. apply andb_true_iff in Hv as [Hc Hb].
  apply Z.leb_le in Hb. unfold prec, emax in Hb.
  pose proof Hc as Hc'. unfold canonical_mantissa in Hc'. apply Z.eqb_eq in Hc'.
  unfold fexp, SpecFloat.emin, prec, emax in Hc'.
  set (d := Zpos (digits2_pos m)) in *.
  assert (Hd0 : 1 <= d) by (unfold d; lia).
  unfold SF64div, SFdiv, SFdiv_core_binary.
  cbn [Zdigits2]. change (Zpos (digits2_pos 4503599627370496)) with 53. fold d.
  unfold fexp, SpecFloat.emin, prec, emax.
  change IntDef.Z.min with Z.min.
  set (e' := Z.min (Z.max (d + e - (53 + -52) - 53) (3 - 1024 - 53)) (e - -52)).
  assert (Hs : 52 <= e - -52 - e' /\ e' + (e - -52 - e') - 52 = e) by (unfold e'; lia).
  destruct (e - -52 - e') as [| p | p] eqn:Ep; try lia.
  change IntDef.Z.shiftl with Z.shiftl.
  rewrite Z.shiftl_mul_pow2 by lia.
  assert (Hdiv : Zpos m * 2 ^ Zpos p
                 = Zpos (Pos.shiftl_nat m (Z.to_nat (Zpos p - 52))) * 4503599627370496).
  { rewrite shiftl_nat_value. change 4503599627370496 with (2 ^ 52).
    rewrite <- Z.mul_assoc, <- Z.pow_add_r by lia. do 2 f_equal. lia. }
  rewrite (div_eucl_exact _ _ _ (Pos2Z.is_pos 4503599627370496) Hdiv).
  change (new_location 4503599627370496 0) with loc_Exact.
  rewrite Bool.xorb_false_r.
  pose proof (round_canonical s m e' (Z.to_nat (Zpos p - 52))) as R.
  replace (e' + Z.of_nat (Z.to_nat (Zpos p - 52))) with e in R by lia.
  apply R; [exact Hc | lia].
Qed.

Lemma sub_nan (x : float) : Prim2SF (x - nan) = S754_nan.
Proof.
  rewrite sub_spec. change (Prim2SF nan) with S754_nan.
  now destruct (Prim2SF x) as [[] | [] | | [] m e].
Qed.

Lemma add_nan (x : float) : Prim2SF (x + nan) = S754_nan.
Proof.
  rewrite add_spec. change (Prim2SF nan) with S754_nan.
  now destruct (Prim2SF x) as [[] | [] | | [] m e].
Qed.

Lemma between_nan (l r x : float) : Prim2SF l = S754_nan -> between l r x = false.
Proof.
  intros H. unfold between. rewrite leb_spec, H. reflexivity.
Qed.

Lemma filter_false {A} (p : A -> bool) (l : list A) :
  (forall x, p x = false) -> filter p l = [].
Proof. intros H. induction l as [| x l IH]; cbn; [reflexivity | now rewrite H]. Qed.

(** Added to 0, a double is itself, except that -0.0 becomes 0.0. *)
Lemma zero_add (c : float) : Prim2SF c <> S754_zero true -> (0 + c)%float = c.
Proof.
  intros H. apply Prim2SF_inj. rewrite add_spec.
  change (Prim2SF 0) with (S754_zero false).
  destruct (Prim2SF c) as [[] | [] | | [] m e]; try reflexivity. now destruct H.
Qed.

Lemma zero_add_twice (c : float) : (0 + (0 + c))%float = (0 + c)%float.
Proof.
  apply Prim2SF_inj. rewrite !add_spec.
  change (Prim2SF 0) with (S754_zero false).
  now destruct (Prim2SF c) as [[] | [] | | [] m e].
Qed.

Lemma zero_add_eqb (c : float) : is_number c -> (0 + c =? c)%float = true.
Proof.
  intros H. destruct (Prim2SF c) as [[] | | |] eqn:E.
  - assert (Hc : c = neg_zero) by (apply Prim2SF_inj; now rewrite E).
    subst c. reflexivity.
  - rewrite zero_add by (rewrite E; discriminate). exact H.
  - rewrite zero_add by (rewrite E; discriminate). exact H.
  - rewrite zero_add by (rewrite E; discriminate). exact H.
  - rewrite zero_add by (rewrite E; discriminate). exact H.
Qed.

(** numpy's mean of one value. *)
Lemma np_mean_one (c : float) : np_mean [c] = (0 + c)%float.
Proof.
  unfold np_mean, fsum. cbn [List.length pairwise_sum Nat.ltb Nat.leb sum_from fold_left].
  change (float_of_Z (Z.of_nat 1)) with 1%float.
  now rewrite div_one, zero_add_twice.
Qed.

Lemma single_number (s : list float) (c : float) : dropna s = [c] -> is_number c.
Proof.
  intros H. assert (Hin : In c (dropna s)) by (rewrite H; now left).
  unfold dropna in Hin. apply filter_In in Hin as [_ Hin]. exact Hin.
Qed.

(** The statistics of a series with exactly one value [c] that is not
    missing: the median is [0 + c], which is [c] with -0.0 turned into 0.0,
    the maximum is [c], there is no deviation (NaN), and no sample counts as
    within one deviation of the mean. *)
Lemma one_value_statistics (s : list float) (c : float) :
  dropna s = [c] ->
  median s = (0 + c)%float /\ smax s = c /\ Prim2SF (std s) = S754_nan /\
  int_true_divide
    (100 * count (filter (between (mean s - std s) (mean s + std s)) s)) (count s)
  = 0%float.
Proof.
  intros H.
  assert (Hstd : std s = nan) by (unfold std, count; now rewrite H).
  split; [| split; [| split]].
  - unfold median, sorted_values. rewrite H.
    cbn [fold_right insert_sorted List.length Nat.eqb Nat.odd Nat.even negb
         Nat.div Nat.divmod fst nth].
    apply np_mean_one.
  - unfold smax. now rewrite H.
  - now rewrite Hstd.
  - rewrite Hstd, filter_false by (intros x; apply between_nan, sub_nan).
    unfold count at 2. now rewrite H.
Qed.

(** A window in which exactly one memory reading, or one cpu reading, [c]
    is not missing: the reported median is [0 + c], that is [c] itself
    unless [c] is -0.0, for which it is 0.0; the reported maximum is [c],
    the reported stdev is NaN, and the stdev_range is 0. *)
Theorem single_sample_statistics (stats : DataFrame) (c : float) :
  (dropna (map memory_used stats) = [c] ->
   let m := get_memory_usage stats in
   mem_median m = (0 + c)%float /\
   (Prim2SF c <> S754_zero true -> mem_median m = c) /\
   (mem_median m =? c)%float = true /\
   mem_max m = c /\
   Prim2SF (mem_stdev m) = S754_nan /\ mem_stdev_range m = 0%float) /\
  (dropna (map cpu_usr stats) = [c] ->
   let m := get_cpu_usage stats in
   cpu_median m = (0 + c)%float /\
   (Prim2SF c <> S754_zero true -> cpu_median m = c) /\
   (cpu_median m =? c)%float = true /\
   cpu_max m = c /\
   Prim2SF (cpu_stdev m) = S754_nan /\ cpu_stdev_range m = 0%float).
Proof.
  split; intros H m; subst m; unfold get_memory_usage, get_cpu_usage;
    cbn [mem_median mem_max mem_stdev mem_stdev_range
         cpu_median cpu_max cpu_stdev cpu_stdev_range];
    destruct (one_value_statistics _ _ H) as (Hm & Hx & Hs & Hr);
    pose proof (single_number _ _ H) as Hc;
    rewrite Hm;
    (split; [reflexivity |]); (split; [intros Hz; now apply zero_add |]);
    (split; [now apply zero_add_eqb |]); auto.
Qed.

Lemma single_sample_statistics_witness :
  let m := get_memory_usage (constant_frame 50 1001 1) in
  mem_median m = (0 + 50)%float /\
  (Prim2SF 50 <> S754_zero true -> mem_median m = 50%float) /\
  (mem_median m =? 50)%float = true /\
  mem_max m = 50%float /\
  Prim2SF (mem_stdev m) = S754_nan /\ mem_stdev_range m = 0%float.
Proof.
  apply (single_sample_statistics (constant_frame 50 1001 1) 50). reflexivity.
Defined.

(** A reading of -0.0 alone in its window is reported with the median
    0.0. *)
Lemma negative_zero_median :
  mem_median (get_memory_usage (constant_frame neg_zero 1001 1)) = 0%float.
Proof.
  destruct (one_value_statistics [neg_zero] neg_zero) as [H _]; [reflexivity |].
  exact H.
Qed.

(** ** Missing readings *)

Lemma dropna_idem (s : list float) : dropna (dropna s) = dropna s.
Proof.
  unfold dropna. induction s as [| x s IH]; cbn [filter]; [reflexivity |].
  destruct (notna x) eqn:E; [cbn [filter]; now rewrite E, IH | exact IH].
Qed.

Lemma dropna_map {A} (f : A -> float) (l : list A) :
  map f (filter (fun a => notna (f a)) l) = dropna (map f l).
Proof.
  unfold dropna. induction l as [| a l IH]; cbn [filter map]; [reflexivity |].
  destruct (notna (f a)); cbn [map]; now rewrite IH.
Qed.

(** The count, the median and the maximum of a series are those of its
    values that are not missing. *)
Lemma order_statistics_dropna (s : list float) :
  count (dropna s) = count s /\ median (dropna s) = median s /\
  smax (dropna s) = smax s.
Proof.
  unfold median, smax, sorted_values, count. now rewrite !dropna_idem.
Qed.

(** Rows whose reading is missing weigh on neither the count of the
    readings, nor the reported median, nor the reported maximum: without
    them these are the same. *)
Theorem median_max_ignore_missing (stats : DataFrame) :
  (let kept := filter (fun row => notna (memory_used row)) stats in
   count (map memory_used kept) = count (map memory_used stats) /\
   mem_median (get_memory_usage kept) = mem_median (get_memory_usage stats) /\
   mem_max (get_memory_usage kept) = mem_max (get_memory_usage stats)) /\
  (let kept := filter (fun row => notna (cpu_usr row)) stats in
   count (map cpu_usr kept) = count (map cpu_usr stats) /\
   cpu_median (get_cpu_usage kept) = cpu_median (get_cpu_usage stats) /\
   cpu_max (get_cpu_usage kept) = cpu_max (get_cpu_usage stats)).
Proof.
  split; intros kept; subst kept; unfold get_memory_usage, get_cpu_usage;
    cbn [mem_median mem_max cpu_median cpu_max]; rewrite !dropna_map.
  - apply (order_statistics_dropna (map memory_used stats)).
  - apply (order_statistics_dropna (map cpu_usr stats)).
Qed.

(** The mean and the deviation do depend on the rows with a missing
    reading: the missing values are summed as 0, and their places change
    the pairs in which the values are added. *)
Lemma missing_row_changes_mean :
  let s := [0.1; 0.2; 0.3; 0.4; 0.5; 0.6; 0.7; nan; 1.1]%float in
  (mean s =? mean (dropna s))%float = false /\
  (std s =? std (dropna s))%float = false.
Proof. vm_compute. split; reflexivity. Qed.

(** ** StatsLoader: the names of the columns *)

Lemma split_comma_nonempty (s : string) : StatsHeader.split_comma s <> [].
Proof.
  induction s as [| c s IH]; cbn; [discriminate |].
  destruct (Ascii.eqb c ","); [discriminate |].
  destruct (StatsHeader.split_comma s); [contradiction | discriminate].
Qed.

Lemma header_nonempty (line : string) : StatsHeader.header line <> [].
Proof.
  unfold StatsHeader.header. pose proof (split_comma_nonempty (strip line)) as H.
  destruct (StatsHeader.split_comma (strip line)); [contradiction | discriminate].
Qed.

(** The loop, once [lasth1] is set. *)
Lemma name_columns_set (cells : list (string * string)) :
  forall last names,
    StatsHeader.name_columns (Some last) names cells
    = StatsHeader.Ok
        (names ++ pairs (fill_forward last (map fst cells)) (map snd cells))%list.
Proof.
  unfold pairs.
  induction cells as [| [h1 h2] cells IH]; intros last names;
    cbn [StatsHeader.name_columns map fst snd fill_forward combine].
  - now rewrite app_nil_r.
  - destruct h1 as [| c h1]; rewrite IH, <- app_assoc; reflexivity.
Qed.

Lemma combine_fst_snd {A B} (a : list A) (b : list B) :
  combine (map fst (combine a b)) (map snd (combine a b)) = combine a b.
Proof.
  revert b. induction a as [| x a IH]; intros [| y b]; cbn; [reflexivity .. |].
  now rewrite IH.
Qed.

Lemma fill_forward_firstn (n : nat) :
  forall last cells,
    firstn n (fill_forward last cells) = fill_forward last (firstn n cells).
Proof.
  induction n as [| n IH]; intros last [| h cells]; cbn; [reflexivity .. |].
  now rewrite IH.
Qed.

Lemma combine_fill_forward (last : string) (a b : list string) :
  combine (fill_forward last (map fst (combine a b))) (map snd (combine a b))
  = combine (fill_forward last a) b.
Proof.
  revert last b. induction a as [| x a IH]; intros last [| y b]; cbn; [reflexivity .. |].
  now rewrite IH.
Qed.

Lemma fill_forward_labels (cells : list string) :
  forall last, last <> "" -> Forall (fun l => l <> "") (fill_forward last cells).
Proof.
  induction cells as [| h cells IH]; intros last Hl; cbn [fill_forward]; constructor.
  - destruct h; [exact Hl | discriminate].
  - apply IH. destruct h; [exact Hl | discriminate].
Qed.

(** What [get_stats] does with the header of a stats file.  It raises
    [StopIteration] for a file of fewer than four lines and
    [UnboundLocalError] when the first cell of the fifth line is empty once
    its quotes are stripped, as it is when the file ends there; [names[0]]
    never fails.  Otherwise the names are as many as the shorter header line
    has cells: the first is [epoch], each other one is the pair of the
    label its column has in the first header line, an empty cell taking the
    label to its left, and of its cell in the second; no first label is
    empty. *)
Theorem get_stats_names_outcome (text : string) :
  let header1 := StatsHeader.header (header_line text 0) in
  let header2 := StatsHeader.header (header_line text 1) in
  match StatsHeader.get_stats_names text with
  | StatsHeader.Raise StatsHeader.StopIteration =>
      (List.length (readlines text) < 4)%nat
  | StatsHeader.Raise (StatsHeader.UnboundLocalError v) =>
      v = "lasth1" /\ (4 <= List.length (readlines text))%nat /\ hd "" header1 = ""
  | StatsHeader.Raise StatsHeader.IndexError => False
  | StatsHeader.Ok names =>
      (4 <= List.length (readlines text))%nat /\
      names = StatsHeader.Label "epoch" :: tl (pairs (fill_forward "" header1) header2) /\
      List.length names = Nat.min (List.length header1) (List.length header2) /\
      Forall (fun l => l <> "") (fill_forward "" header1)
  end.
Proof.
  intros header1 header2. unfold StatsHeader.get_stats_names.
  destruct (List.length (readlines text) <? 4)%nat eqn:E.
  - now apply Nat.ltb_lt in E.
  - apply Nat.ltb_ge in E.
    assert (H1 : fst (StatsHeader.readline (skipn 4 (readlines text))) = header_line text 0).
    { unfold header_line. now destruct (skipn 4 (readlines text)). }
    assert (H2 : fst (StatsHeader.readline
                        (snd (StatsHeader.readline (skipn 4 (readlines text)))))
                 = header_line text 1).
    { unfold header_line. destruct (skipn 4 (readlines text)) as [| a [| b l]]; reflexivity. }
    destruct (StatsHeader.readline (skipn 4 (readlines text))) as [line1 csv].
    cbn [fst snd] in H1, H2.
    destruct (StatsHeader.readline csv) as [line2 csv'].
    cbn [fst snd] in H2. subst line1 line2. fold header1 header2.
    pose proof (header_nonempty (header_line text 0)) as N1.
    pose proof (header_nonempty (header_line text 1)) as N2.
    fold header1 in N1. fold header2 in N2.
    destruct header1 as [| h1 t1]; [contradiction |].
    destruct header2 as [| h2 t2]; [contradiction |].
    cbn [combine StatsHeader.name_columns hd].
    destruct h1 as [| c h1]; [now repeat split |].
    rewrite name_columns_set. cbn [app].
    split; [exact E |]. split; [| split].
    + cbn [fill_forward]. unfold pairs. cbn [combine map tl fst snd].
      now rewrite combine_fill_forward.
    + unfold pairs. cbn [List.length]. rewrite length_map, combine_fill_forward.
      rewrite length_combine. f_equal.
      assert (Hlen : forall last cells,
                 List.length (fill_forward last cells) = List.length cells).
      { intros last cells. revert last.
        induction cells as [| x cells IH]; intros last; cbn; [reflexivity |].
        now rewrite IH. }
      now rewrite Hlen.
    + cbn [fill_forward]. constructor; [discriminate |].
      apply fill_forward_labels. discriminate.
Qed.

(** The names [get_stats] gives the columns of a dstat file: the columns
    the statistics select are among them. *)
Lemma dstat_header_names :
  StatsHeader.get_stats_names dstat_header
  = StatsHeader.Ok
      [StatsHeader.Label "epoch";
       StatsHeader.Pair "total cpu usage" "usr";
       StatsHeader.Pair "total cpu usage" "sys";
       StatsHeader.Pair "total cpu usage" "idl";
       StatsHeader.Pair "total cpu usage" "wai";
       StatsHeader.Pair "total cpu usage" "stl";
       StatsHeader.Pair "memory usage" "used";
       StatsHeader.Pair "memory usage" "free";
       StatsHeader.Pair "memory usage" "buff";
       StatsHeader.Pair "memory usage" "cach"].
Proof. vm_compute. reflexivity. Qed.

(** ** The verification file *)

Lemma readlines_regular (c : ascii) (s : string) :
  is_break c = false ->
  readlines (String c s)
  = match readlines s with
    | [] => [String c EmptyString]
    | l :: ls => String c l :: ls
    end.
Proof.
  unfold is_break. intros H. apply orb_false_iff in H as [H1 H2].
  cbn [readlines]. now rewrite H1, H2.
Qed.

Lemma line_feed (c : ascii) : (code c =? 10) = true -> c = "010"%char.
Proof.
  destruct c as [[] [] [] [] [] [] [] []]; vm_compute; intros H;
    first [discriminate H | reflexivity].
Qed.

Lemma readlines_break (c : ascii) (s : string) :
  is_break c = true ->
  exists s', readlines (String c s) = String "010" EmptyString :: readlines s' /\
             (s' = s \/ exists c', is_break c' = true /\ s = String c' s').
Proof.
  unfold is_break. intros H. cbn [readlines].
  destruct (code c =? 10) eqn:E1.
  { exists s. rewrite (line_feed _ E1). auto. }
  cbn [orb] in H. rewrite H.
  destruct s as [| c' s'']; [exists ""; auto |].
  destruct (code c' =? 10) eqn:E2.
  - exists s''. split; [| right; exists c'; now rewrite E2].
    now rewrite (line_feed _ E2).
  - exists (String c' s''). auto.
Qed.

(** The text of a file starts with what its first line starts with. *)
Lemma first_line_prefix (text : string) :
  forall p, all_chars no_break p = true ->
    String.prefix p (hd "" (readlines text)) = true ->
    exists rest, text = p ++ rest.
Proof.
  induction text as [| c s IH]; intros p Hp H.
  - cbn in H. destruct p; [now exists "" | discriminate].
  - destruct p as [| a p]; [now exists (String c s) |].
    cbn [all_chars] in Hp. apply andb_true_iff in Hp as [Ha Hp].
    unfold no_break in Ha. apply negb_true_iff in Ha.
    destruct (is_break c) eqn:Hc.
    + destruct (readlines_break c s Hc) as (s' & E & _). rewrite E in H.
      cbn [hd String.prefix] in H.
      destruct (Ascii.ascii_dec a "010") as [-> |]; [discriminate Ha | discriminate].
    + rewrite (readlines_regular _ _ Hc) in H.
      assert (H' : String.prefix (String a p) (String c (hd "" (readlines s))) = true).
      { destruct (readlines s); exact H. }
      cbn [String.prefix] in H'.
      destruct (Ascii.ascii_dec a c) as [-> |]; [| discriminate].
      destruct (IH _ Hp H') as [rest ->]. now exists rest.
Qed.

Lemma at_line_start_cons (c : ascii) (before : string) :
  before <> "" -> at_line_start (String c before) = at_line_start before.
Proof. destruct before; [contradiction | reflexivity]. Qed.

(** A later line of a file starts after a line break of the text. *)
Lemma later_line_prefix (p : string) (n : nat) :
  all_chars no_break p = true ->
  forall text, (String.length text <= n)%nat ->
    forall line, In line (tl (readlines text)) -> String.prefix p line = true ->
      exists before rest,
        text = before ++ p ++ rest /\ before <> "" /\ at_line_start before = true.
Proof.
  intros Hp. induction n as [| n IH]; intros text Hlen line Hin Hpre.
  - destruct text; [contradiction | cbn in Hlen; lia].
  - destruct text as [| c s]; [contradiction |]. cbn [String.length] in Hlen.
    assert (Hrest : forall s' pre,
               (String.length s' <= n)%nat -> pre <> "" -> at_line_start pre = true ->
               String c s = pre ++ s' -> In line (readlines s') ->
               exists before rest,
                 String c s = before ++ p ++ rest /\ before <> "" /\
                 at_line_start before = true).
    { intros s' pre Hl Hne Hst Heq Hl'.
      destruct (readlines s') as [| l ls] eqn:E; [contradiction |].
      destruct Hl' as [<- | Hl'].
      - destruct (first_line_prefix s' p Hp) as [rest ->]; [now rewrite E |].
        exists pre, rest. now split.
      - destruct (IH s' Hl line) as (b & rest & -> & Hb & Hs); [now rewrite E | exact Hpre |].
        exists (pre ++ b), rest. split; [now rewrite Heq, append_assoc |].
        split.
        + destruct pre; [contradiction | discriminate].
        + clear Heq. induction pre as [| a pre IHp]; [contradiction |].
          destruct pre as [| a' pre].
          * cbn [append]. now rewrite at_line_start_cons.
          * change ((String a (String a' pre)) ++ b)
              with (String a (String a' pre ++ b)).
            rewrite at_line_start_cons by discriminate.
            apply IHp; [discriminate | exact Hst]. }
    destruct (is_break c) eqn:Hc.
    + destruct (readlines_break c s Hc) as (s' & E & Hs'). rewrite E in Hin.
      cbn [tl] in Hin. destruct Hs' as [-> | (c' & Hc' & ->)].
      * apply (Hrest s (String c ""));
          [lia | discriminate | exact Hc | reflexivity | exact Hin].
      * apply (Hrest s' (String c (String c' "")));
          [cbn [String.length] in Hlen; lia | discriminate | exact Hc' | reflexivity
          | exact Hin].
    + rewrite (readlines_regular _ _ Hc) in Hin.
      destruct (readlines s) as [| l ls] eqn:E; [contradiction |]. cbn [tl] in Hin.
      destruct (IH s ltac:(lia) line) as (b & rest & -> & Hb & Hs);
        [now rewrite E | exact Hpre |].
      exists (String c b), rest. split; [reflexivity |]. split; [discriminate |].
      now rewrite at_line_start_cons.
Qed.

Lemma readlines_nonempty (c : ascii) (s : string) : readlines (String c s) <> [].
Proof.
  destruct (is_break c) eqn:Hc.
  - destruct (readlines_break c s Hc) as (s' & -> & _). discriminate.
  - rewrite (readlines_regular _ _ Hc). destruct (readlines s); discriminate.
Qed.

(** The lines of a text after the start of a line: those in front, then
    those of the rest. *)
Lemma readlines_app (n : nat) :
  forall before s,
    (String.length before <= n)%nat ->
    at_line_start before = true ->
    match s with String c _ => negb (code c =? 10) | EmptyString => true end = true ->
    readlines (before ++ s) = (readlines before ++ readlines s)%list.
Proof.
  induction n as [| n IH]; intros before s Hlen Hst Hs.
  - destruct before; [reflexivity | cbn in Hlen; lia].
  - destruct before as [| c b]; [reflexivity |]. cbn [String.length] in Hlen.
    cbn [append]. destruct (is_break c) eqn:Hc.
    + unfold is_break in Hc. cbn [readlines].
      destruct (code c =? 10) eqn:E1.
      * cbn [app]. f_equal. destruct b as [| c' b]; [reflexivity |].
        apply IH; [lia | | exact Hs]. exact Hst.
      * cbn [orb] in Hc. rewrite Hc. destruct b as [| c' b].
        -- cbn [append]. destruct s as [| c' s]; [reflexivity |].
           apply negb_true_iff in Hs. now rewrite Hs.
        -- cbn [append]. destruct (code c' =? 10) eqn:E2.
           ++ cbn [app]. f_equal. destruct b as [| c'' b]; [reflexivity |].
              apply IH; [cbn [String.length] in *; lia | | exact Hs]. exact Hst.
           ++ cbn [app]. f_equal. change (String c' (b ++ s)) with (String c' b ++ s).
              apply IH; [lia | | exact Hs]. exact Hst.
    + destruct b as [| c' b]; [cbn in Hst; congruence |].
      rewrite !(readlines_regular c) by exact Hc.
      change (String c' b ++ s) with (String c' (b ++ s)) in *.
      change (String c' (b ++ s)) with (String c' b ++ s).
      rewrite IH by (auto; lia).
      pose proof (readlines_nonempty c' b) as Hne.
      destruct (readlines (String c' b)); [contradiction | reflexivity].
Qed.

Lemma first_line_of (p : string) :
  all_chars no_break p = true -> p <> "" ->
  forall rest, exists l ls, readlines (p ++ rest) = (p ++ l) :: ls.
Proof.
  intros Hp Hne rest. induction p as [| c p IH]; [contradiction |].
  cbn [all_chars] in Hp. apply andb_true_iff in Hp as [Hc Hp].
  unfold no_break in Hc. apply negb_true_iff in Hc.
  cbn [append]. rewrite (readlines_regular _ _ Hc).
  destruct p as [| c' p].
  - cbn [append]. destruct (readlines rest) as [| l ls]; [now exists "", [] | now exists l, ls].
  - destruct (IH Hp ltac:(discriminate)) as (l & ls & ->). now exists l, ls.
Qed.

(** [get_verification] passes a file exactly when a line of it starts with
    the three blanks and [PASS for]: when the text holds that string at its
    start or right after a line break.  What else the file holds, and FAIL
    lines with it, does not weigh. *)
Theorem verification_passes_iff (disk : Disk) (filename : string) :
  get_verification disk filename = true <->
  exists before rest,
    read disk filename = before ++ "   PASS for" ++ rest /\
    at_line_start before = true.
Proof.
  unfold get_verification. set (text := read disk filename). clearbody text.
  assert (Hp : all_chars no_break "   PASS for" = true) by reflexivity.
  split.
  - intros H. apply existsb_exists in H as (line & Hin & Hline).
    unfold startswith in Hline.
    destruct (readlines text) as [| l ls] eqn:E; [contradiction |].
    destruct Hin as [<- | Hin].
    + destruct (first_line_prefix text _ Hp) as [rest ->]; [now rewrite E |].
      now exists "", rest.
    + destruct (later_line_prefix _ (String.length text) Hp text (le_n _) line)
        as (before & rest & -> & _ & Hs); [now rewrite E | exact Hline |].
      now exists before, rest.
  - intros (before & rest & -> & Hs).
    rewrite (readlines_app (String.length before)) by (auto; reflexivity).
    rewrite existsb_app. apply orb_true_iff. right.
    destruct (first_line_of _ Hp ltac:(discriminate) rest) as (l & ls & ->).
    cbn [existsb]. apply orb_true_iff. left.
    unfold startswith. apply prefix_app. reflexivity.
Qed.
